(** * NetherPortal: the Git synchronisation plugin, embedded from its TypeScript

    The development follows [src/gitManager.ts] (class [GitManager]) and
    [src/main.ts] (class [MyPlugin]).

    - JavaScript strings are [string]s whose characters are code units in the
      range 0..255; the string methods the plugin uses are written out in
      [Module JsString].
    - The [async] methods are programs of a free monad [prog]: a tree whose
      nodes are the calls made to simple-git, [fs] and the clock, the
      [Notice]s shown to the user, and the reads and writes of the fields of
      [this].  A [try]/[catch] is the combinator [try_catch].
    - [run] executes a program from start to end against an arbitrary
      adapter [git_call]; [Loop] executes several programs the way the
      JavaScript event loop does, switching between them at the calls that
      are awaited.
    - The theorems come after the definitions, method by method; the last
      part goes on with what the methods show, call and leave behind. *)

From Stdlib Require Import Strings.String Strings.Ascii Lists.List Bool.Bool.
From Stdlib Require Import Arith.PeanoNat ZArith.ZArith micromega.Lia.
From Stdlib Require Import Numbers.DecimalString.
Import ListNotations.

Local Open Scope list_scope.
Local Open Scope string_scope.

(* ================================================================== *)
(** * JavaScript string methods *)
(* ================================================================== *)

Module JsString.

(** [WhiteSpace] and [LineTerminator] code units below 256: TAB, LF, VT, FF,
    CR, SP and NBSP. *)
Definition is_ws (c : ascii) : bool :=
  match nat_of_ascii c with
  | 9 | 10 | 11 | 12 | 13 | 32 | 160 => true
  | _ => false
  end.

(** [s.startsWith(pat)] *)
Definition startsWith (s pat : string) : bool := String.prefix pat s.

(** [s.includes(pat)] *)
Fixpoint includes (s pat : string) : bool :=
  String.prefix pat s ||
  match s with
  | EmptyString => false
  | String _ s' => includes s' pat
  end.

(** [s.slice(n)] *)
Fixpoint slice_from (n : nat) (s : string) : string :=
  match n, s with
  | O, _ => s
  | S n', String _ s' => slice_from n' s'
  | S _, EmptyString => EmptyString
  end.

(** [s.endsWith(pat)]: the last [length pat] code units of [s] are [pat]. *)
Definition endsWith (s pat : string) : bool :=
  (String.length pat <=? String.length s)%nat &&
  (slice_from (String.length s - String.length pat) s =? pat)%string.

(** [s.trimStart()] and [s.trimEnd()]; [s.trim()] is both. *)
Fixpoint trimStart (s : string) : string :=
  match s with
  | EmptyString => EmptyString
  | String c s' => if is_ws c then trimStart s' else s
  end.

Fixpoint trimEnd (s : string) : string :=
  match s with
  | EmptyString => EmptyString
  | String c s' =>
      match trimEnd s' with
      | EmptyString => if is_ws c then EmptyString else String c EmptyString
      | r => String c r
      end
  end.

Definition trim (s : string) : string := trimEnd (trimStart s).

(** [s.split(sep)] for a separator of one code unit. *)
Fixpoint split (sep : ascii) (s : string) : list string :=
  match s with
  | EmptyString => [EmptyString]
  | String c s' =>
      if Ascii.eqb c sep then EmptyString :: split sep s'
      else match split sep s' with
           | [] => [String c EmptyString]
           | x :: xs => String c x :: xs
           end
  end.

(** [l.join(sep)] *)
Definition join (sep : string) (l : list string) : string := String.concat sep l.

(** The first occurrence of [pat] in [s]: what precedes it and what follows
    it ([s.indexOf(pat)] cut in two). *)
Fixpoint find_first (pat s : string) : option (string * string) :=
  if String.prefix pat s then Some (EmptyString, slice_from (String.length pat) s)
  else match s with
       | EmptyString => None
       | String c s' =>
           match find_first pat s' with
           | Some (before, after) => Some (String c before, after)
           | None => None
           end
       end.

(** [GetSubstitution] of ECMA-262 for a pattern that is a string (no capture
    groups): [$$] is a dollar, [$&] the match, [$`] the text before the match,
    [$'] the text after it; every other code unit stands for itself. *)
Fixpoint getSubstitution (matched before after rep : string) : string :=
  match rep with
  | EmptyString => EmptyString
  | String "$" (String "$" r) => String "$" (getSubstitution matched before after r)
  | String "$" (String "&" r) => matched ++ getSubstitution matched before after r
  | String "$" (String "`" r) => before ++ getSubstitution matched before after r
  | String "$" (String "'" r) => after ++ getSubstitution matched before after r
  | String c r => String c (getSubstitution matched before after r)
  end.

(** [s.replace(pat, rep)] with a string pattern: the first occurrence only. *)
Definition replace (pat rep s : string) : string :=
  match find_first pat s with
  | None => s
  | Some (before, after) => before ++ getSubstitution pat before after rep ++ after
  end.

(** A number in a template literal: [`${n}`]. *)
Definition of_nat (n : nat) : string := NilZero.string_of_uint (Nat.to_uint n).

End JsString.

Import JsString.

(* ================================================================== *)
(** * The commit message ([MyPlugin.getCommitMessage]) *)
(* ================================================================== *)

(** [`\n`] *)
Definition nl : string := String (ascii_of_nat 10) EmptyString.

(** The block that stands for [{files}]:
[[
  const filesToShow = files.slice(0, 10);
  const filesList = filesToShow.map(f => `  - ${f}`).join('\n');
  const moreFiles = files.length > 10 ? `\n  ... e mais ${files.length - 10} arquivo(s)` : '';
  const filesText = `\nArquivos alterados:\n${filesList}${moreFiles}`;
]] *)
Definition filesText (files : list string) : string :=
  let filesToShow := firstn 10 files in
  let filesList := join nl (map (fun f => "  - " ++ f) filesToShow) in
  let moreFiles :=
    if (10 <? List.length files)%nat
    then nl ++ "  ... e mais " ++ of_nat (List.length files - 10) ++ " arquivo(s)"
    else "" in
  nl ++ "Arquivos alterados:" ++ nl ++ filesList ++ moreFiles.

(** [getCommitMessage(files?)]; [dateStr] is
    [new Date().toLocaleString('pt-BR')], read by the caller, and [template]
    is [this.settings.commitMessageTemplate]. *)
Definition getCommitMessage (template dateStr : string)
    (files : option (list string)) : string :=
  let message := replace "{date}" dateStr template in
  let message :=
    match files with
    | Some ((_ :: _) as fs) => replace "{files}" (filesText fs) message
    | _ => replace "{files}" "" message
    end in
  trim message.

(* ================================================================== *)
(** * Values exchanged with simple-git, [fs] and the host *)
(* ================================================================== *)

(** A thrown [Error]: its [name] and its [message]. *)
Record JsError : Type := mkError { err_name : string; err_message : string }.

(** [String(error)], that is [Error.prototype.toString]. *)
Definition error_toString (e : JsError) : string :=
  if (err_name e =? "")%string then err_message e
  else if (err_message e =? "")%string then err_name e
  else err_name e ++ ": " ++ err_message e.

(** [error.message || String(error)] *)
Definition errorMsgOf (e : JsError) : string :=
  if (err_message e =? "")%string then error_toString e else err_message e.

(** The [TypeError] of a method call on [null]. *)
Definition typeError : JsError := mkError "TypeError" "Cannot read properties of null".

(** How an awaited call ends: it resolves with a value or rejects. *)
Inductive outcome (A : Type) : Type :=
| Ok (a : A)
| Err (e : JsError).
Arguments Ok {A} a.
Arguments Err {A} e.

(** [interface GitSyncConfig]; the fields marked [?] are options. *)
Record GitSyncConfig : Type := mkConfig {
  repoPath : string;
  remoteUrl : option string;
  branch : string;
  userName : string;
  userEmail : string;
  token : option string;
  sshKeyPath : option string;
  sshKeyPassphrase : option string;
  useSSH : option bool
}.

(** Truthiness of an optional string and of an optional flag: [undefined]
    and [''] are falsy. *)
Definition nonempty (o : option string) : option string :=
  match o with
  | Some s => if (s =? "")%string then None else Some s
  | None => None
  end.

Definition flag (o : option bool) : bool :=
  match o with Some b => b | None => false end.

(** The parts of simple-git's results that the plugin reads. *)
Record FileStatusResult : Type := mkFile { path : string }.

Record StatusResult : Type := mkStatus {
  current : option string;
  files : list FileStatusResult;
  conflicted : list string
}.

Record RemoteWithRefs : Type := mkRemote { remote_name : string }.

Record BranchSummary : Type := mkBranches { all : list string }.

(** The calls the plugin makes on its collaborators.  [SimpleGit baseDir
    config] is [simpleGit(baseDir, { config })], which gives the [SimpleGit]
    instance and throws when [baseDir] is not a directory; [Git...] are the
    methods of that instance, [Fs...] those of [fs];
    [PathJoinHome rest] is
    [path.join(process.env.HOME || process.env.USERPROFILE || '', rest)];
    [DateNow] is [Date.now()] and [DateLocaleString] is
    [new Date().toLocaleString('pt-BR')]. *)
Inductive op : Type :=
| SimpleGit (baseDir : string) (config : list string)
| GitRevparse (args : list string)
| GitInit
| GitAddConfig (key value : string)
| GitGetRemotes (verbose : bool)
| GitRemoveRemote (name : string)
| GitAddRemote (name url : string)
| GitBranchLocal
| GitCheckoutLocalBranch (name : string)
| GitCheckout (args : list string)
| GitStatus
| GitRaw (args : list string)
| GitFetch (remote branch_ : string)
| GitPull (remote branch_ : string) (options : list string)
| GitAdd (pathspec : list string)
| GitCommit (message : list string)
| GitPush (remote branch_ : string)
| GitMerge (args : list string)
| FsExistsSync (p : string)
| FsAccessSync (p : string)
| PathJoinHome (rest : string)
| DateNow
| DateLocaleString.

(** What a call resolves with. *)
Definition resp (o : op) : Type :=
  match o with
  | GitRevparse _ | GitRaw _ | PathJoinHome _ | DateLocaleString => string
  | GitGetRemotes _ => list RemoteWithRefs
  | GitBranchLocal => BranchSummary
  | GitStatus => StatusResult
  | FsExistsSync _ => bool
  | DateNow => Z
  | _ => unit
  end.

(** The calls that return a promise: the plugin awaits them, and other
    handlers may run meanwhile.  The others return at once. *)
Definition is_async (o : op) : bool :=
  match o with
  | SimpleGit _ _
  | FsExistsSync _ | FsAccessSync _ | PathJoinHome _ | DateNow | DateLocaleString => false
  | _ => true
  end.

(** The [Notice]s of [gitManager.ts] and [main.ts], by the line that shows
    them. *)
Inductive notice : Type :=
| N_InitRepoFailed (msg : string)            (* gitManager.ts:171 *)
| N_RepoNotVerified                          (* gitManager.ts:180 *)
| N_UrlIncomplete                            (* gitManager.ts:189 *)
| N_AuthFailed (ssh : bool)                  (* gitManager.ts:211 *)
| N_InitFailed (msg : string)                (* gitManager.ts:236 *)
| N_InitBeforePullFailed                     (* gitManager.ts:249 *)
| N_MergeInProgress                          (* gitManager.ts:261 *)
| N_RemoteBranchNotFound (branch_ : string)  (* gitManager.ts:288 *)
| N_PullConflicts (n : nat)                  (* gitManager.ts:302 *)
| N_PullAuthError                            (* gitManager.ts:313 *)
| N_PullRemoteNotFound                       (* gitManager.ts:315 *)
| N_PullConflictError                        (* gitManager.ts:317 *)
| N_PullError (msg : string)                 (* gitManager.ts:319 *)
| N_SyncPullFailed                           (* gitManager.ts:405 *)
| N_SyncPushFailed                           (* gitManager.ts:423 *)
| N_SyncComplete                             (* gitManager.ts:427 *)
| N_SyncError                                (* gitManager.ts:431 *)
| N_NotConfigured                            (* main.ts:41, 46, 70, 145 *)
| N_PullOk                                   (* main.ts:54 *)
| N_PushOk                                   (* main.ts:88 *)
| N_NoConflicts                              (* main.ts:150 *)
| N_ConflictsResolved                        (* main.ts:155 *)
| N_ResolveFailed                            (* main.ts:157 *)
| N_UrlNotConfigured                         (* main.ts:259 *)
| N_UrlIncompleteMain                        (* main.ts:267 *)
| N_InitFailedMain (msg : string)            (* main.ts:305 *)
| N_SyncFailedMain.                          (* main.ts:346 *)

(** What an observer sees of a run: the calls with how they ended, and the
    notices. *)
Inductive event : Type :=
| Called (o : op) (r : outcome (resp o))
| Noticed (n : notice).

(* ================================================================== *)
(** * Programs *)
(* ================================================================== *)

(** A method body over the fields [S] of [this], returning an [A]. *)
Inductive prog (S A : Type) : Type :=
| Ret (a : A)
| Throw (e : JsError)
| Call (o : op) (k : outcome (resp o) -> prog S A)
| Notify (n : notice) (k : prog S A)
| Get (k : S -> prog S A)
| Modify (f : S -> S) (k : prog S A).
Arguments Ret {S A} a.
Arguments Throw {S A} e.
Arguments Call {S A} o k.
Arguments Notify {S A} n k.
Arguments Get {S A} k.
Arguments Modify {S A} f k.

Fixpoint bind {S A B} (p : prog S A) (f : A -> prog S B) : prog S B :=
  match p with
  | Ret a => f a
  | Throw e => Throw e
  | Call o k => Call o (fun r => bind (k r) f)
  | Notify n k => Notify n (bind k f)
  | Get k => Get (fun s => bind (k s) f)
  | Modify g k => Modify g (bind k f)
  end.

(** [try { p } catch (error) { h error }] *)
Fixpoint try_catch {S A} (p : prog S A) (h : JsError -> prog S A) : prog S A :=
  match p with
  | Ret a => Ret a
  | Throw e => h e
  | Call o k => Call o (fun r => try_catch (k r) h)
  | Notify n k => Notify n (try_catch k h)
  | Get k => Get (fun s => try_catch (k s) h)
  | Modify g k => Modify g (try_catch k h)
  end.

(** [await o] (or the plain call when [o] is synchronous): the value it
    resolves with, or the error it rejects with, thrown. *)
Definition call {S} (o : op) : prog S (resp o) :=
  Call o (fun r => match r with Ok v => Ret v | Err e => Throw e end).

Definition notify {S} (n : notice) : prog S unit := Notify n (Ret tt).
Definition get {S} : prog S S := Get (fun s => Ret s).
Definition modify {S} (f : S -> S) : prog S unit := Modify f (Ret tt).

Arguments call : simpl never.
Arguments notify : simpl never.
Arguments get : simpl never.
Arguments modify : simpl never.

Declare Scope prog_scope.
Delimit Scope prog_scope with prog.
Notation "x <- p ;; q" := (bind p (fun x => q))
  (at level 100, p at next level, right associativity) : prog_scope.
Notation "p ;; q" := (bind p (fun _ => q))
  (at level 100, right associativity) : prog_scope.
Local Open Scope prog_scope.

(** How a block inside a method ends: it runs to its end with a value, or
    it executes a [return] of the enclosing method. *)
Inductive completion (A R : Type) : Type :=
| Normal (a : A)
| Return (r : R).
Arguments Normal {A R} a.
Arguments Return {A R} r.

(** The rest of the method after a block. *)
Definition after {S A R} (p : prog S (completion A R)) (rest : A -> prog S R) : prog S R :=
  c <- p ;; match c with Normal a => rest a | Return r => Ret r end.

(** [for (const x of l) { body x }] *)
Fixpoint forEach {S A} (l : list A) (body : A -> prog S unit) : prog S unit :=
  match l with
  | [] => Ret tt
  | x :: l' => body x ;; forEach l' body
  end.

(* ================================================================== *)
(** * [class GitManager] (gitManager.ts) *)
(* ================================================================== *)

(** The fields of a [GitManager]; the calls on its [git] go to the
    adapter. *)
Record GitManager : Type := mkGitManager {
  config : GitSyncConfig;
  isInitialized : bool
}.

Definition set_isInitialized (b : bool) (this : GitManager) : GitManager :=
  mkGitManager (config this) b.

(** The options given to [simpleGit], lines 26-32: the [ssh] command with
    the key, when SSH is switched on and a key path is set. *)
Definition dquote : string := String (ascii_of_nat 34) EmptyString.

Definition gitOptions (c : GitSyncConfig) : list string :=
  match flag (useSSH c), nonempty (sshKeyPath c) with
  | true, Some keyPath =>
      ["core.sshCommand=ssh -i " ++ dquote ++ keyPath ++ dquote
       ++ " -o StrictHostKeyChecking=no"]
  | _, _ => []
  end.

(** [new GitManager(config)], lines 23-35: the object exists once
    [simpleGit] has returned. *)
Definition newGitManager {S} (c : GitSyncConfig) : prog S GitManager :=
  call (SimpleGit (repoPath c) (gitOptions c)) ;;
  Ret (mkGitManager c false).

Module GitManagerMethods.

Definition M := prog GitManager.

(** [validateSSHKey()], lines 40-64. *)
Definition validateSSHKey : M bool :=
  this <- get ;;
  match nonempty (sshKeyPath (config this)) with
  | None => Ret false
  | Some keyPath0 =>
      try_catch
        (keyPath <- (if startsWith keyPath0 "~"
                     then call (PathJoinHome (slice_from 1 keyPath0))
                     else Ret keyPath0) ;;
         found <- call (FsExistsSync keyPath) ;;
         if negb found then Ret false
         else (call (FsAccessSync keyPath) ;; Ret true))
        (fun _ => Ret false)
  end.

(** [remotes.some(r => r.name === 'origin')] *)
Definition has_origin (remotes : list RemoteWithRefs) : bool :=
  existsb (fun r => (remote_name r =? "origin")%string) remotes.

(** The URL with the token in it, lines 97-100 and 115-118. *)
Definition with_token (tok url : string) : string :=
  replace "https://github.com/" ("https://x-access-token:" ++ tok ++ "@github.com/") url.

(** [setupAuthentication()], lines 69-145. *)
Definition setupAuthentication : M bool :=
  try_catch
    (this <- get ;;
     let cfg := config this in
     match nonempty (remoteUrl cfg) with
     | None => Ret false
     | Some url =>
         originExists <-
           try_catch (remotes <- call (GitGetRemotes true) ;; Ret (has_origin remotes))
                     (fun _ => Ret false) ;;
         after
           (if flag (useSSH cfg) then
              valid <- validateSSHKey ;;
              if negb valid then
                match nonempty (token cfg) with
                | Some tok =>
                    let remoteUrl1 :=
                      replace ".git" "" (replace "git@github.com:" "https://github.com/" url)
                      ++ ".git" in
                    Ret (Normal (with_token tok remoteUrl1))
                | None => Ret (Return false)
                end
              else if negb (startsWith url "git@")
                   then Ret (Normal (replace "https://github.com/" "git@github.com:" url))
                   else Ret (Normal url)
            else
              match nonempty (token cfg) with
              | Some tok =>
                  if includes url "github.com" then Ret (Normal (with_token tok url))
                  else Ret (Normal url)
              | None => Ret (Normal url)
              end)
           (fun remoteUrl' =>
              try_catch
                ((if originExists then call (GitRemoveRemote "origin") else Ret tt) ;;
                 call (GitAddRemote "origin" remoteUrl'))
                (fun error =>
                   if negb (err_message error =? "")%string
                      && (includes (err_message error) "already exists"
                          || includes (err_message error) "remote origin already exists")
                   then (call (GitRemoveRemote "origin") ;;
                         call (GitAddRemote "origin" remoteUrl'))
                   else Throw error) ;;
              Ret true)
     end)
    (fun _ => Ret false).

(** The test of line 188 on the trimmed URL. *)
Definition url_incomplete (url : string) : bool :=
  endsWith url "/"
  || (negb (includes url "/") && (List.length (split "/" url) <? 3)%nat).

(** [initialize()], lines 150-239. *)
Definition initialize : M bool :=
  try_catch
    (after
       (try_catch
          (call (GitRevparse ["--git-dir"]) ;; Ret (Normal true))
          (fun error =>
             let errorMsg := errorMsgOf error in
             if includes errorMsg "not a git repository"
                || includes errorMsg "Not a git repository"
             then
               try_catch
                 (call GitInit ;; Ret (Normal true))
                 (fun initError =>
                    notify (N_InitRepoFailed (errorMsgOf initError)) ;;
                    Ret (Return false))
             else Throw error))
       (fun isGitRepo =>
          if negb isGitRepo then (notify N_RepoNotVerified ;; Ret false)
          else
            this <- get ;;
            let cfg := config this in
            after
              (match nonempty (remoteUrl cfg) with
               | Some remoteUrl0 =>
                   if url_incomplete (trim remoteUrl0)
                   then (notify N_UrlIncomplete ;; Ret (Return false))
                   else Ret (Normal tt)
               | None => Ret (Normal tt)
               end)
              (fun _ =>
                 try_catch
                   (call (GitAddConfig "user.name" (userName cfg)) ;;
                    call (GitAddConfig "user.email" (userEmail cfg)))
                   (fun _ => Ret tt) ;;
                 authSuccess <- setupAuthentication ;;
                 if negb authSuccess
                 then (notify (N_AuthFailed (flag (useSSH cfg))) ;; Ret false)
                 else
                   try_catch
                     (branches <- call GitBranchLocal ;;
                      if negb (existsb (String.eqb (branch cfg)) (all branches))
                      then call (GitCheckoutLocalBranch (branch cfg))
                      else call (GitCheckout [branch cfg]))
                     (fun _ => Ret tt) ;;
                   modify (set_isInitialized true) ;;
                   Ret true)))
    (fun error => notify (N_InitFailed (errorMsgOf error)) ;; Ret false).

(** [status.current !== this.config.branch] *)
Definition not_on_branch (cur : option string) (b : string) : bool :=
  match cur with
  | Some c => negb (c =? b)%string
  | None => true
  end.

(** The test of line 287 on the message of a failed fetch. *)
Definition ref_not_found (errorMsg : string) : bool :=
  includes errorMsg "couldn't find remote ref" || includes errorMsg "doesn't exist".

(** The [catch] of [pull()], lines 307-323. *)
Definition pull_failed (error : JsError) : M bool :=
  let errorMsg := errorMsgOf error in
  (if includes errorMsg "authentication" || includes errorMsg "Authentication failed"
   then notify N_PullAuthError
   else if includes errorMsg "not found" || includes errorMsg "doesn't exist"
   then notify N_PullRemoteNotFound
   else if includes errorMsg "merge" || includes errorMsg "conflict"
   then notify N_PullConflictError
   else notify (N_PullError errorMsg)) ;;
  Ret false.

(** [pull()], lines 244-324, in the order of its blocks: the
    initialisation on first use (246-252), the test for a merge in progress
    (255-267), the remote (270-280), then the fetch and the pull
    (283-306). *)
Definition pull_initialize : M (completion unit bool) :=
  this <- get ;;
  if negb (isInitialized this) then
    initialized <- initialize ;;
    if negb initialized
    then (notify N_InitBeforePullFailed ;; Ret (Return false))
    else Ret (Normal tt)
  else Ret (Normal tt).

Definition pull_check_merge (cfg : GitSyncConfig) : M (completion unit bool) :=
  status <- call GitStatus ;;
  if not_on_branch (current status) (branch cfg) then
    try_catch
      (mergeHead <- call (GitRaw ["rev-parse"; "--verify"; "MERGE_HEAD"]) ;;
       if negb (mergeHead =? "")%string
       then (notify N_MergeInProgress ;; Ret (Return false))
       else Ret (Normal tt))
      (fun _ => Ret (Normal tt))
  else Ret (Normal tt).

Definition pull_check_remote (cfg : GitSyncConfig) : M unit :=
  try_catch
    (remotes <- call (GitGetRemotes true) ;;
     if negb (has_origin remotes)
        && match nonempty (remoteUrl cfg) with Some _ => true | None => false end
     then (setupAuthentication ;; Ret tt)
     else Ret tt)
    (fun _ => Ret tt).

Definition pull_fetch (cfg : GitSyncConfig) : M (completion unit bool) :=
  try_catch
    (call (GitFetch "origin" (branch cfg)) ;; Ret (Normal tt))
    (fun error =>
       if ref_not_found (errorMsgOf error)
       then (notify (N_RemoteBranchNotFound (branch cfg)) ;; Ret (Return false))
       else Ret (Normal tt)).

Definition pull_merge (cfg : GitSyncConfig) : M bool :=
  call (GitPull "origin" (branch cfg) ["--no-rebase"]) ;;
  statusAfterPull <- call GitStatus ;;
  if (0 <? List.length (conflicted statusAfterPull))%nat
  then (notify (N_PullConflicts (List.length (conflicted statusAfterPull))) ;; Ret true)
  else Ret true.

Definition pull : M bool :=
  try_catch
    (after pull_initialize
       (fun _ =>
          this <- get ;;
          let cfg := config this in
          after (pull_check_merge cfg)
            (fun _ =>
               pull_check_remote cfg ;;
               after (pull_fetch cfg) (fun _ => pull_merge cfg))))
    pull_failed.

(** The message committed by [commitAndPush], lines 350-357. *)
Definition finalMessageOf (message : string) (changedFiles : list string) : string :=
  if includes message "{files}"
  then replace "{files}" (filesText changedFiles) message
  else message.

(** The paths listed in the message, line 344:
    [files || status.files.map(f => f.path)]. *)
Definition listed (files_ : option (list string)) (status : StatusResult) : list string :=
  match files_ with
  | Some fs => fs
  | None => map path (files status)
  end.

(** What [commitAndPush] does once the status is known, lines 338-366. *)
Definition commit_after_status (message : string) (files_ : option (list string))
    (this : GitManager) (status : StatusResult) : M bool :=
  if (List.length (files status) =? 0)%nat then Ret true
  else
    let changedFiles := listed files_ status in
    call (GitAdd ["."]) ;;
    let finalMessage := finalMessageOf message changedFiles in
    call (GitCommit [trim finalMessage]) ;;
    call (GitPush "origin" (branch (config this))) ;;
    Ret true.

(** [commitAndPush(message, files?)], lines 329-371. *)
Definition commitAndPush (message : string) (files_ : option (list string)) : M bool :=
  try_catch
    (this <- get ;;
     (if negb (isInitialized this) then (initialize ;; Ret tt) else Ret tt) ;;
     this <- get ;;
     status <- call GitStatus ;;
     commit_after_status message files_ this status)
    (fun _ => Ret false).

(** [getStatus()], lines 376-383; [null] is [None]. *)
Definition getStatus : M (option StatusResult) :=
  try_catch (status <- call GitStatus ;; Ret (Some status)) (fun _ => Ret None).

(** [fullSync(commitMessage, files?)], lines 400-434. *)
Definition fullSync (commitMessage : string) (files_ : option (list string)) : M bool :=
  try_catch
    (pullSuccess <- pull ;;
     if negb pullSuccess then (notify N_SyncPullFailed ;; Ret false)
     else
       changedFiles <-
         match files_ with
         | Some fs => Ret (Some fs)
         | None =>
             try_catch
               (status <- call GitStatus ;; Ret (Some (map path (files status))))
               (fun _ => Ret None)
         end ;;
       pushSuccess <- commitAndPush commitMessage changedFiles ;;
       if negb pushSuccess then (notify N_SyncPushFailed ;; Ret false)
       else (notify N_SyncComplete ;; Ret true))
    (fun _ => notify N_SyncError ;; Ret false).

(** [hasConflicts()], lines 439-447. *)
Definition hasConflicts : M bool :=
  try_catch
    (status <- call GitStatus ;; Ret (0 <? List.length (conflicted status))%nat)
    (fun _ => Ret false).

(** [getConflictedFiles()], lines 452-460. *)
Definition getConflictedFiles : M (list string) :=
  try_catch (status <- call GitStatus ;; Ret (conflicted status)) (fun _ => Ret []).

(** The two strategies of [resolveConflicts]. *)
Inductive strategy : Type := ours | theirs.

Definition side (s : strategy) : string :=
  match s with ours => "--ours" | theirs => "--theirs" end.

(** [resolveConflicts(strategy)], lines 465-496. *)
Definition resolveConflicts (s : strategy) : M bool :=
  try_catch
    (conflictedFiles <- getConflictedFiles ;;
     if (List.length conflictedFiles =? 0)%nat then Ret true
     else
       forEach conflictedFiles
         (fun file =>
            call (GitCheckout [side s; file]) ;;
            call (GitAdd [file])) ;;
       call (GitCommit ["--no-edit"]) ;;
       Ret true)
    (fun _ => Ret false).

(** The calls of the loop of lines 476-486. *)
Definition resolution_calls (s : strategy) (l : list string) : list op :=
  flat_map (fun file => [GitCheckout [side s; file]; GitAdd [file]]) l.

(** [abortMerge()], lines 501-510. *)
Definition abortMerge : M bool :=
  try_catch (call (GitMerge ["--abort"]) ;; Ret true) (fun _ => Ret false).

End GitManagerMethods.

(* ================================================================== *)
(** * [class MyPlugin] (main.ts) *)
(* ================================================================== *)

(** [interface MyPluginSettings] (settings.ts); [syncInterval] is in
    minutes. *)
Record MyPluginSettings : Type := mkSettings {
  githubRepoUrl : string;
  githubBranch : string;
  githubUserName : string;
  githubUserEmail : string;
  githubToken : string;
  settings_useSSH : bool;
  settings_sshKeyPath : string;
  settings_sshKeyPassphrase : string;
  autoSyncOnOpen : bool;
  autoSyncOnSave : bool;
  commitMessageTemplate : string;
  syncInterval : Z
}.

(** [DEFAULT_SETTINGS] *)
Definition DEFAULT_SETTINGS : MyPluginSettings :=
  mkSettings "" "main" "Obsidian User" "user@example.com" "" false
             "~/.ssh/id_rsa" "" true true "[Obsidian Sync] {date}{files}" 30.

(** The fields of the plugin.  [vaultPath] is what the host gives as the
    base path of the vault, and [syncDebounceTimer] the identifier of the
    timer last set by the [modify] handler.

    [gitManager] is assigned in one place only, [initializeGit], when it is
    [null] and with no [await] between the test and the assignment: the
    plugin has at most one [GitManager] object in its life, so the object is
    kept in the field itself. *)
Record MyPlugin : Type := mkPlugin {
  settings : MyPluginSettings;
  vaultPath : string;
  gitManager : option GitManager;
  lastSyncTime : Z;
  syncDebounceTimer : option nat
}.

Definition set_gitManager (g : option GitManager) (this : MyPlugin) : MyPlugin :=
  mkPlugin (settings this) (vaultPath this) g (lastSyncTime this) (syncDebounceTimer this).

Definition set_lastSyncTime (t : Z) (this : MyPlugin) : MyPlugin :=
  mkPlugin (settings this) (vaultPath this) (gitManager this) t (syncDebounceTimer this).

Definition set_syncDebounceTimer (t : option nat) (this : MyPlugin) : MyPlugin :=
  mkPlugin (settings this) (vaultPath this) (gitManager this) (lastSyncTime this) t.

(** A method of the [GitManager] run on [this.gitManager]; on [null] the
    call is a [TypeError]. *)
Fixpoint on_gitManager {A} (p : prog GitManager A) : prog MyPlugin A :=
  match p with
  | Ret a => Ret a
  | Throw e => Throw e
  | Call o k => Call o (fun r => on_gitManager (k r))
  | Notify n k => Notify n (on_gitManager k)
  | Get k =>
      Get (fun this =>
             match gitManager this with
             | Some g => on_gitManager (k g)
             | None => Throw typeError
             end)
  | Modify f k =>
      Modify (fun this => set_gitManager (option_map f (gitManager this)) this)
             (on_gitManager k)
  end.

Definition gitManager_call {A} (p : prog GitManager A) : prog MyPlugin A :=
  Get (fun this =>
         match gitManager this with
         | Some _ => on_gitManager p
         | None => Throw typeError
         end).

(** A [TFile] of the vault. *)
Record TFile : Type := mkTFile { file_path : string; file_name : string }.

Module MyPluginMethods.

Definition M := prog MyPlugin.

(** The test of line 266 on the trimmed URL:
    [repoUrl.split('/').filter(s => s)] keeps the parts that are not empty. *)
Definition url_incomplete (repoUrl : string) : bool :=
  endsWith repoUrl "/"
  || (negb (includes repoUrl ".git")
      && (List.length (filter (fun s => negb (s =? "")%string) (split "/" repoUrl)) <? 3)%nat).

(** The [GitSyncConfig] of lines 280-290. *)
Definition config_of (s : MyPluginSettings) (vault : string) : GitSyncConfig :=
  mkConfig vault (Some (githubRepoUrl s)) (githubBranch s) (githubUserName s)
           (githubUserEmail s) (Some (githubToken s)) (Some (settings_sshKeyPath s))
           (Some (settings_sshKeyPassphrase s)) (Some (settings_useSSH s)).

(** [initializeGit()], lines 256-308. *)
Definition initializeGit : M bool :=
  try_catch
    (this <- get ;;
     if (githubRepoUrl (settings this) =? "")%string
     then (notify N_UrlNotConfigured ;; Ret false)
     else
       let repoUrl := trim (githubRepoUrl (settings this)) in
       if url_incomplete repoUrl
       then (notify N_UrlIncompleteMain ;; Ret false)
       else
         match gitManager this with
         | None =>
             let config := config_of (settings this) (vaultPath this) in
             created <- newGitManager config ;;
             modify (set_gitManager (Some created)) ;;
             initialized <- gitManager_call GitManagerMethods.initialize ;;
             if negb initialized then Ret false else Ret true
         | Some _ => Ret true
         end)
    (fun error => notify (N_InitFailedMain (errorMsgOf error)) ;; Ret false).

(** [performSync(source, changedFiles?)], lines 313-348; [source] is only
    written to the console. *)
Definition performSync (source : string) (changedFiles : option (list string)) : M unit :=
  try_catch
    (after
       (this <- get ;;
        match gitManager this with
        | None =>
            initialized <- initializeGit ;;
            if negb initialized then Ret (Return tt) else Ret (Normal tt)
        | Some _ => Ret (Normal tt)
        end)
       (fun _ =>
          this <- get ;;
          files_ <-
            match changedFiles, gitManager this with
            | None, Some _ =>
                try_catch
                  (status <- gitManager_call GitManagerMethods.getStatus ;;
                   match status with
                   | Some st => Ret (Some (map path (files st)))
                   | None => Ret None
                   end)
                  (fun _ => Ret None)
            | _, _ => Ret changedFiles
            end ;;
          dateStr <- call DateLocaleString ;;
          this <- get ;;
          let commitMessage :=
            getCommitMessage (commitMessageTemplate (settings this)) dateStr files_ in
          success <- gitManager_call (GitManagerMethods.fullSync commitMessage files_) ;;
          now <- call DateNow ;;
          modify (set_lastSyncTime now) ;;
          Ret tt))
    (fun _ => notify N_SyncFailedMain ;; Ret tt).

(** The ribbon icon and the command [github-sync-manual], lines 16-31. *)
Definition manualSync : M unit := performSync "Manual sync" None.

(** The command [github-sync-pull], lines 37-58. *)
Definition commandPull : M unit :=
  after
    (this <- get ;;
     match gitManager this with
     | None =>
         initialized <- initializeGit ;;
         if negb initialized then (notify N_NotConfigured ;; Ret (Return tt))
         else Ret (Normal tt)
     | Some _ => Ret (Normal tt)
     end)
    (fun _ =>
       this <- get ;;
       match gitManager this with
       | None => notify N_NotConfigured
       | Some _ =>
           success <- gitManager_call GitManagerMethods.pull ;;
           if success then
             hasConflicts <- gitManager_call GitManagerMethods.hasConflicts ;;
             if negb hasConflicts then notify N_PullOk else Ret tt
           else Ret tt
       end).

(** The command [github-sync-push], lines 65-90. *)
Definition commandPush : M unit :=
  this <- get ;;
  (match gitManager this with
   | None => (initializeGit ;; Ret tt)
   | Some _ => Ret tt
   end) ;;
  this <- get ;;
  match gitManager this with
  | None => notify N_NotConfigured
  | Some _ =>
      changedFiles <-
        try_catch
          (status <- gitManager_call GitManagerMethods.getStatus ;;
           match status with
           | Some st => Ret (Some (map path (files st)))
           | None => Ret None
           end)
          (fun _ => Ret None) ;;
      dateStr <- call DateLocaleString ;;
      this <- get ;;
      let commitMessage :=
        getCommitMessage (commitMessageTemplate (settings this)) dateStr changedFiles in
      success <- gitManager_call (GitManagerMethods.commitAndPush commitMessage changedFiles) ;;
      if success then notify N_PushOk else Ret tt
  end.

(** The command [github-sync-resolve-conflicts], lines 140-159. *)
Definition commandResolveConflicts : M unit :=
  this <- get ;;
  (match gitManager this with
   | None => (initializeGit ;; Ret tt)
   | Some _ => Ret tt
   end) ;;
  this <- get ;;
  match gitManager this with
  | None => notify N_NotConfigured
  | Some _ =>
      hasConflicts <- gitManager_call GitManagerMethods.hasConflicts ;;
      if negb hasConflicts then notify N_NoConflicts
      else
        success <- gitManager_call (GitManagerMethods.resolveConflicts GitManagerMethods.ours) ;;
        if success then notify N_ConflictsResolved else notify N_ResolveFailed
  end.

(** The handler of the vault's [create] event, lines 188-194. *)
Definition onCreate : M unit :=
  this <- get ;;
  if autoSyncOnOpen (settings this) && negb (githubRepoUrl (settings this) =? "")%string
  then (initializeGit ;; performSync "Auto-sync on vault init" None)
  else Ret tt.

(** The callback given to [setTimeout] by the [modify] handler, lines
    206-211: [file.path || file.name] is the one file of the cycle. *)
Definition onSaveTimeout (file : TFile) : M unit :=
  initializeGit ;;
  let filePath := if (file_path file =? "")%string then file_name file else file_path file in
  performSync ("Auto-sync on save: " ++ file_name file) (Some [filePath]).

(** The callback given to [setInterval], lines 218-229. *)
Definition onInterval : M unit :=
  this <- get ;;
  if (0 <? syncInterval (settings this))%Z
     && negb (githubRepoUrl (settings this) =? "")%string
  then
    now <- call DateNow ;;
    this <- get ;;
    let timeSinceLastSync := (now - lastSyncTime this)%Z in
    let intervalMs := (syncInterval (settings this) * 60 * 1000)%Z in
    if (intervalMs <=? timeSinceLastSync)%Z
    then (initializeGit ;; performSync "Background auto-sync" None)
    else Ret tt
  else Ret tt.

End MyPluginMethods.

(* ================================================================== *)
(** * Running one program from start to end *)
(* ================================================================== *)

(** The collaborators as one function: the call [o] made in the world [w]
    gives the world after it and how the call ended.  Nothing is assumed
    about it. *)
Definition adapter (W : Type) : Type := forall o : op, W -> W * outcome (resp o).

(** The result of a run: the fields of [this] and the world at the end, what
    was observed, and the value returned or the error thrown. *)
Record ran (W S A : Type) : Type := mkRan {
  fields : S;
  world : W;
  events : list event;
  value : outcome A
}.
Arguments mkRan {W S A}.
Arguments fields {W S A}.
Arguments world {W S A}.
Arguments events {W S A}.
Arguments value {W S A}.

Definition observe {W S A} (e : event) (r : ran W S A) : ran W S A :=
  mkRan (fields r) (world r) (e :: events r) (value r).

Fixpoint run {W S A} (git : adapter W) (p : prog S A) (this : S) (w : W) : ran W S A :=
  match p with
  | Ret a => mkRan this w [] (Ok a)
  | Throw e => mkRan this w [] (Err e)
  | Call o k =>
      let (w', r) := git o w in
      observe (Called o r) (run git (k r) this w')
  | Notify n k => observe (Noticed n) (run git k this w)
  | Get k => run git (k this) this w
  | Modify f k => run git k (f this) w
  end.

(** The calls among the events, the calls that were rejected with their
    errors, the answers of the status queries, and the notices. *)
Definition calls (evs : list event) : list op :=
  flat_map (fun e => match e with Called o _ => [o] | Noticed _ => [] end) evs.

Definition rejected (evs : list event) : list (op * JsError) :=
  flat_map (fun e => match e with
                     | Called o (Err e) => [(o, e)]
                     | _ => []
                     end) evs.



Definition notices (evs : list event) : list notice :=
  flat_map (fun e => match e with Called _ _ => [] | Noticed n => [n] end) evs.

(** The calls that write a commit or send to the remote. *)
Definition is_commit (o : op) : bool :=
  match o with GitCommit _ => true | _ => false end.

Definition is_push (o : op) : bool :=
  match o with GitPush _ _ => true | _ => false end.

(** The calls on the repository; the others are [fs], [path] and the
    clock. *)
Definition is_repository_op (o : op) : bool :=
  match o with
  | FsExistsSync _ | FsAccessSync _ | PathJoinHome _ | DateNow | DateLocaleString => false
  | _ => true
  end.

(* ================================================================== *)
(** * What a program can do, read off its tree *)
(* ================================================================== *)

(** [only P Q p]: every call in [p] is one of [P], and every assignment to a
    field of [this] is one of [Q], whatever the calls answer. *)
Inductive only {S A} (P : op -> Prop) (Q : (S -> S) -> Prop) : prog S A -> Prop :=
| only_Ret a : only P Q (Ret a)
| only_Throw e : only P Q (Throw e)
| only_Call o k : P o -> (forall r, only P Q (k r)) -> only P Q (Call o k)
| only_Notify n k : only P Q k -> only P Q (Notify n k)
| only_Get k : (forall s, only P Q (k s)) -> only P Q (Get k)
| only_Modify f k : Q f -> only P Q k -> only P Q (Modify f k).

(* ================================================================== *)
(** * The event loop: handlers that overlap *)
(* ================================================================== *)

Module Loop.

(** What the user and the host can call: the commands, the ribbon icon, the
    vault event [create] and the interval of one minute registered in
    [onload]. *)
Inductive trigger : Type :=
| Manual          (* ribbon icon, command "Sincronizar agora" *)
| VaultCreate     (* vault event [create] *)
| Interval        (* [setInterval], every minute *)
| PullCommand
| PushCommand
| ResolveCommand.

(** What runs: a handler called from outside, or the callback of the
    timeout set by the vault event [modify]. *)
Inductive handler : Type :=
| OnTrigger (t : trigger)
| OnSaveTimeout (file : TFile).

Definition body (h : handler) : prog MyPlugin unit :=
  match h with
  | OnTrigger Manual => MyPluginMethods.manualSync
  | OnTrigger VaultCreate => MyPluginMethods.onCreate
  | OnTrigger Interval => MyPluginMethods.onInterval
  | OnTrigger PullCommand => MyPluginMethods.commandPull
  | OnTrigger PushCommand => MyPluginMethods.commandPush
  | OnTrigger ResolveCommand => MyPluginMethods.commandResolveConflicts
  | OnSaveTimeout file => MyPluginMethods.onSaveTimeout file
  end.

(** The handlers that run a sync cycle ([performSync]). *)
Definition is_sync (h : handler) : bool :=
  match h with
  | OnTrigger (Manual | VaultCreate | Interval) | OnSaveTimeout _ => true
  | _ => false
  end.

Definition is_on_save (h : handler) : bool :=
  match h with OnSaveTimeout _ => true | _ => false end.

(** A handler that has started and now awaits the call [o]; [k] is the rest
    of it. *)
Inductive task : Type :=
| Waiting (h : handler) (o : op) (k : outcome (resp o) -> prog MyPlugin unit).

Definition task_handler (t : task) : handler :=
  match t with Waiting h _ _ => h end.

(** A pending [setTimeout]: the only one in the plugin is that of the
    [modify] handler, whose callback is [onSaveTimeout file]. *)
Record timer : Type := mkTimer { timer_id : nat; deadline : nat; timer_file : TFile }.

(** The delay of the debounce, line 211. *)
Definition debounce_ms : nat := 2000.

Section WithAdapter.

Context {W : Type} (git : adapter W).

(** The plugin, the repository and the host's queues.  [clock] counts
    milliseconds; [started] lists the handlers in the order in which they
    were started. *)
Record state : Type := mkState {
  plugin : MyPlugin;
  repo : W;
  seen : list event;
  tasks : list task;
  timers : list timer;
  next_id : nat;
  clock : nat;
  started : list handler
}.

(** Run [p] up to the first call it awaits: the calls that are not
    asynchronous are made on the way. *)
Fixpoint advance (p : prog MyPlugin unit) (this : MyPlugin) (w : W)
  : MyPlugin * W * list event * option {o : op & outcome (resp o) -> prog MyPlugin unit} :=
  match p with
  | Ret _ | Throw _ => (this, w, [], None)
  | Call o k =>
      if is_async o then (this, w, [], Some (existT _ o k))
      else
        let (w', r) := git o w in
        let '(this', w'', evs, t) := advance (k r) this w' in
        (this', w'', Called o r :: evs, t)
  | Notify n k =>
      let '(this', w', evs, t) := advance k this w in
      (this', w', Noticed n :: evs, t)
  | Get k => advance (k this) this w
  | Modify f k => advance k (f this) w
  end.

Definition suspended (h : handler)
    (t : option {o : op & outcome (resp o) -> prog MyPlugin unit}) : list task :=
  match t with
  | Some (existT _ o k) => [Waiting h o k]
  | None => []
  end.

(** The host calls the handler [h]. *)
Definition start (h : handler) (st : state) : state :=
  let '(this', w', evs, t) := advance (body h) (plugin st) (repo st) in
  mkState this' w' (seen st ++ evs) (tasks st ++ suspended h t)
          (timers st) (next_id st) (clock st) (started st ++ [h]).

(** The call awaited by the [i]-th task completes, and the task goes on to
    its next [await] or to its end. *)
Definition complete (i : nat) (st : state) : state :=
  match nth_error (tasks st) i with
  | Some (Waiting h o k) =>
      let (w1, r) := git o (repo st) in
      let '(this', w', evs, t) := advance (k r) (plugin st) w1 in
      mkState this' w' (seen st ++ Called o r :: evs)
              (firstn i (tasks st) ++ suspended h t ++ skipn (S i) (tasks st))
              (timers st) (next_id st) (clock st) (started st)
  | None => st
  end.

(** [clearTimeout(id)] *)
Definition clearTimeout (id : nat) (ts : list timer) : list timer :=
  filter (fun t => negb (timer_id t =? id)%nat) ts.

(** The handler of the vault's [modify] event, lines 199-213. *)
Definition onModify (file : TFile) (st : state) : state :=
  let this := plugin st in
  if autoSyncOnSave (settings this) && negb (githubRepoUrl (settings this) =? "")%string
  then
    let timers' :=
      match syncDebounceTimer this with
      | Some id => clearTimeout id (timers st)
      | None => timers st
      end in
    let id := next_id st in
    mkState (set_syncDebounceTimer (Some id) this) (repo st) (seen st) (tasks st)
            (timers' ++ [mkTimer id (clock st + debounce_ms) file])
            (S id) (clock st) (started st)
  else st.

(** The timers that are due are taken off the queue and their callbacks
    started, in the order in which they were set. *)
Definition due (now : nat) (t : timer) : bool := (deadline t <=? now)%nat.

Definition fire (st : state) : state :=
  let ready := filter (due (clock st)) (timers st) in
  let rest := filter (fun t => negb (due (clock st) t)) (timers st) in
  fold_left (fun s t => start (OnSaveTimeout (timer_file t)) s) ready
    (mkState (plugin st) (repo st) (seen st) (tasks st) rest
             (next_id st) (clock st) (started st)).

Definition elapse (ms : nat) (st : state) : state :=
  fire (mkState (plugin st) (repo st) (seen st) (tasks st) (timers st)
                (next_id st) (clock st + ms) (started st)).

(** What happens to the plugin from outside. *)
Inductive input : Type :=
| Trigger (t : trigger)   (* the user or the host calls a handler *)
| Saved (file : TFile)    (* the vault reports a modified file *)
| Elapse (ms : nat)       (* time passes *)
| Complete (i : nat).     (* an awaited call returns *)

Definition step (st : state) (i : input) : state :=
  match i with
  | Trigger t => start (OnTrigger t) st
  | Saved file => onModify file st
  | Elapse ms => elapse ms st
  | Complete n => complete n st
  end.

Definition steps (st : state) (ins : list input) : state := fold_left step ins st.

(** The sync cycles that have started and not ended. *)
Definition active_cycles (st : state) : list task :=
  filter (fun t => is_sync (task_handler t)) (tasks st).

(** The plugin as [onload] leaves it: no [GitManager], no timer, nothing
    running.  The identifiers that [setTimeout] returns are positive. *)
Definition boot (s : MyPluginSettings) (vault : string) (w : W) : state :=
  mkState (mkPlugin s vault None 0 None) w [] [] [] 1 0 [].

End WithAdapter.

(** A burst of saves: each save with the inputs that follow it. *)
Definition burst (saves : list (TFile * list input)) : list input :=
  flat_map (fun p => Saved (fst p) :: snd p) saves.

Arguments state W : clear implicits.

(** The inputs other than a save. *)
Definition quiet (i : input) : Prop :=
  match i with Saved _ => False | _ => True end.

(** The time that passes during a list of inputs. *)
Fixpoint elapsed (ins : list input) : nat :=
  match ins with
  | [] => 0
  | Elapse ms :: ins' => ms + elapsed ins'
  | _ :: ins' => elapsed ins'
  end.

End Loop.

(* ================================================================== *)
(** * A sample repository *)
(* ================================================================== *)

(** A small repository to run the plugin against: whether the directory is
    a repository already, its branch, its changed and conflicted paths, the
    paths that the next pull leaves in conflict, the errors with which the
    fetch and the status query are rejected (if any), and what was committed
    and pushed.  Its pull resolves and leaves the conflicted paths to the
    status query, which is the case that [pull()] provides for at lines
    299-304; staging a path marks it as resolved, and a commit is refused
    while a path is unmerged. *)
Module Sample.

Record repository : Type := mkRepo {
  r_is_repo : bool;
  r_current : option string;
  r_files : list FileStatusResult;
  r_conflicted : list string;
  r_incoming : list string;
  r_fetch_error : option JsError;
  r_status_error : option JsError;
  r_commits : list (list string);
  r_pushes : nat
}.

Definition staged (pathspec : list string) (conflicts : list string) : list string :=
  if existsb (String.eqb ".") pathspec then []
  else filter (fun f => negb (existsb (String.eqb f) pathspec)) conflicts.

Definition unmerged : JsError :=
  mkError "GitError" "Committing is not possible because you have unmerged files.".

Definition git : adapter repository :=
  fun o w =>
    match o as o0 return repository * outcome (resp o0) with
    | GitRevparse _ =>
        if r_is_repo w then (w, Ok ".git")
        else (w, Err (mkError "GitError"
                        "fatal: not a git repository (or any of the parent directories): .git"))
    | GitInit =>
        (mkRepo true (r_current w) (r_files w) (r_conflicted w) (r_incoming w)
                (r_fetch_error w) (r_status_error w) (r_commits w) (r_pushes w), Ok tt)
    | GitGetRemotes _ => (w, Ok [mkRemote "origin"])
    | GitBranchLocal => (w, Ok (mkBranches ["main"]))
    | GitStatus =>
        match r_status_error w with
        | Some e => (w, Err e)
        | None => (w, Ok (mkStatus (r_current w) (r_files w) (r_conflicted w)))
        end
    | GitRaw _ => (w, Err (mkError "GitError" "fatal: Needed a single revision"))
    | GitFetch _ _ =>
        match r_fetch_error w with
        | Some e => (w, Err e)
        | None => (w, Ok tt)
        end
    | GitPull _ _ _ =>
        (mkRepo (r_is_repo w) (r_current w) (r_files w ++ map mkFile (r_incoming w))%list
                (r_conflicted w ++ r_incoming w)%list [] (r_fetch_error w)
                (r_status_error w) (r_commits w) (r_pushes w), Ok tt)
    | GitAdd pathspec =>
        (mkRepo (r_is_repo w) (r_current w) (r_files w) (staged pathspec (r_conflicted w))
                (r_incoming w) (r_fetch_error w) (r_status_error w)
                (r_commits w) (r_pushes w), Ok tt)
    | GitCommit message =>
        match r_conflicted w with
        | [] => (mkRepo (r_is_repo w) (r_current w) [] [] (r_incoming w) (r_fetch_error w)
                        (r_status_error w) (r_commits w ++ [message])%list (r_pushes w),
                 Ok tt)
        | _ :: _ => (w, Err unmerged)
        end
    | GitPush _ _ =>
        (mkRepo (r_is_repo w) (r_current w) (r_files w) (r_conflicted w) (r_incoming w)
                (r_fetch_error w) (r_status_error w) (r_commits w) (S (r_pushes w)),
         Ok tt)
    | FsExistsSync _ => (w, Ok true)
    | PathJoinHome rest => (w, Ok ("/home/user" ++ rest))
    | DateNow => (w, Ok 1793649123000%Z)
    | DateLocaleString => (w, Ok "02/11/2026, 19:52:03")
    | _ => (w, Ok tt)
    end.

(** The same repository behind a vault path that is not a directory:
    [simpleGit] throws, and nothing else is reached. *)
Definition missing_directory : JsError :=
  mkError "GitConstructError" "Cannot use simple-git on a directory that does not exist".

Definition git_without_directory : adapter repository :=
  fun o w =>
    match o as o0 return repository * outcome (resp o0) with
    | SimpleGit _ _ => (w, Err missing_directory)
    | o0 => git o0 w
    end.

(** The same repository in the middle of a merge in which the paths [gone]
    were deleted on our side and changed on theirs: the status lists them as
    conflicted, and [git checkout --ours] has no version of ours to take. *)
Definition no_our_version (f : string) : JsError :=
  mkError "GitError" ("error: path '" ++ f ++ "' does not have our version").

Definition git_deleted_by_us (gone : list string) : adapter repository :=
  fun o w =>
    match o as o0 return repository * outcome (resp o0) with
    | GitCheckout args =>
        match args with
        | [side_; f] =>
            if (side_ =? "--ours")%string && existsb (String.eqb f) gone
            then (w, Err (no_our_version f))
            else git (GitCheckout args) w
        | _ => git (GitCheckout args) w
        end
    | o0 => git o0 w
    end.

(** A clean repository on [main]. *)
Definition clean : repository := mkRepo true (Some "main") [] [] [] None None [] 0.

(** The settings of a user who has filled in the repository and a token. *)
Definition settings : MyPluginSettings :=
  mkSettings "https://github.com/user/notes.git" "main" "Obsidian User"
             "user@example.com" "ghp_token" false "~/.ssh/id_rsa" "" true true
             "[Sync] {date}{files}" 30.

Definition config : GitSyncConfig := MyPluginMethods.config_of settings "/vault".

(** A [GitManager] after a successful [initialize()], and a plugin that
    holds it. *)
Definition manager : GitManager := mkGitManager config true.

Definition plugin : MyPlugin := mkPlugin settings "/vault" (Some manager) 0 None.

(** A plugin that has not created its [GitManager] yet. *)
Definition fresh (s : MyPluginSettings) : MyPlugin := mkPlugin s "/vault" None 0 None.

Definition with_url (url : string) : MyPluginSettings :=
  mkSettings url "main" "Obsidian User" "user@example.com" "ghp_token" false
             "~/.ssh/id_rsa" "" true true "[Sync] {date}{files}" 30.

End Sample.

(* ================================================================== *)
(** * The vocabulary of the statements *)
(* ================================================================== *)

(** The shape of the result of a run made of two parts. *)
Definition prepend {W S A} (evs : list event) (r : ran W S A) : ran W S A :=
  mkRan (fields r) (world r) (evs ++ events r)%list (value r).

Definition and_then {W S A B} (r1 : ran W S A) (k : A -> S -> W -> ran W S B) : ran W S B :=
  match value r1 with
  | Ok a => prepend (events r1) (k a (fields r1) (world r1))
  | Err e => mkRan (fields r1) (world r1) (events r1) (Err e)
  end.

Definition or_else {W S A} (r1 : ran W S A) (k : JsError -> S -> W -> ran W S A) : ran W S A :=
  match value r1 with
  | Ok a => r1
  | Err e => prepend (events r1) (k e (fields r1) (world r1))
  end.

Definition answered {W S} (o : op) (this : S) (a : W * outcome (resp o)) : ran W S (resp o) :=
  mkRan this (fst a) [Called o (snd a)] (snd a).

(** What precedes the fetch in [pull()], seen as one block. *)
Definition pull_before_fetch {W} (git : adapter W) (this : GitManager) (w : W)
  : ran W GitManager (completion unit bool) :=
  and_then (run git GitManagerMethods.pull_initialize this w)
    (fun c this' w' =>
       match c with
       | Return b => mkRan this' w' [] (Ok (Return b))
       | Normal _ =>
           and_then (run git (GitManagerMethods.pull_check_merge (config this')) this' w')
             (fun c this'' w'' =>
                match c with
                | Return b => mkRan this'' w'' [] (Ok (Return b))
                | Normal _ =>
                    and_then (run git (GitManagerMethods.pull_check_remote (config this')) this'' w'')
                      (fun _ this3 w3 => mkRan this3 w3 [] (Ok (Normal tt)))
                end)
       end).

(** The calls made while a repository is set up: none of them fetches,
    merges, stages, commits or pushes. *)
Definition is_setup_op (o : op) : bool :=
  match o with
  | GitRevparse _ | GitInit | GitAddConfig _ _ | GitGetRemotes _
  | GitRemoveRemote _ | GitAddRemote _ _ | GitBranchLocal
  | GitCheckoutLocalBranch _ | GitCheckout _
  | FsExistsSync _ | FsAccessSync _ | PathJoinHome _ => true
  | _ => false
  end.

(** The calls made by [pull()] before it fetches. *)
Definition is_before_fetch_op (o : op) : bool :=
  is_setup_op o || match o with GitStatus | GitRaw _ => true | _ => false end.

(** An assignment that leaves the configuration as it is. *)
Definition keeps_config (f : GitManager -> GitManager) : Prop :=
  forall this, config (f this) = config this.


Definition is_pull (o : op) : bool :=
  match o with GitPull _ _ _ => true | _ => false end.

Definition is_fetch (o : op) : bool :=
  match o with GitFetch _ _ => true | _ => false end.


Definition is_add (o : op) : bool :=
  match o with GitAdd _ => true | _ => false end.

(** The calls that stage, commit or push. *)
Definition records (o : op) : bool := is_add o || is_commit o || is_push o.

(** What a call of a resolution does to the unmerged paths [conflicts w] of
    the repository [w] when it resolves: checking out one side of a path and
    committing add none, and staging a path takes it out.  Nothing is said
    of a call that is rejected. *)
Definition resolving {W} (git : adapter W) (conflicts : W -> list string) : Prop :=
  (forall w w' a, git (GitCheckout a) w = (w', Ok tt) ->
                  incl (conflicts w') (conflicts w))
  /\ (forall w w' f, git (GitAdd [f]) w = (w', Ok tt) ->
                     forall x, In x (conflicts w') -> In x (conflicts w) /\ x <> f)
  /\ (forall w w' m, git (GitCommit m) w = (w', Ok tt) ->
                     incl (conflicts w') (conflicts w)).





(** The URLs of the claim: empty, or with a slash at the end. *)
Definition invalid_url (url : string) : Prop :=
  url = "" \/ endsWith url "/" = true.

(** The notice that [initializeGit] shows for such a URL. *)
Definition invalid_url_notice (url : string) : notice :=
  if (url =? "")%string then N_UrlNotConfigured else N_UrlIncompleteMain.

(** The handlers that call [initializeGit] whatever the settings. *)
Definition always_initializes (h : Loop.handler) : bool :=
  match h with
  | Loop.OnTrigger (Loop.Manual | Loop.PullCommand | Loop.PushCommand | Loop.ResolveCommand)
  | Loop.OnSaveTimeout _ => true
  | _ => false
  end.


(** An assignment that changes neither the settings nor the debounce
    timer. *)
Definition keeps_debounce (f : MyPlugin -> MyPlugin) : Prop :=
  forall this, settings (f this) = settings this
               /\ syncDebounceTimer (f this) = syncDebounceTimer this.

Definition any_op (o : op) : Prop := True.


(** A path or a date in which neither a dollar, which [replace] reads as the
    start of a pattern, nor an opening brace occurs. *)
Definition plain (s : string) : Prop :=
  includes s "$" = false /\ includes s "{" = false.

Definition is_digit (c : ascii) : bool :=
  existsb (Ascii.eqb c) ["0"; "1"; "2"; "3"; "4"; "5"; "6"; "7"; "8"; "9"]%char.


(** ** The debounce, as the loop sees it *)

Module Timing.

Import Loop.

(** A task whose rest changes neither the settings nor the debounce
    timer. *)
Definition task_ok (t : task) : Prop :=
  match t with
  | Waiting _ o k => forall r, only any_op keeps_debounce (k r)
  end.

(** What a handler that starts or goes on leaves as it was: the settings,
    the debounce timer, the pending timeouts and the clock. *)
Definition same_timing {W} (st st' : state W) : Prop :=
  settings (plugin st') = settings (plugin st)
  /\ syncDebounceTimer (plugin st') = syncDebounceTimer (plugin st)
  /\ timers st' = timers st
  /\ next_id st' = next_id st
  /\ clock st' = clock st.

(** The timeout callbacks among the handlers started so far. *)
Definition saves_started {W} (st : state W) : list handler :=
  filter is_on_save (started st).

(** One timeout is pending: that of the last save, due at [d]. *)
Definition pending {W} (st : state W) (d : nat) (f : TFile) : Prop :=
  exists id, timers st = [mkTimer id d f]
             /\ syncDebounceTimer (plugin st) = Some id
             /\ clock st < d.

(** The part of the state that the debounce depends on and that the
    handlers keep: the settings, and tasks that will keep them. *)
Definition settled {W} (st st' : state W) : Prop :=
  settings (plugin st') = settings (plugin st)
  /\ (Forall task_ok (tasks st) -> Forall task_ok (tasks st')).

(** What holds in every state the loop reaches. *)
Definition invariant {W} (st : state W) : Prop :=
  Forall task_ok (tasks st)
  /\ (timers st = [] \/ exists d f, pending st d f).

End Timing.

(* ================================================================== *)
(** * Unloading the plugin *)
(* ================================================================== *)

(** [onunload()], main.ts lines 235-243.  [syncInterval] is assigned nowhere
    and stays [null], so that the pending timeout of the debounce is all that
    is cleared; the handlers that have started are left to go on. *)
Definition onunload {W} (st : Loop.state W) : Loop.state W :=
  match syncDebounceTimer (Loop.plugin st) with
  | Some id =>
      Loop.mkState (Loop.plugin st) (Loop.repo st) (Loop.seen st) (Loop.tasks st)
                   (Loop.clearTimeout id (Loop.timers st))
                   (Loop.next_id st) (Loop.clock st) (Loop.started st)
  | None => st
  end.

(* ================================================================== *)
(** * More vocabulary: notices, calls and the clock *)
(* ================================================================== *)

(** [shows N p]: every notice that [p] can show is one of [N], whatever the
    calls answer. *)
Inductive shows {S A} (N : notice -> Prop) : prog S A -> Prop :=
| shows_Ret a : shows N (Ret a)
| shows_Throw e : shows N (Throw e)
| shows_Call o k : (forall r, shows N (k r)) -> shows N (Call o k)
| shows_Notify n k : N n -> shows N k -> shows N (Notify n k)
| shows_Get k : (forall s, shows N (k s)) -> shows N (Get k)
| shows_Modify f k : shows N k -> shows N (Modify f k).

(** No notice at all, and no assignment at all. *)
Definition no_notice (n : notice) : Prop := False.

Definition no_assignment {S} (f : S -> S) : Prop := False.

(** The calls of [initializeGit]: [simpleGit], and those that set the
    repository up. *)
Definition is_opening_op (o : op) : bool :=
  match o with
  | SimpleGit _ _ => true
  | _ => is_setup_op o
  end.

(** The calls of [setupAuthentication]: the remotes, and the key file. *)
Definition is_auth_op (o : op) : bool :=
  match o with
  | GitGetRemotes _ | GitRemoveRemote _ | GitAddRemote _ _
  | FsExistsSync _ | FsAccessSync _ | PathJoinHome _ => true
  | _ => false
  end.

(** The test of line 162 on the message of a rejected [rev-parse]. *)
Definition not_a_repository (e : JsError) : bool :=
  includes (errorMsgOf e) "not a git repository"
  || includes (errorMsgOf e) "Not a git repository".

(** The clock of the host. *)
Definition is_clock (o : op) : bool :=
  match o with DateNow | DateLocaleString => true | _ => false end.

(** Any assignment. *)
Definition any_assignment {S} (f : S -> S) : Prop := True.

(** What [Date.now()] answered, call by call. *)
Definition now_answer (e : event) : list (outcome Z) :=
  match e with
  | Called o r =>
      match o return outcome (resp o) -> list (outcome Z) with
      | DateNow => fun r => [r]
      | _ => fun _ => []
      end r
  | Noticed _ => []
  end.

Definition now_answers (evs : list event) : list (outcome Z) :=
  flat_map now_answer evs.

(** The paths that [performSync] takes from a status, lines 326-329. *)
Definition paths_of (a : outcome StatusResult) : option (list string) :=
  match a with
  | Ok st => Some (map path (files st))
  | Err _ => None
  end.

(** The calls that bring the remote in. *)
Definition integrates (o : op) : bool := is_fetch o || is_pull o.

(** What the callback of the timeout passes to [performSync], lines 209-210:
    the label, and [file.path || file.name]. *)
Definition save_source (file : TFile) : string := "Auto-sync on save: " ++ file_name file.

Definition filePath_of (file : TFile) : string :=
  if (file_path file =? "")%string then file_name file else file_path file.

(* ================================================================== *)
(** * Facts about runs *)
(* ================================================================== *)

Lemma calls_app (e1 e2 : list event) : calls (e1 ++ e2) = (calls e1 ++ calls e2)%list.
Proof. apply flat_map_app. Qed.

Lemma rejected_app (e1 e2 : list event) :
  rejected (e1 ++ e2) = (rejected e1 ++ rejected e2)%list.
Proof. apply flat_map_app. Qed.


Lemma calls_Called o r (evs : list event) : calls (Called o r :: evs) = o :: calls evs.
Proof. reflexivity. Qed.

Lemma calls_Noticed n (evs : list event) : calls (Noticed n :: evs) = calls evs.
Proof. reflexivity. Qed.

Lemma rejected_Ok o v (evs : list event) : rejected (Called o (Ok v) :: evs) = rejected evs.
Proof. reflexivity. Qed.

Lemma rejected_Err o e (evs : list event) :
  rejected (Called o (Err e) :: evs) = (o, e) :: rejected evs.
Proof. reflexivity. Qed.

Lemma rejected_Noticed n (evs : list event) : rejected (Noticed n :: evs) = rejected evs.
Proof. reflexivity. Qed.

Lemma notices_Called o r (evs : list event) : notices (Called o r :: evs) = notices evs.
Proof. reflexivity. Qed.

Lemma notices_Noticed n (evs : list event) : notices (Noticed n :: evs) = n :: notices evs.
Proof. reflexivity. Qed.


Lemma notices_app (e1 e2 : list event) :
  notices (e1 ++ e2) = (notices e1 ++ notices e2)%list.
Proof. apply flat_map_app. Qed.

Section RunFacts.

Context {W : Type} (git : adapter W).

Lemma run_call {S} (o : op) (this : S) w :
  run git (call o) this w = answered o this (git o w).
Proof. unfold call, answered. simpl. destruct (git o w) as [w' [v|e]]; reflexivity. Qed.

Lemma run_notify {S} (n : notice) (this : S) w :
  run git (notify n) this w = mkRan this w [Noticed n] (Ok tt).
Proof. reflexivity. Qed.

Lemma run_get {S} (this : S) w : run git get this w = mkRan this w [] (Ok this).
Proof. reflexivity. Qed.

Lemma run_modify {S} (f : S -> S) (this : S) w :
  run git (modify f) this w = mkRan (f this) w [] (Ok tt).
Proof. reflexivity. Qed.

Lemma run_Ret {S A} (a : A) (this : S) w : run git (Ret a) this w = mkRan this w [] (Ok a).
Proof. reflexivity. Qed.

Lemma run_Throw {S A} (e : JsError) (this : S) w :
  run git (@Throw S A e) this w = mkRan this w [] (Err e).
Proof. reflexivity. Qed.

Lemma run_bind {S A B} (p : prog S A) (f : A -> prog S B) this w :
  run git (bind p f) this w =
  and_then (run git p this w) (fun a this' w' => run git (f a) this' w').
Proof.
  unfold and_then, prepend.
  revert this w; induction p as [a|e|o k IH|n k IH|k IH|g k IH]; intros this w; simpl.
  - destruct (run git (f a) this w); reflexivity.
  - reflexivity.
  - destruct (git o w) as [w' r]. rewrite IH.
    destruct (run git (k r) this w') as [s1 w1 e1 [a|e]]; reflexivity.
  - rewrite IH. destruct (run git k this w) as [s1 w1 e1 [a|e]]; reflexivity.
  - apply IH.
  - apply IH.
Qed.

Lemma run_try_catch {S A} (p : prog S A) (h : JsError -> prog S A) this w :
  run git (try_catch p h) this w =
  or_else (run git p this w) (fun e this' w' => run git (h e) this' w').
Proof.
  unfold or_else, prepend.
  revert this w; induction p as [a|e|o k IH|n k IH|k IH|g k IH]; intros this w; simpl.
  - reflexivity.
  - destruct (run git (h e) this w); reflexivity.
  - destruct (git o w) as [w' r]. rewrite IH.
    destruct (run git (k r) this w') as [s1 w1 e1 [a|e]]; reflexivity.
  - rewrite IH. destruct (run git k this w) as [s1 w1 e1 [a|e]]; reflexivity.
  - apply IH.
  - apply IH.
Qed.

Lemma run_after {S A R} (p : prog S (completion A R)) (rest : A -> prog S R) this w :
  run git (after p rest) this w =
  and_then (run git p this w)
    (fun c this' w' =>
       match c with
       | Normal a => run git (rest a) this' w'
       | Return r => mkRan this' w' [] (Ok r)
       end).
Proof.
  unfold after. rewrite run_bind. unfold and_then.
  destruct (value (run git p this w)) as [[a|r]|e]; reflexivity.
Qed.

(** The events of a program that makes only the calls of [P] are calls of
    [P]. *)
Lemma only_calls {S A} (P : op -> Prop) (Q : (S -> S) -> Prop) (p : prog S A) :
  only P Q p -> forall this w, Forall P (calls (events (run git p this w))).
Proof.
  induction 1 as [a|e|o k HP _ IH|n k _ IH|k _ IH|g k _ _ IH]; intros this w; simpl.
  - constructor.
  - constructor.
  - destruct (git o w) as [w' r]. simpl. constructor; [exact HP | apply IH].
  - apply IH.
  - apply IH.
  - apply IH.
Qed.

End RunFacts.

(** ** Building [only] along the combinators *)

Section OnlyFacts.

Context {S : Type} (P : op -> Prop) (Q : (S -> S) -> Prop).

Lemma only_bind {A B} (p : prog S A) (f : A -> prog S B) :
  only P Q p -> (forall a, only P Q (f a)) -> only P Q (bind p f).
Proof. induction 1; intros Hf; simpl; try constructor; auto. Qed.

Lemma only_try_catch {A} (p : prog S A) (h : JsError -> prog S A) :
  only P Q p -> (forall e, only P Q (h e)) -> only P Q (try_catch p h).
Proof. induction 1; intros Hh; simpl; try constructor; auto. Qed.

Lemma only_after {A R} (p : prog S (completion A R)) (rest : A -> prog S R) :
  only P Q p -> (forall a, only P Q (rest a)) -> only P Q (after p rest).
Proof.
  intros Hp Hr. unfold after. apply only_bind; [exact Hp|].
  intros [a|r]; [apply Hr | constructor].
Qed.

Lemma only_call (o : op) : P o -> only P Q (@call S o).
Proof. intros HP. unfold call. constructor; [exact HP|]. intros [v|e]; constructor. Qed.

Lemma only_notify (n : notice) : only P Q (@notify S n).
Proof. repeat constructor. Qed.

Lemma only_get : only P Q (@get S).
Proof. repeat constructor. Qed.

Lemma only_modify (f : S -> S) : Q f -> only P Q (modify f).
Proof. intros HQ. unfold modify. repeat constructor. exact HQ. Qed.

Lemma only_forEach {A} (l : list A) (body : A -> prog S unit) :
  (forall x, only P Q (body x)) -> only P Q (forEach l body).
Proof.
  intros Hb. induction l as [|x l IH]; simpl; [constructor|].
  apply only_bind; [apply Hb | intros _; exact IH].
Qed.

End OnlyFacts.

(** A run is computed block by block with these equations. *)
Ltac run_eq :=
  repeat first
    [ rewrite run_bind | rewrite run_try_catch | rewrite run_after
    | rewrite run_call | rewrite run_notify | rewrite run_get
    | rewrite run_modify | rewrite run_Ret | rewrite run_Throw ].

Ltac run_red :=
  cbn [value fields world events observe and_then or_else answered prepend fst snd List.app].

Tactic Notation "run_red" "in" hyp(H) :=
  cbn [value fields world events observe and_then or_else answered prepend fst snd List.app] in H.

Ltac run_go := repeat (run_eq; run_red).

(** The calls, rejections and notices of a list of events given piece by
    piece. *)
Ltac seen :=
  repeat first
    [ rewrite calls_app | rewrite calls_Called | rewrite calls_Noticed
    | rewrite rejected_app | rewrite rejected_Ok | rewrite rejected_Err
    | rewrite rejected_Noticed
    | rewrite notices_app | rewrite notices_Called | rewrite notices_Noticed ].

(** Two results that differ in the grouping of their events. *)
Ltac ran_eq :=
  unfold prepend; run_red; rewrite <- ?app_assoc, ?app_nil_r; cbn [List.app];
  rewrite ?app_nil_r; reflexivity.

(** The tree of a method is walked with these rules. *)
Ltac only_step :=
  match goal with
  | |- only _ _ (newGitManager _) => unfold newGitManager
  | |- only _ _ (bind _ _) => apply only_bind; [|intros ?]
  | |- only _ _ (try_catch _ _) => apply only_try_catch; [|intros ?]
  | |- only _ _ (after _ _) => apply only_after; [|intros ?]
  | |- only _ _ (forEach _ _) => apply only_forEach; intros ?
  | |- only ?P ?Q (call ?o) => apply (only_call P Q o)
  | |- only _ _ (notify _) => apply only_notify
  | |- only _ _ get => apply only_get
  | |- only _ _ (modify _) => apply only_modify
  | |- only _ _ (Ret _) => apply only_Ret
  | |- only _ _ (Throw _) => apply only_Throw
  | |- only _ _ (if ?b then _ else _) => destruct b
  | |- only _ _ (match ?x with _ => _ end) => destruct x
  end.

(* ================================================================== *)
(** * The conflict queries *)
(* ================================================================== *)

Import GitManagerMethods.

Section ConflictQueries.

Context {W : Type} (git : adapter W).

Lemma hasConflicts_run this w :
  run git hasConflicts this w =
  let (w', r) := git GitStatus w in
  mkRan this w' [Called GitStatus r]
        (Ok match r with
            | Ok status => (0 <? List.length (conflicted status))%nat
            | Err _ => false
            end).
Proof.
  unfold hasConflicts. run_go. destruct (git GitStatus w) as [w' [st|e]]; reflexivity.
Qed.

Lemma getConflictedFiles_run this w :
  run git getConflictedFiles this w =
  let (w', r) := git GitStatus w in
  mkRan this w' [Called GitStatus r]
        (Ok match r with
            | Ok status => conflicted status
            | Err _ => []
            end).
Proof.
  unfold getConflictedFiles. run_go. destruct (git GitStatus w) as [w' [st|e]]; reflexivity.
Qed.

(** C10.  When the status query is rejected, [hasConflicts] returns [false]
    and [getConflictedFiles] returns the empty list, without throwing; the
    caller gets what it gets from a repository whose status query succeeds
    and reports no conflicted path. *)
Theorem conflict_queries_hide_failure (this : GitManager) (w w' : W) (e : JsError) :
  git GitStatus w = (w', Err e) ->
  value (run git hasConflicts this w) = Ok false
  /\ value (run git getConflictedFiles this w) = Ok []
  /\ forall w0 w0' st,
       git GitStatus w0 = (w0', Ok st) -> conflicted st = [] ->
       value (run git hasConflicts this w0) = value (run git hasConflicts this w)
       /\ value (run git getConflictedFiles this w0)
          = value (run git getConflictedFiles this w).
Proof.
  intros Hfail.
  assert (Hh : value (run git hasConflicts this w) = Ok false)
    by (rewrite hasConflicts_run, Hfail; reflexivity).
  assert (Hg : value (run git getConflictedFiles this w) = Ok [])
    by (rewrite getConflictedFiles_run, Hfail; reflexivity).
  split; [exact Hh | split; [exact Hg|]].
  intros w0 w0' st Hok Hnone. rewrite Hh, Hg.
  rewrite hasConflicts_run, getConflictedFiles_run, Hok. cbn [value].
  rewrite Hnone. split; reflexivity.
Qed.

(** Neither query ever throws. *)
Lemma conflict_queries_total (this : GitManager) (w : W) :
  (exists b, value (run git hasConflicts this w) = Ok b)
  /\ (exists l, value (run git getConflictedFiles this w) = Ok l).
Proof.
  rewrite hasConflicts_run, getConflictedFiles_run.
  destruct (git GitStatus w) as [w' r]. simpl. split; eexists; reflexivity.
Qed.

End ConflictQueries.

(** A repository whose status query is rejected. *)
Lemma conflict_queries_hide_failure_witness :
  let broken := Sample.mkRepo true (Some "main") [] ["a.md"] [] None
                  (Some (mkError "GitError" "fatal: not a git repository")) [] 0 in
  value (run Sample.git hasConflicts Sample.manager broken) = Ok false
  /\ value (run Sample.git getConflictedFiles Sample.manager broken) = Ok [].
Proof.
  intros broken.
  destruct (conflict_queries_hide_failure Sample.git Sample.manager broken broken
              (mkError "GitError" "fatal: not a git repository") eq_refl)
    as (H1 & H2 & _).
  split; assumption.
Defined.

(* ================================================================== *)
(** * Resolving conflicts *)
(* ================================================================== *)

Section ResolveConflicts.

Context {W : Type} (git : adapter W).

Lemma resolution_calls_not_commit (s : strategy) (l : list string) :
  Forall (fun o => is_commit o = false) (resolution_calls s l).
Proof. induction l as [|f l IH]; cbn; repeat constructor. exact IH. Qed.

(** The loop of lines 476-486: the paths are gone through in order until a
    call is rejected.  When none is, the paths of the list are no longer
    unmerged in a repository in which staging resolves. *)
Lemma resolve_loop (s : strategy) (l : list string) (this : GitManager) (w : W) :
  let r := run git (forEach l (fun file =>
                      call (GitCheckout [side s; file]) ;; call (GitAdd [file]))) this w in
  match value r with
  | Ok _ =>
      rejected (events r) = []
      /\ calls (events r) = resolution_calls s l
      /\ forall conflicts, resolving git conflicts ->
           forall x, In x (conflicts (world r)) -> In x (conflicts w) /\ ~ In x l
  | Err e =>
      exists pre o n,
        events r = (pre ++ [Called o (Err e)])%list
        /\ rejected pre = []
        /\ Forall (fun o => is_commit o = false) (calls pre)
        /\ forall rest, (calls pre ++ [o])%list = firstn n (resolution_calls s l ++ rest)
  end.
Proof.
  revert w. induction l as [|f l IH]; intros w; cbn [forEach].
  - rewrite run_Ret. cbn. repeat split; auto.
  - cbv zeta. rewrite run_bind, run_bind, run_call.
    destruct (git (GitCheckout [side s; f]) w) as [w1 [[]|e]] eqn:Hco; run_red.
    2: { exists [], (GitCheckout [side s; f]), 1. repeat split. constructor. }
    rewrite run_call.
    destruct (git (GitAdd [f]) w1) as [w2 [[]|e]] eqn:Hadd; run_red.
    2: { exists [Called (GitCheckout [side s; f]) (Ok tt)], (GitAdd [f]), 2.
         repeat split. repeat constructor. }
    specialize (IH w2). cbv zeta in IH.
    destruct (run git (forEach l _) this w2) as [s3 w3 e3 [[]|e]];
      cbn [value events world] in *; run_red.
    + destruct IH as (Hrej & Hcalls & Hleft).
      split; [exact Hrej|]. split.
      * cbn [calls flat_map List.app resolution_calls]. f_equal. f_equal. exact Hcalls.
      * intros conflicts (Hc & Ha & Hm) x Hx.
        destruct (Hleft conflicts (conj Hc (conj Ha Hm)) x Hx) as [Hx2 Hnl].
        destruct (Ha _ _ _ Hadd x Hx2) as [Hx1 Hne].
        split; [exact (Hc _ _ _ Hco x Hx1)|].
        intros [Heq|Hin]; [subst; tauto | tauto].
    + destruct IH as (pre & o & n & -> & Hpre & Hnc & Hn).
      exists (Called (GitCheckout [side s; f]) (Ok tt) :: Called (GitAdd [f]) (Ok tt) :: pre),
             o, (S (S n)).
      split; [reflexivity|]. split; [exact Hpre|].
      split; [constructor; [reflexivity|]; constructor; [reflexivity | exact Hnc]|].
      intros rest. cbn [calls flat_map List.app resolution_calls firstn].
      f_equal. f_equal. apply Hn.
Qed.

(** C7, as the code has it.  After a status that reports the conflicted
    paths [cs], [resolveConflicts] checks out the chosen side of each path
    and stages it, in the order of [cs], and then commits with [--no-edit];
    it stops at the first of these calls that is rejected.  When none is
    rejected it returns [true], every path was staged and the commit was
    made, and no path is left unmerged in a repository in which staging
    resolves.  When one is rejected it returns [false], that call is the last
    one, the calls made are the first ones of the same list, and none before
    it is a commit.  When the status reports no conflicted path, the method
    returns [true] after the status query alone: nothing is checked out,
    staged or committed. *)
Theorem resolveConflicts_completes_merge
    (s : strategy) (this : GitManager) (w w1 : W) (st : StatusResult) :
  git GitStatus w = (w1, Ok st) ->
  let r := run git (resolveConflicts s) this w in
  let steps := (resolution_calls s (conflicted st) ++ [GitCommit ["--no-edit"]])%list in
  (conflicted st = [] ->
   value r = Ok true /\ world r = w1 /\ events r = [Called GitStatus (Ok st)])
  /\ (conflicted st <> [] ->
      (rejected (events r) = [] ->
       value r = Ok true
       /\ calls (events r) = GitStatus :: steps
       /\ forall conflicts,
            resolving git conflicts -> incl (conflicts w1) (conflicted st) ->
            conflicts (world r) = [])
      /\ (rejected (events r) <> [] ->
          value r = Ok false
          /\ exists pre o e n,
               events r = (Called GitStatus (Ok st) :: pre ++ [Called o (Err e)])%list
               /\ rejected pre = []
               /\ Forall (fun o => is_commit o = false) (calls pre)
               /\ (calls pre ++ [o])%list = firstn n steps)).
Proof.
  intros Hst r steps. subst r steps.
  unfold resolveConflicts.
  rewrite run_try_catch, run_bind, getConflictedFiles_run, Hst. run_red.
  destruct (conflicted st) as [|c cs] eqn:Hcs.
  - cbn. split; [repeat split | congruence].
  - split; [discriminate|]. intros _.
    change (Datatypes.length (c :: cs) =? 0)%nat with false. cbv iota.
    rewrite run_bind.
    pose proof (resolve_loop s (c :: cs) this w1) as Hloop. cbv zeta in Hloop.
    destruct (run git (forEach (c :: cs) _) this w1) as [s2 w2 e2 [[]|e]];
      cbn [value events world] in Hloop; run_red.
    + destruct Hloop as (Hrej & Hcalls & Hleft).
      rewrite run_bind, run_call.
      destruct (git (GitCommit ["--no-edit"]) w2) as [w3 [[]|e]] eqn:Hcommit; run_go.
      * split; [|rewrite ?app_nil_r, rejected_Ok, rejected_app, Hrej;
                  intros H; destruct H; reflexivity].
        intros _. split; [reflexivity|]. split.
        -- rewrite calls_Called, calls_app, Hcalls. reflexivity.
        -- intros conflicts Hres Hsub.
           destruct (conflicts w3) as [|x xs] eqn:Hx; [reflexivity|]. exfalso.
           assert (Hx3 : In x (conflicts w3)) by (rewrite Hx; left; reflexivity).
           destruct Hres as (Hc & Ha & Hm).
           apply (Hm _ _ _ Hcommit) in Hx3.
           destruct (Hleft conflicts (conj Hc (conj Ha Hm)) x Hx3) as [Hx1 Hnl].
           apply Hnl, Hsub, Hx1.
      * split.
        { rewrite ?app_nil_r, rejected_Ok, rejected_app, Hrej. cbn. discriminate. }
        intros _. split; [reflexivity|].
        exists e2, (GitCommit ["--no-edit"]), e, (List.length (calls e2) + 1).
        split; [rewrite ?app_nil_r; reflexivity|]. split; [exact Hrej|].
        split; [rewrite Hcalls; apply resolution_calls_not_commit|].
        rewrite Hcalls. rewrite <- (length_app _ [GitCommit ["--no-edit"]]).
        rewrite firstn_all. reflexivity.
    + destruct Hloop as (pre & o & n & -> & Hpre & Hnc & Hn). run_go.
      split.
      { rewrite ?app_nil_r, rejected_Ok, rejected_app, Hpre. cbn. discriminate. }
      intros _. split; [reflexivity|].
      exists pre, o, e, n.
      split; [rewrite ?app_nil_r; reflexivity|]. split; [exact Hpre|].
      split; [exact Hnc | apply Hn].
Qed.

End ResolveConflicts.

(** The sample repository is one in which staging resolves, with its
    conflicted paths as the unmerged ones. *)
Lemma sample_resolving : resolving Sample.git Sample.r_conflicted.
Proof.
  split; [|split].
  - intros w w' a H. cbn in H. inversion H. apply incl_refl.
  - intros w w' f H x. cbn in H. inversion H. cbn [Sample.r_conflicted].
    unfold Sample.staged. cbn [existsb].
    destruct ("." =? f)%string; cbn [orb]; [intros []|].
    rewrite filter_In. intros [Hin Hne]. split; [exact Hin|].
    intros ->. rewrite String.eqb_refl in Hne. discriminate.
  - intros w w' m H. cbn in H.
    destruct (Sample.r_conflicted w) eqn:Hc; inversion H.
    cbn. intros x [].
Qed.

(** Two conflicted files, kept in their local version. *)
Lemma resolveConflicts_completes_merge_witness :
  let st := mkStatus (Some "main") [mkFile "A.md"; mkFile "B.md"] ["A.md"; "B.md"] in
  let w := Sample.mkRepo true (Some "main") [mkFile "A.md"; mkFile "B.md"]
                         ["A.md"; "B.md"] [] None None [] 0 in
  let r := run Sample.git (resolveConflicts ours) Sample.manager w in
  Sample.git GitStatus w = (w, Ok st)
  /\ rejected (events r) = []
  /\ value r = Ok true
  /\ calls (events r)
     = [GitStatus; GitCheckout ["--ours"; "A.md"]; GitAdd ["A.md"];
        GitCheckout ["--ours"; "B.md"]; GitAdd ["B.md"]; GitCommit ["--no-edit"]]
  /\ Sample.r_conflicted (world r) = []
  /\ Sample.r_commits (world r) = [["--no-edit"]].
Proof.
  intros st w r.
  destruct (resolveConflicts_completes_merge Sample.git ours Sample.manager w w st eq_refl)
    as (_ & Hsome).
  destruct (Hsome ltac:(discriminate)) as [Hok _].
  destruct (Hok eq_refl) as (Hv & Hcalls & Hnone).
  split; [reflexivity|]. split; [reflexivity|]. split; [exact Hv|].
  split; [exact Hcalls|].
  split; [exact (Hnone Sample.r_conflicted sample_resolving (fun x H => H)) | reflexivity].
Defined.

(** The claim as it is written fails when a call of the resolution is
    rejected.  [A.md] and [B.md] are in conflict and [A.md] was deleted on
    our side: [git checkout --ours A.md] is refused, [resolveConflicts]
    returns [false] after that call, both paths are still in conflict and
    nothing was committed. *)
Lemma resolveConflicts_stops_on_deleted_path :
  let w := Sample.mkRepo true (Some "main") [mkFile "A.md"; mkFile "B.md"]
                         ["A.md"; "B.md"] [] None None [] 0 in
  let r := run (Sample.git_deleted_by_us ["A.md"]) (resolveConflicts ours)
               Sample.manager w in
  value r = Ok false
  /\ events r = [Called GitStatus (Ok (mkStatus (Some "main")
                                         [mkFile "A.md"; mkFile "B.md"]
                                         ["A.md"; "B.md"]));
                 Called (GitCheckout ["--ours"; "A.md"])
                        (Err (Sample.no_our_version "A.md"))]
  /\ Sample.r_conflicted (world r) = ["A.md"; "B.md"]
  /\ Sample.r_commits (world r) = [].
Proof. vm_compute. repeat split. Qed.

(* ================================================================== *)
(** * What each block of the [GitManager] calls *)
(* ================================================================== *)

Lemma validateSSHKey_only :
  only (fun o => is_setup_op o = true) keeps_config validateSSHKey.
Proof. unfold validateSSHKey. repeat only_step; reflexivity. Qed.

Lemma setupAuthentication_only :
  only (fun o => is_setup_op o = true) keeps_config setupAuthentication.
Proof.
  unfold setupAuthentication.
  repeat first [ apply validateSSHKey_only | only_step ]; reflexivity.
Qed.

Lemma initialize_only :
  only (fun o => is_setup_op o = true) keeps_config initialize.
Proof.
  unfold initialize.
  repeat first [ apply setupAuthentication_only | only_step ];
    first [ reflexivity | intros this; reflexivity ].
Qed.

Lemma only_weaken {S A} (P P' : op -> Prop) (Q Q' : (S -> S) -> Prop) (p : prog S A) :
  (forall o, P o -> P' o) -> (forall f, Q f -> Q' f) -> only P Q p -> only P' Q' p.
Proof. intros HP HQ. induction 1; constructor; auto. Qed.

Lemma setup_before_fetch o : is_setup_op o = true -> is_before_fetch_op o = true.
Proof. unfold is_before_fetch_op. intros ->. reflexivity. Qed.

Lemma pull_initialize_only :
  only (fun o => is_setup_op o = true) keeps_config pull_initialize.
Proof.
  unfold pull_initialize.
  repeat first [ apply initialize_only | only_step ]; reflexivity.
Qed.

Lemma pull_check_merge_only cfg :
  only (fun o => is_before_fetch_op o = true) keeps_config (pull_check_merge cfg).
Proof. unfold pull_check_merge. repeat only_step; reflexivity. Qed.

Lemma pull_check_remote_only cfg :
  only (fun o => is_setup_op o = true) keeps_config (pull_check_remote cfg).
Proof.
  unfold pull_check_remote.
  repeat first [ apply setupAuthentication_only | only_step ]; reflexivity.
Qed.

(** ** From the calls of a program to its events *)

Lemma rejected_calls (P : op -> Prop) (evs : list event) :
  Forall P (calls evs) -> forall o e, In (o, e) (rejected evs) -> P o.
Proof.
  induction evs as [|[o r|n] evs IH]; cbn; intros HF o' e'.
  - intros [].
  - inversion HF as [|? ? HP HF']; subst.
    destruct r as [v|e]; cbn.
    + apply (IH HF').
    + intros [Heq|Hin]; [inversion Heq; subst; exact HP | apply (IH HF' _ _ Hin)].
  - apply (IH HF).
Qed.


Section Frames.

Context {W : Type} (git : adapter W).

(** A program whose assignments keep the configuration ends with the
    configuration it started with. *)
Lemma only_keeps_config {A} (P : op -> Prop) (p : prog GitManager A) :
  only P keeps_config p ->
  forall this w, config (fields (run git p this w)) = config this.
Proof.
  induction 1 as [a|e|o k _ _ IH|n k _ IH|k _ IH|g k Hg _ IH]; intros this w; simpl.
  - reflexivity.
  - reflexivity.
  - destruct (git o w) as [w' r]. apply IH.
  - apply IH.
  - apply IH.
  - rewrite IH. apply Hg.
Qed.

End Frames.

(* ================================================================== *)
(** * The fetch and the pull *)
(* ================================================================== *)

Lemma before_fetch_not_pull (evs : list event) :
  Forall (fun o => is_before_fetch_op o = true) (calls evs) ->
  Forall (fun o => is_pull o = false) (calls evs).
Proof.
  apply Forall_impl. intros o. destruct o; cbn; congruence.
Qed.

Section Pulling.

Context {W : Type} (git : adapter W).

Lemma pull_run (this : GitManager) (w : W) :
  run git pull this w =
  or_else
    (and_then (pull_before_fetch git this w)
       (fun c this' w' =>
          match c with
          | Return b => mkRan this' w' [] (Ok b)
          | Normal _ =>
              run git (after (pull_fetch (config this)) (fun _ => pull_merge (config this)))
                  this' w'
          end))
    (fun e this' w' => run git (pull_failed e) this' w').
Proof.
  unfold pull, pull_before_fetch.
  rewrite run_try_catch. f_equal.
  rewrite run_after.
  pose proof (only_keeps_config git _ _ pull_initialize_only this w) as Hc1.
  destruct (run git pull_initialize this w) as [s1 w1 e1 [[[]|b]|e]]; run_red;
    try ran_eq.
  cbn [fields] in Hc1.
  rewrite run_bind, run_get. run_red. rewrite run_after.
  destruct (run git (pull_check_merge (config s1)) s1 w1) as [s2 w2 e2 [[[]|b]|e]];
    run_red; try ran_eq.
  rewrite run_bind.
  destruct (run git (pull_check_remote (config s1)) s2 w2) as [s3 w3 e3 [[]|e]];
    run_red; try ran_eq.
  rewrite Hc1.
  destruct (run git (after (pull_fetch (config this)) _) s3 w3) as [s4 w4 e4 v4].
  ran_eq.
Qed.

Lemma pull_before_fetch_calls (this : GitManager) (w : W) :
  Forall (fun o => is_before_fetch_op o = true)
         (calls (events (pull_before_fetch git this w))).
Proof.
  unfold pull_before_fetch.
  pose proof (only_calls git _ _ _ pull_initialize_only this w) as H1.
  destruct (run git pull_initialize this w) as [s1 w1 e1 [[[]|b]|e]]; run_red;
    cbn [events] in H1;
    try (rewrite ?app_nil_r; revert H1; apply Forall_impl; exact setup_before_fetch).
  pose proof (only_calls git _ _ _ (pull_check_merge_only (config s1)) s1 w1) as H2.
  destruct (run git (pull_check_merge (config s1)) s1 w1) as [s2 w2 e2 [[[]|b]|e]];
    run_red; cbn [events] in H2; rewrite ?app_nil_r, ?calls_app;
    try (apply Forall_app; split;
         [revert H1; apply Forall_impl; exact setup_before_fetch | exact H2]).
  pose proof (only_calls git _ _ _ (pull_check_remote_only (config s1)) s2 w2) as H3.
  destruct (run git (pull_check_remote (config s1)) s2 w2) as [s3 w3 e3 [[]|e]];
    run_red; cbn [events] in H3; rewrite ?app_nil_r, ?calls_app;
    repeat (apply Forall_app; split);
    solve [ exact H2 | revert H1; apply Forall_impl; exact setup_before_fetch
          | revert H3; apply Forall_impl; exact setup_before_fetch ].
Qed.

Lemma pull_failed_run (e : JsError) (this : GitManager) (w : W) :
  exists n, run git (pull_failed e) this w = mkRan this w [Noticed n] (Ok false).
Proof.
  unfold pull_failed. rewrite run_bind.
  repeat match goal with
         | |- context [if ?b then _ else _] => destruct b
         end;
    rewrite run_notify; run_red; rewrite run_Ret; eexists; reflexivity.
Qed.

(** The merge of lines 296-306: a pull without rebase, then the status. *)
Lemma pull_merge_events (cfg : GitSyncConfig) (this : GitManager) (w : W) :
  exists a post,
    events (run git (pull_merge cfg) this w)
    = Called (GitPull "origin" (branch cfg) ["--no-rebase"]) a :: post
    /\ Forall (fun o => o = GitStatus) (calls post).
Proof.
  unfold pull_merge. run_go.
  destruct (git (GitPull "origin" (branch cfg) ["--no-rebase"]) w) as [w1 [[]|e]]; run_go.
  - destruct (git GitStatus w1) as [w2 [st|e]]; run_go.
    + destruct (0 <? Datatypes.length (conflicted st))%nat; run_go;
        eexists; eexists; (split; [reflexivity|]); repeat constructor.
    + eexists; eexists; (split; [reflexivity|]); repeat constructor.
  - eexists; eexists; (split; [reflexivity|]); repeat constructor.
Qed.

(** The fetch of lines 283-293 followed by the merge. *)
Lemma pull_fetch_run (cfg : GitSyncConfig) (this : GitManager) (w : W) :
  run git (after (pull_fetch cfg) (fun _ => pull_merge cfg)) this w =
  let a := git (GitFetch "origin" (branch cfg)) w in
  match snd a with
  | Ok _ => prepend [Called (GitFetch "origin" (branch cfg)) (snd a)]
                    (run git (pull_merge cfg) this (fst a))
  | Err e =>
      if ref_not_found (errorMsgOf e)
      then mkRan this (fst a)
                 [Called (GitFetch "origin" (branch cfg)) (snd a);
                  Noticed (N_RemoteBranchNotFound (branch cfg))]
                 (Ok false)
      else prepend [Called (GitFetch "origin" (branch cfg)) (snd a)]
                   (run git (pull_merge cfg) this (fst a))
  end.
Proof.
  rewrite run_after. unfold pull_fetch. run_go.
  destruct (git (GitFetch "origin" (branch cfg)) w) as [w1 [[]|e]]; run_go.
  - ran_eq.
  - destruct (ref_not_found (errorMsgOf e)); run_go; ran_eq.
Qed.

Lemma not_fetch_rejected (evs : list event) (rem b : string) (e : JsError) :
  Forall (fun o => is_fetch o = false) (calls evs) ->
  ~ In (GitFetch rem b, e) (rejected evs).
Proof. intros HF Hin. apply (rejected_calls _ _ HF) in Hin. discriminate. Qed.

Lemma the_rejected_fetch (e1 rest : list event) (rem0 b0 rem b : string) (ef e : JsError) :
  Forall (fun o => is_fetch o = false) (calls e1) ->
  Forall (fun o => is_fetch o = false) (calls rest) ->
  In (GitFetch rem b, e)
     (rejected (e1 ++ Called (GitFetch rem0 b0) (Err ef) :: rest)) ->
  rem = rem0 /\ b = b0 /\ e = ef.
Proof.
  intros H1 H2 Hin. rewrite rejected_app in Hin. apply in_app_or in Hin.
  destruct Hin as [Hin|Hin]; [destruct (not_fetch_rejected _ _ _ _ H1 Hin)|].
  cbn [rejected flat_map List.app] in Hin. destruct Hin as [Hin|Hin].
  - inversion Hin. auto.
  - destruct (not_fetch_rejected _ _ _ _ H2 Hin).
Qed.

Lemma before_fetch_not_fetch (evs : list event) :
  Forall (fun o => is_before_fetch_op o = true) (calls evs) ->
  Forall (fun o => is_fetch o = false) (calls evs).
Proof. apply Forall_impl. intros o. destruct o; cbn; congruence. Qed.

Lemma status_not_fetch (evs : list event) :
  Forall (fun o => o = GitStatus) (calls evs) ->
  Forall (fun o => is_fetch o = false) (calls evs).
Proof. apply Forall_impl. intros o ->. reflexivity. Qed.

(** C4, as the code has it.  When the fetch of [pull()] is rejected with a
    message that contains "couldn't find remote ref" or "doesn't exist", the
    method shows a notice and returns [false] without pulling.  When the
    fetch is rejected with any other error, the next call is the pull, with
    [--no-rebase]. *)
Theorem pull_after_failed_fetch
    (this : GitManager) (w : W) (rem b : string) (e : JsError) :
  let r := run git pull this w in
  In (GitFetch rem b, e) (rejected (events r)) ->
  if ref_not_found (errorMsgOf e)
  then value r = Ok false
       /\ In (N_RemoteBranchNotFound (branch (config this))) (notices (events r))
       /\ Forall (fun o => is_pull o = false) (calls (events r))
  else exists pre a post,
         events r
         = (pre ++ Called (GitFetch rem b) (Err e)
                :: Called (GitPull "origin" (branch (config this)) ["--no-rebase"]) a
                :: post)%list.
Proof.
  intros r Hin. subst r. rewrite pull_run in *.
  pose proof (before_fetch_not_fetch _ (pull_before_fetch_calls this w)) as HB.
  pose proof (before_fetch_not_pull _ (pull_before_fetch_calls this w)) as HP.
  destruct (pull_before_fetch git this w) as [s1 w1 e1 [[[]|b0]|e0]];
    cbn [events] in HB, HP.
  - (* the fetch is reached *)
    run_red. run_red in Hin. rewrite pull_fetch_run in *.
    destruct (git (GitFetch "origin" (branch (config this))) w1) as [w2 [[]|ef]];
      cbn [fst snd] in *.
    + (* the fetch succeeds *)
      exfalso.
      destruct (pull_merge_events (config this) s1 w2) as (a & post & Hev & Hpost).
      apply status_not_fetch in Hpost.
      assert (Hrest : forall n,
                 Forall (fun o => is_fetch o = false)
                   (calls (Called (GitPull "origin" (branch (config this))
                                     ["--no-rebase"]) a :: post ++ n))
                 <-> Forall (fun o => is_fetch o = false) (calls n)).
      { intros n. change (calls (Called ?o a :: post ++ n)) with (o :: calls (post ++ n)).
        rewrite calls_app. split.
        - intros H. inversion H; subst. apply Forall_app in H3. tauto.
        - intros H. constructor; [reflexivity|]. apply Forall_app. tauto. }
      destruct (run git (pull_merge (config this)) s1 w2) as [s3 w3 e3 [b3|e3']];
        cbn [events] in Hev; subst e3; run_red in Hin.
      * rewrite rejected_app in Hin. apply in_app_or in Hin.
        destruct Hin as [Hin|Hin]; [exact (not_fetch_rejected _ _ _ _ HB Hin)|].
        refine (not_fetch_rejected (Called _ a :: post ++ []) _ _ _ _ _).
        -- apply Hrest. constructor.
        -- rewrite app_nil_r. exact Hin.
      * destruct (pull_failed_run e3' s3 w3) as [n Hn]. rewrite Hn in Hin.
        run_red in Hin. rewrite <- app_assoc in Hin.
        rewrite rejected_app in Hin. apply in_app_or in Hin.
        destruct Hin as [Hin|Hin]; [exact (not_fetch_rejected _ _ _ _ HB Hin)|].
        refine (not_fetch_rejected (Called _ a :: post ++ [Noticed n]) _ _ _ _ _).
        -- apply Hrest. constructor.
        -- exact Hin.
    + (* the fetch is rejected *)
      destruct (ref_not_found (errorMsgOf ef)) eqn:Hrnf.
      * run_red. run_red in Hin.
        destruct (the_rejected_fetch
                    e1 [Noticed (N_RemoteBranchNotFound (branch (config this)))]
                    _ _ _ _ _ _ HB (Forall_nil _) Hin) as (-> & -> & ->).
        rewrite Hrnf.
        split; [reflexivity|]. split.
        -- rewrite notices_app. apply in_or_app. right. left. reflexivity.
        -- rewrite calls_app. apply Forall_app. split; [exact HP|].
           repeat constructor.
      * destruct (pull_merge_events (config this) s1 w2) as (a & post & Hev & Hpost).
        apply status_not_fetch in Hpost.
        destruct (run git (pull_merge (config this)) s1 w2) as [s3 w3 e3 [b3|e3']];
          cbn [events] in Hev; subst e3; run_red; run_red in Hin.
        -- assert (Hrest : Forall (fun o => is_fetch o = false)
                             (calls (Called (GitPull "origin" (branch (config this))
                                               ["--no-rebase"]) a :: post)))
             by (constructor; [reflexivity | exact Hpost]).
           destruct (the_rejected_fetch _ _ _ _ _ _ _ _ HB Hrest Hin)
             as (-> & -> & ->).
           rewrite Hrnf. exists e1, a, post. reflexivity.
        -- destruct (pull_failed_run e3' s3 w3) as [n Hn]. rewrite Hn in *.
           run_red. run_red in Hin.
           rewrite <- app_assoc in Hin. cbn [List.app] in Hin.
           assert (Hrest : Forall (fun o => is_fetch o = false)
                             (calls (Called (GitPull "origin" (branch (config this))
                                               ["--no-rebase"]) a
                                       :: post ++ [Noticed n]))).
           { cbn [calls flat_map List.app].
             constructor; [reflexivity|].
             change (Forall (fun o => is_fetch o = false) (calls (post ++ [Noticed n]))).
             rewrite calls_app. apply Forall_app. split; [exact Hpost | constructor]. }
           destruct (the_rejected_fetch _ _ _ _ _ _ _ _ HB Hrest Hin) as (-> & -> & ->).
           rewrite Hrnf.
           exists e1, a, (post ++ [Noticed n])%list.
           rewrite <- !app_assoc. reflexivity.
  - (* the method returned before the fetch *)
    exfalso. run_red in Hin. revert Hin. apply not_fetch_rejected.
    rewrite app_nil_r. exact HB.
  - (* an error was thrown before the fetch *)
    exfalso. run_red in Hin.
    destruct (pull_failed_run e0 s1 w1) as [n Hn]. rewrite Hn in Hin. run_red in Hin.
    revert Hin. apply not_fetch_rejected.
    rewrite calls_app. apply Forall_app. split; [exact HB | constructor].
Qed.

End Pulling.

(** The remote has no branch [main] yet: the fetch is rejected with git's
    "couldn't find remote ref", and [pull()] gives up before pulling. *)
Lemma pull_ref_not_found_not_tolerated :
  let err := mkError "GitError" "fatal: couldn't find remote ref main" in
  let w := Sample.mkRepo true (Some "main") [] [] [] (Some err) None [] 0 in
  let r := run Sample.git pull Sample.manager w in
  rejected (events r) = [(GitFetch "origin" "main", err)]
  /\ value r = Ok false
  /\ calls (events r) = [GitStatus; GitGetRemotes true; GitFetch "origin" "main"]
  /\ notices (events r) = [N_RemoteBranchNotFound "main"].
Proof. vm_compute. repeat split. Qed.

(** The remote cannot be reached: the fetch is rejected, and the pull is
    made all the same. *)
Lemma pull_after_failed_fetch_witness :
  let err := mkError "GitError" "fatal: unable to access: Could not resolve host" in
  let w := Sample.mkRepo true (Some "main") [] [] [] (Some err) None [] 0 in
  let r := run Sample.git pull Sample.manager w in
  In (GitFetch "origin" "main", err) (rejected (events r))
  /\ exists pre a post,
       events r = (pre ++ Called (GitFetch "origin" "main") (Err err)
                       :: Called (GitPull "origin" "main" ["--no-rebase"]) a
                       :: post)%list.
Proof.
  intros err w r.
  assert (Hin : In (GitFetch "origin" "main", err) (rejected (events r)))
    by (vm_compute; left; reflexivity).
  split; [exact Hin|].
  exact (pull_after_failed_fetch Sample.git Sample.manager w "origin" "main" err Hin).
Defined.

(* ================================================================== *)
(** * Commit and push *)
(* ================================================================== *)

Lemma setup_records o : is_setup_op o = true -> records o = false.
Proof. destruct o; cbn; congruence. Qed.


Lemma pull_only :
  only (fun o => records o = false) keeps_config pull.
Proof.
  assert (Hs : forall A (p : prog GitManager A),
             only (fun o => is_setup_op o = true) keeps_config p ->
             only (fun o => records o = false) keeps_config p).
  { intros A p. apply only_weaken; [exact setup_records | auto]. }
  unfold pull, pull_check_merge, pull_fetch, pull_merge, pull_failed.
  repeat first [ apply Hs; apply pull_initialize_only
               | apply Hs; apply pull_check_remote_only
               | only_step ]; reflexivity.
Qed.

Section CommitAndPush.

Context {W : Type} (git : adapter W).

Lemma initialize_total (this : GitManager) (w : W) :
  exists b, value (run git initialize this w) = Ok b.
Proof.
  unfold initialize. rewrite run_try_catch. unfold or_else.
  destruct (run git (after _ _) this w) as [s1 w1 e1 [b|e]]; run_red.
  - eexists; reflexivity.
  - run_go. eexists; reflexivity.
Qed.

Lemma pull_total (this : GitManager) (w : W) :
  exists b, value (run git pull this w) = Ok b.
Proof.
  unfold pull. rewrite run_try_catch. unfold or_else.
  destruct (run git (after _ _) this w) as [s1 w1 e1 [b|e]]; run_red.
  - eexists; reflexivity.
  - destruct (pull_failed_run git e s1 w1) as [n Hn]. rewrite Hn. cbn.
    eexists; reflexivity.
Qed.

(** The first lines of [commitAndPush], 331-333: the calls are those of
    [initialize()], and nothing is thrown. *)
Lemma commit_initialize_run (this : GitManager) (w : W) :
  let r := run git (if negb (isInitialized this) then (initialize ;; Ret tt) else Ret tt)
               this w in
  value r = Ok tt
  /\ Forall (fun o => is_setup_op o = true) (calls (events r))
  /\ config (fields r) = config this.
Proof.
  destruct (isInitialized this); cbn [negb].
  - rewrite run_Ret. cbn. repeat split. constructor.
  - rewrite run_bind.
    pose proof (only_calls git _ _ _ initialize_only this w) as Hc.
    pose proof (only_keeps_config git _ _ initialize_only this w) as Hk.
    destruct (initialize_total this w) as [b Hb].
    destruct (run git initialize this w) as [s1 w1 e1 v1]. cbn [value events fields] in *.
    subst v1. run_go. rewrite app_nil_r. repeat split; assumption.
Qed.

Lemma commitAndPush_run (message : string) (files_ : option (list string))
    (this : GitManager) (w : W) :
  run git (commitAndPush message files_) this w =
  or_else
    (and_then
       (run git (if negb (isInitialized this) then (initialize ;; Ret tt) else Ret tt)
            this w)
       (fun _ this1 w1 =>
          and_then (answered GitStatus this1 (git GitStatus w1))
            (fun status this2 w2 =>
               run git (commit_after_status message files_ this1 status) this2 w2)))
    (fun _ this' w' => mkRan this' w' [] (Ok false)).
Proof.
  unfold commitAndPush. rewrite run_try_catch. f_equal.
  rewrite run_bind, run_get. run_red. rewrite run_bind.
  destruct (run git (if negb (isInitialized this) then _ else _) this w)
    as [s1 w1 e1 [[]|e]]; run_red; [|reflexivity].
  rewrite run_bind, run_get. run_red. rewrite run_bind, run_call.
  reflexivity.
Qed.





End CommitAndPush.


(* ================================================================== *)
(** * What [commitAndPush] stages *)
(* ================================================================== *)



Section Staging.

Context {W : Type} (git : adapter W).








End Staging.


(* ================================================================== *)
(** * A cycle whose pull leaves conflicts *)
(* ================================================================== *)

(** Two ways for a pull to end in conflict are told apart by the code.  A
    [git pull] that is rejected is caught in [pull()], which returns [false],
    and the cycle stops.  A [git pull] that resolves and leaves conflicted
    paths, the case of lines 299-304, makes [pull()] return [true]. *)

Section RejectedPull.

Context {W : Type} (git : adapter W).

Lemma not_pull_rejected (evs : list event) (rem b : string) (opts : list string)
    (e : JsError) :
  Forall (fun o => is_pull o = false) (calls evs) ->
  ~ In (GitPull rem b opts, e) (rejected evs).
Proof. intros HF Hin. apply (rejected_calls _ _ HF) in Hin. discriminate. Qed.

(** When the merge of lines 296-306 returns, its pull was not rejected. *)
Lemma pull_merge_returns (cfg : GitSyncConfig) (this : GitManager) (w : W) (b0 : bool) :
  value (run git (pull_merge cfg) this w) = Ok b0 ->
  Forall (fun p => is_pull (fst p) = false)
         (rejected (events (run git (pull_merge cfg) this w))).
Proof.
  unfold pull_merge. run_go.
  destruct (git (GitPull "origin" (branch cfg) ["--no-rebase"]) w) as [w1 [[]|e]]; run_go;
    [|discriminate].
  destruct (git GitStatus w1) as [w2 [st|e]]; run_go; [|discriminate].
  destruct (0 <? Datatypes.length (conflicted st))%nat; run_go; intros _; constructor.
Qed.

(** A rejected [git pull] is caught at line 307: [pull()] returns [false]. *)
Lemma pull_rejected (this : GitManager) (w : W) (rem b : string) (opts : list string)
    (e : JsError) :
  In (GitPull rem b opts, e) (rejected (events (run git pull this w))) ->
  value (run git pull this w) = Ok false.
Proof.
  rewrite pull_run.
  pose proof (before_fetch_not_pull _ (pull_before_fetch_calls git this w)) as HP.
  destruct (pull_before_fetch git this w) as [s1 w1 e1 [[[]|b0]|e0]]; cbn [events] in HP.
  - run_red. rewrite pull_fetch_run.
    assert (Hmerge :
      forall w2 a,
        let r := or_else (prepend e1 (prepend [Called (GitFetch "origin" (branch (config this))) a]
                            (run git (pull_merge (config this)) s1 w2)))
                   (fun e this' w' => run git (pull_failed e) this' w') in
        In (GitPull rem b opts, e) (rejected (events r)) -> value r = Ok false).
    { intros w2 a r Hin. subst r.
      pose proof (pull_merge_returns (config this) s1 w2) as Hm.
      destruct (run git (pull_merge (config this)) s1 w2) as [s3 w3 e3 [b3|e3']];
        cbn [value events] in Hm.
      - exfalso. unfold prepend in Hin. run_red in Hin.
        rewrite rejected_app in Hin. apply in_app_or in Hin.
        destruct Hin as [Hin|Hin]; [exact (not_pull_rejected _ _ _ _ _ HP Hin)|].
        change (Called ?x a :: e3) with ([Called x a] ++ e3)%list in Hin.
        rewrite rejected_app in Hin. apply in_app_or in Hin.
        destruct Hin as [Hin|Hin].
        + destruct a; cbn in Hin; [exact Hin|]. destruct Hin as [Hin|[]]. discriminate.
        + specialize (Hm b3 eq_refl). rewrite Forall_forall in Hm.
          specialize (Hm _ Hin). discriminate.
      - unfold prepend. run_red.
        destruct (pull_failed_run git e3' s3 w3) as [n Hn]. rewrite Hn. reflexivity. }
    destruct (git (GitFetch "origin" (branch (config this))) w1) as [w2 [[]|ef]];
      cbn [fst snd].
    + apply Hmerge.
    + destruct (ref_not_found (errorMsgOf ef)); [intros _; reflexivity | apply Hmerge].
  - intros Hin. exfalso. run_red in Hin. revert Hin. apply not_pull_rejected.
    rewrite app_nil_r. exact HP.
  - intros _. run_red.
    destruct (pull_failed_run git e0 s1 w1) as [n Hn]. rewrite Hn. reflexivity.
Qed.

(** A cycle whose [git pull] is rejected stops there: [fullSync] returns
    [false] after the notice of a failed pull, and nothing is staged,
    committed or pushed. *)
Lemma fullSync_stops_when_pull_rejected
    (commitMessage : string) (files_ : option (list string))
    (this : GitManager) (w : W) (rem b : string) (opts : list string) (e : JsError) :
  let r := run git (fullSync commitMessage files_) this w in
  In (GitPull rem b opts, e) (rejected (events (run git pull this w))) ->
  value r = Ok false
  /\ In N_SyncPullFailed (notices (events r))
  /\ Forall (fun o => records o = false) (calls (events r)).
Proof.
  intros r Hin. subst r.
  pose proof (pull_rejected this w rem b opts e Hin) as Hv.
  pose proof (only_calls git _ _ _ pull_only this w) as Hc.
  unfold fullSync. rewrite run_try_catch, run_bind.
  destruct (run git pull this w) as [s1 w1 e1 v1]. cbn [value events] in Hv, Hc.
  subst v1. run_go. cbn [negb]. run_go.
  split; [reflexivity|]. split.
  - rewrite notices_app. apply in_or_app. right. left. reflexivity.
  - rewrite calls_app. apply Forall_app. split; [exact Hc | constructor].
Qed.

End RejectedPull.

(** C1, at the input where the code departs from it.  The note [notes.md]
    was changed here and on the remote: the pull leaves it in conflict and
    [pull()] says so, then [fullSync] goes on to stage everything, commit and
    push, and reports a complete synchronisation. *)
Theorem fullSync_commits_after_conflict :
  let w := Sample.mkRepo true (Some "main") [mkFile "notes.md"] [] ["notes.md"]
                         None None [] 0 in
  let r := run Sample.git (fullSync "[Sync] 02/11/2026" None) Sample.manager w in
  value r = Ok true
  /\ notices (events r) = [N_PullConflicts 1; N_SyncComplete]
  /\ calls (events r)
     = [GitStatus; GitGetRemotes true; GitFetch "origin" "main";
        GitPull "origin" "main" ["--no-rebase"]; GitStatus; GitStatus; GitStatus;
        GitAdd ["."]; GitCommit ["[Sync] 02/11/2026"]; GitPush "origin" "main"]
  /\ Sample.r_conflicted (world r) = []
  /\ Sample.r_commits (world r) = [["[Sync] 02/11/2026"]]
  /\ Sample.r_pushes (world r) = 1.
Proof. vm_compute. repeat split. Qed.

(* ================================================================== *)
(** * Facts about strings *)
(* ================================================================== *)

Section StringFacts.

Lemma append_nil_r (s : string) : s ++ "" = s.
Proof. induction s as [|c s IH]; cbn; [reflexivity | rewrite IH; reflexivity]. Qed.

Lemma append_assoc (s t u : string) : (s ++ t) ++ u = s ++ t ++ u.
Proof. induction s as [|c s IH]; cbn; [reflexivity | rewrite IH; reflexivity]. Qed.

Lemma length_append (s t : string) :
  String.length (s ++ t) = String.length s + String.length t.
Proof. induction s as [|c s IH]; cbn; [reflexivity | rewrite IH; reflexivity]. Qed.

Lemma append_not_empty (s : string) (c : ascii) (t : string) :
  s ++ String c t <> "".
Proof. destruct s; discriminate. Qed.

(** A string ends with the code unit [c] exactly when it is some string
    followed by [c]. *)
Lemma slice_last_inv (s : string) (c : ascii) :
  slice_from (String.length s - 1) s = String c "" -> exists t, s = t ++ String c "".
Proof.
  induction s as [|a s IH]; [discriminate|].
  cbn [String.length]. replace (S (String.length s) - 1) with (String.length s) by lia.
  destruct s as [|b s'].
  - cbn. intros H. exists "". exact H.
  - cbn [String.length slice_from]. intros H.
    destruct IH as [t Ht].
    + cbn [String.length].
      replace (S (String.length s') - 1) with (String.length s') by lia. exact H.
    + exists (String a t). cbn. rewrite <- Ht. reflexivity.
Qed.

Lemma endsWith_char_inv (s : string) (c : ascii) :
  endsWith s (String c "") = true -> exists t, s = t ++ String c "".
Proof.
  unfold endsWith. cbn [String.length]. intros H.
  apply andb_prop in H. destruct H as [_ H]. apply String.eqb_eq in H.
  apply slice_last_inv. exact H.
Qed.

Lemma endsWith_char_app (t : string) (c : ascii) :
  endsWith (t ++ String c "") (String c "") = true.
Proof.
  unfold endsWith. rewrite length_append. cbn [String.length].
  apply andb_true_intro. split; [apply Nat.leb_le; lia|].
  replace (String.length t + 1 - 1) with (String.length t) by lia.
  induction t as [|a t IH]; [apply String.eqb_refl | exact IH].
Qed.

Lemma trimStart_app_char (s : string) (c : ascii) :
  is_ws c = false -> exists t, trimStart (s ++ String c "") = t ++ String c "".
Proof.
  intros Hc. induction s as [|a s IH]; cbn.
  - rewrite Hc. exists "". reflexivity.
  - destruct (is_ws a); [exact IH|]. exists (String a s). reflexivity.
Qed.

Lemma trimEnd_app_char (t : string) (c : ascii) :
  is_ws c = false -> trimEnd (t ++ String c "") = t ++ String c "".
Proof.
  intros Hc. induction t as [|a t IH]; cbn.
  - rewrite Hc. reflexivity.
  - rewrite IH. destruct (t ++ String c "") eqn:E; [|reflexivity].
    destruct (append_not_empty _ _ _ E).
Qed.

(** Trimming keeps a final slash. *)
Lemma trim_keeps_slash (s : string) :
  endsWith s "/" = true -> endsWith (trim s) "/" = true.
Proof.
  intros H. apply endsWith_char_inv in H. destruct H as [t ->].
  unfold trim. destruct (trimStart_app_char t "/" eq_refl) as [u ->].
  rewrite trimEnd_app_char by reflexivity. apply endsWith_char_app.
Qed.

End StringFacts.

(* ================================================================== *)
(** * An invalid repository URL *)
(* ================================================================== *)

Section InvalidUrl.

Context {W : Type} (git : adapter W).

Import MyPluginMethods.

Lemma initializeGit_invalid (this : MyPlugin) (w : W) :
  invalid_url (githubRepoUrl (settings this)) ->
  run git initializeGit this w
  = mkRan this w [Noticed (invalid_url_notice (githubRepoUrl (settings this)))] (Ok false).
Proof.
  intros Hbad. unfold initializeGit, invalid_url_notice.
  rewrite run_try_catch, run_bind, run_get. run_red.
  destruct (githubRepoUrl (settings this) =? "")%string eqn:E.
  - run_go. reflexivity.
  - destruct Hbad as [Hbad|Hbad].
    + rewrite Hbad in E. discriminate.
    + unfold url_incomplete. rewrite (trim_keeps_slash _ Hbad). cbn [orb].
      run_go. reflexivity.
Qed.

Lemma performSync_invalid (source : string) (changedFiles : option (list string))
    (this : MyPlugin) (w : W) :
  gitManager this = None ->
  invalid_url (githubRepoUrl (settings this)) ->
  run git (performSync source changedFiles) this w
  = mkRan this w [Noticed (invalid_url_notice (githubRepoUrl (settings this)))] (Ok tt).
Proof.
  intros Hnone Hbad. unfold performSync.
  rewrite run_try_catch, run_after, run_bind, run_get. run_red.
  rewrite Hnone. rewrite run_bind, (initializeGit_invalid _ _ Hbad). run_red.
  cbn [negb]. rewrite run_Ret. reflexivity.
Qed.

(** C3, as the code has it.  While the plugin has no [GitManager], a
    repository URL that is empty or ends with a slash stops every handler
    before any call on the repository, and no [GitManager] is created; the
    handlers that call [initializeGit] unconditionally show its notice about
    the URL. *)
Theorem invalid_url_stops_before_repository
    (h : Loop.handler) (this : MyPlugin) (w : W) :
  gitManager this = None ->
  invalid_url (githubRepoUrl (settings this)) ->
  let r := run git (Loop.body h) this w in
  Forall (fun o => is_repository_op o = false) (calls (events r))
  /\ gitManager (fields r) = None
  /\ (always_initializes h = true ->
      In (invalid_url_notice (githubRepoUrl (settings this))) (notices (events r))).
Proof.
  intros Hnone Hbad r. subst r.
  destruct h as [[| | | | |]|file]; cbn [Loop.body always_initializes].
  - (* Manual *)
    unfold manualSync. rewrite (performSync_invalid _ _ _ _ Hnone Hbad). cbn.
    repeat split; auto; try discriminate; repeat constructor.
  - (* VaultCreate *)
    unfold onCreate. rewrite run_bind, run_get. run_red.
    destruct (autoSyncOnOpen (settings this) && _).
    + rewrite run_bind, (initializeGit_invalid _ _ Hbad). run_red.
      rewrite (performSync_invalid _ _ _ _ Hnone Hbad). cbn.
      repeat split; auto; try discriminate; repeat constructor.
    + rewrite run_Ret. cbn. repeat split; auto; try discriminate; repeat constructor.
  - (* Interval *)
    unfold onInterval. rewrite run_bind, run_get. run_red.
    destruct ((0 <? syncInterval (settings this))%Z && _).
    + rewrite run_bind, run_call.
      destruct (git DateNow w) as [w1 [now|e]]; run_red.
      * rewrite run_bind, run_get. run_red.
        destruct (_ <=? _)%Z.
        -- rewrite run_bind, (initializeGit_invalid _ _ Hbad). run_red.
           rewrite (performSync_invalid _ _ _ _ Hnone Hbad). cbn.
           repeat split; auto; try discriminate; repeat constructor.
        -- rewrite run_Ret. cbn. repeat split; auto; try discriminate; repeat constructor.
      * cbn. repeat split; auto; try discriminate; repeat constructor.
    + rewrite run_Ret. cbn. repeat split; auto; try discriminate; repeat constructor.
  - (* PullCommand *)
    unfold commandPull. rewrite run_after, run_bind, run_get. run_red.
    rewrite Hnone. rewrite run_bind, (initializeGit_invalid _ _ Hbad). run_red.
    cbn [negb]. run_go. cbn. repeat split; auto; try discriminate; repeat constructor.
  - (* PushCommand *)
    unfold commandPush. rewrite run_bind, run_get. run_red.
    rewrite run_bind. rewrite Hnone.
    rewrite run_bind, (initializeGit_invalid _ _ Hbad). run_red.
    rewrite run_Ret. run_red. rewrite run_bind, run_get. run_red.
    rewrite Hnone. rewrite run_notify. cbn. repeat split; auto; try discriminate; repeat constructor.
  - (* ResolveCommand *)
    unfold commandResolveConflicts. rewrite run_bind, run_get. run_red.
    rewrite run_bind. rewrite Hnone.
    rewrite run_bind, (initializeGit_invalid _ _ Hbad). run_red.
    rewrite run_Ret. run_red. rewrite run_bind, run_get. run_red.
    rewrite Hnone. rewrite run_notify. cbn. repeat split; auto; try discriminate; repeat constructor.
  - (* OnSaveTimeout *)
    unfold onSaveTimeout. rewrite run_bind, (initializeGit_invalid _ _ Hbad). run_red.
    rewrite (performSync_invalid _ _ _ _ Hnone Hbad). cbn.
    repeat split; auto; try discriminate; repeat constructor.
Qed.

End InvalidUrl.

(** A fresh plugin whose URL stops at the user's name. *)
Lemma invalid_url_stops_before_repository_witness :
  let this := Sample.fresh (Sample.with_url "https://github.com/user/") in
  let r := run Sample.git (Loop.body (Loop.OnTrigger Loop.Manual)) this Sample.clean in
  invalid_url (githubRepoUrl (settings this))
  /\ calls (events r) = []
  /\ Forall (fun o => is_repository_op o = false) (calls (events r))
  /\ gitManager (fields r) = None
  /\ In N_UrlIncompleteMain (notices (events r)).
Proof.
  intros this r.
  assert (Hbad : invalid_url (githubRepoUrl (settings this))) by (right; reflexivity).
  destruct (invalid_url_stops_before_repository Sample.git (Loop.OnTrigger Loop.Manual)
              this Sample.clean eq_refl Hbad) as (Hc & Hg & Hn).
  split; [exact Hbad|]. split; [reflexivity|]. split; [exact Hc|].
  split; [exact Hg | exact (Hn eq_refl)].
Defined.

(** Two runs in which the URL is invalid and the repository is used all the
    same.  In the first the plugin got its [GitManager] while the URL was
    valid, and the URL has been emptied since: a manual sync runs a whole
    cycle and says nothing about the URL.  In the second a [GitManager] is
    given a URL that ends with a slash, in a directory that is not a
    repository yet: [fullSync] opens and initialises the repository before
    [initialize()] rejects the URL. *)
Lemma invalid_url_after_repository_calls :
  (let this := mkPlugin (Sample.with_url "") "/vault" (Some Sample.manager) 0 None in
   let r := run Sample.git (Loop.body (Loop.OnTrigger Loop.Manual)) this Sample.clean in
   githubRepoUrl (settings this) = ""
   /\ notices (events r) = [N_SyncComplete]
   /\ filter is_repository_op (calls (events r))
      = [GitStatus; GitStatus; GitGetRemotes true; GitFetch "origin" "main";
         GitPull "origin" "main" ["--no-rebase"]; GitStatus; GitStatus])
  /\
  (let cfg := MyPluginMethods.config_of (Sample.with_url "https://github.com/user/")
                                        "/vault" in
   let w := Sample.mkRepo false None [] [] [] None None [] 0 in
   let r := run Sample.git (fullSync "[Sync]" None) (mkGitManager cfg false) w in
   remoteUrl cfg = Some "https://github.com/user/"
   /\ calls (events r) = [GitRevparse ["--git-dir"]; GitInit]
   /\ notices (events r) = [N_UrlIncomplete; N_InitBeforePullFailed; N_SyncPullFailed]
   /\ value r = Ok false).
Proof. vm_compute. repeat split. Qed.

(* ================================================================== *)
(** * What the handlers leave alone *)
(* ================================================================== *)

Lemma on_gitManager_only {A} (p : prog GitManager A) :
  only any_op keeps_debounce (on_gitManager p).
Proof.
  induction p as [a|e|o k IH|n k IH|k IH|g k IH]; cbn [on_gitManager].
  - constructor.
  - constructor.
  - constructor; [exact I | exact IH].
  - constructor; exact IH.
  - constructor. intros this. destruct (gitManager this); [apply IH | constructor].
  - constructor; [|exact IH]. intros this. split; reflexivity.
Qed.

Lemma gitManager_call_only {A} (p : prog GitManager A) :
  only any_op keeps_debounce (gitManager_call p).
Proof.
  unfold gitManager_call. constructor. intros this.
  destruct (gitManager this); [apply on_gitManager_only | constructor].
Qed.

Ltac plugin_only :=
  repeat first
    [ apply gitManager_call_only
    | only_step ];
  try exact I; try (intros ?; split; reflexivity).

Lemma initializeGit_only : only any_op keeps_debounce MyPluginMethods.initializeGit.
Proof. unfold MyPluginMethods.initializeGit. plugin_only. Qed.

Lemma performSync_only source changedFiles :
  only any_op keeps_debounce (MyPluginMethods.performSync source changedFiles).
Proof.
  unfold MyPluginMethods.performSync.
  repeat first [ apply initializeGit_only | apply gitManager_call_only | only_step ];
    try exact I; try (intros ?; split; reflexivity).
Qed.

Lemma body_only (h : Loop.handler) : only any_op keeps_debounce (Loop.body h).
Proof.
  destruct h as [[| | | | |]|file]; cbn [Loop.body];
    unfold MyPluginMethods.manualSync, MyPluginMethods.onCreate,
           MyPluginMethods.onInterval, MyPluginMethods.commandPull,
           MyPluginMethods.commandPush, MyPluginMethods.commandResolveConflicts,
           MyPluginMethods.onSaveTimeout;
    repeat first [ apply performSync_only | apply initializeGit_only
                 | apply gitManager_call_only | only_step ];
    try exact I; try (intros ?; split; reflexivity).
Qed.

(* ================================================================== *)
(** * Facts about the event loop *)
(* ================================================================== *)

Module LoopFacts.

Import Loop Timing.

Section WithAdapter.

Context {W : Type} (git : adapter W).

Lemma advance_only (p : prog MyPlugin unit) :
  only any_op keeps_debounce p ->
  forall this w,
    settings (fst (fst (fst (advance git p this w)))) = settings this
    /\ syncDebounceTimer (fst (fst (fst (advance git p this w)))) = syncDebounceTimer this
    /\ forall h, Forall task_ok (suspended h (snd (advance git p this w))).
Proof.
  induction 1 as [a|e|o k _ Hk IH|n k _ IH|k _ IH|g k Hg _ IH]; intros this w;
    cbn [advance].
  - cbn. repeat split. constructor.
  - cbn. repeat split. constructor.
  - destruct (is_async o).
    + cbn. repeat split. intros h. constructor; [exact Hk | constructor].
    + destruct (git o w) as [w' r]. specialize (IH r this w').
      destruct (advance git (k r) this w') as [[[this' w''] evs] t]. exact IH.
  - specialize (IH this w).
    destruct (advance git k this w) as [[[this' w'] evs] t]. exact IH.
  - apply IH.
  - specialize (IH (g this) w). destruct (Hg this) as [Hs Ht].
    rewrite Hs, Ht in IH. exact IH.
Qed.

Lemma start_spec (h : handler) (st : state W) :
  same_timing st (start git h st)
  /\ started (start git h st) = (started st ++ [h])%list
  /\ (Forall task_ok (tasks st) -> Forall task_ok (tasks (start git h st))).
Proof.
  unfold start, same_timing.
  destruct (advance_only (body h) (body_only h) (plugin st) (repo st)) as (Hs & Ht & Hk).
  destruct (advance git (body h) (plugin st) (repo st)) as [[[this' w'] evs] t].
  cbn in *. repeat split; auto.
  intros Hok. apply Forall_app. split; [exact Hok | apply Hk].
Qed.

Lemma complete_spec (i : nat) (st : state W) :
  Forall task_ok (tasks st) ->
  same_timing st (complete git i st)
  /\ started (complete git i st) = started st
  /\ Forall task_ok (tasks (complete git i st)).
Proof.
  intros Hok. unfold complete, same_timing.
  destruct (nth_error (tasks st) i) as [[h o k]|] eqn:Hnth; [|repeat split; auto].
  assert (Hk : task_ok (Waiting h o k)).
  { rewrite Forall_forall in Hok. apply Hok. eapply nth_error_In. exact Hnth. }
  destruct (git o (repo st)) as [w1 r].
  destruct (advance_only (k r) (Hk r) (plugin st) w1) as (Hs & Ht & Hsus).
  destruct (advance git (k r) (plugin st) w1) as [[[this' w'] evs] t].
  cbn in *. repeat split; auto.
  apply Forall_app. split.
  - rewrite <- (firstn_skipn i (tasks st)) in Hok. apply Forall_app in Hok. tauto.
  - apply Forall_app. split; [apply Hsus|].
    rewrite <- (firstn_skipn (S i) (tasks st)) in Hok. apply Forall_app in Hok. tauto.
Qed.

(** ** The debounce of the [modify] handler *)

Lemma settled_refl (st : state W) : settled st st.
Proof. split; auto. Qed.

Lemma settled_trans (st1 st2 st3 : state W) :
  Forall task_ok (tasks st1) -> settled st1 st2 -> settled st2 st3 -> settled st1 st3.
Proof. intros Hok [H1 H2] [H3 H4]. split; [congruence | auto]. Qed.

Lemma steps_cons (st : state W) (i : input) (seg : list input) :
  steps git st (i :: seg) = steps git (step git st i) seg.
Proof. reflexivity. Qed.

Lemma steps_app (st : state W) (seg1 seg2 : list input) :
  steps git st (seg1 ++ seg2) = steps git (steps git st seg1) seg2.
Proof. apply fold_left_app. Qed.

Lemma saves_started_start (h : handler) (st : state W) :
  saves_started (start git h st)
  = (saves_started st ++ if is_on_save h then [h] else [])%list.
Proof.
  unfold saves_started. destruct (start_spec h st) as (_ & Hst & _). rewrite Hst.
  rewrite filter_app. cbn [filter]. destruct (is_on_save h); reflexivity.
Qed.

(** A step other than a save, while no timeout is pending. *)
Lemma step_idle (st : state W) (i : input) :
  quiet i -> timers st = [] -> Forall task_ok (tasks st) ->
  timers (step git st i) = []
  /\ saves_started (step git st i) = saves_started st
  /\ settled st (step git st i)
  /\ Forall task_ok (tasks (step git st i)).
Proof.
  intros Hq Ht Hok. destruct i as [t|file|ms|n]; cbn [step quiet] in *.
  - destruct (start_spec (OnTrigger t) st) as ((Hs & _ & Htm & _) & _ & Htask).
    rewrite saves_started_start. cbn [is_on_save]. rewrite app_nil_r.
    repeat split; auto. congruence.
  - destruct Hq.
  - unfold elapse, fire. cbn [timers clock plugin repo seen tasks next_id started].
    rewrite Ht. cbn. repeat split; auto.
  - destruct (complete_spec n st Hok) as ((Hs & _ & Htm & _) & Hst & Htask).
    unfold saves_started. rewrite Hst.
    repeat split; auto. congruence.
Qed.

Lemma steps_idle (seg : list input) (st : state W) :
  Forall quiet seg -> timers st = [] -> Forall task_ok (tasks st) ->
  timers (steps git st seg) = []
  /\ saves_started (steps git st seg) = saves_started st
  /\ settled st (steps git st seg).
Proof.
  revert st. induction seg as [|i seg IH]; intros st Hq Ht Hok.
  - repeat split; auto.
  - rewrite steps_cons. inversion Hq as [|? ? Hi Hseg]; subst.
    destruct (step_idle st i Hi Ht Hok) as (Ht1 & Hs1 & Hset1 & Hok1).
    destruct (IH (step git st i) Hseg Ht1 Hok1) as (Ht2 & Hs2 & Hset2).
    split; [exact Ht2|]. split; [congruence|].
    exact (settled_trans _ _ _ Hok Hset1 Hset2).
Qed.

(** A step other than a save that ends before the timeout is due. *)
Lemma step_before (st : state W) (i : input) (d : nat) (f : TFile) :
  quiet i -> pending st d f -> clock st + elapsed [i] < d ->
  Forall task_ok (tasks st) ->
  pending (step git st i) d f
  /\ clock (step git st i) = clock st + elapsed [i]
  /\ saves_started (step git st i) = saves_started st
  /\ settled st (step git st i)
  /\ Forall task_ok (tasks (step git st i)).
Proof.
  intros Hq (id & Ht & Hd & Hc) Hlt Hok.
  destruct i as [t|file|ms|n]; cbn [step quiet elapsed] in *.
  - destruct (start_spec (OnTrigger t) st) as ((Hs & Hdb & Htm & _ & Hck) & _ & Htask).
    rewrite saves_started_start. cbn [is_on_save]. rewrite app_nil_r.
    split; [exists id; split; [congruence | split; [congruence | lia]]|].
    split; [lia|]. split; [reflexivity|]. split; [split; assumption | auto].
  - destruct Hq.
  - unfold elapse, fire. cbn [timers clock plugin repo seen tasks next_id started].
    rewrite Ht. cbn [filter]. unfold due. cbn [deadline].
    assert (Hnd : (d <=? clock st + ms)%nat = false) by (apply Nat.leb_gt; lia).
    rewrite Hnd. cbn [negb fold_left].
    split; [exists id; cbn; split; [reflexivity | split; [exact Hd | lia]]|].
    cbn. split; [lia|]. split; [reflexivity|]. split; [split; auto | exact Hok].
  - destruct (complete_spec n st Hok) as ((Hs & Hdb & Htm & _ & Hck) & Hst & Htask).
    unfold saves_started. rewrite Hst.
    split; [exists id; split; [congruence | split; [congruence | lia]]|].
    split; [lia|]. split; [reflexivity|]. split; [split; auto | exact Htask].
Qed.

Lemma steps_before (seg : list input) (st : state W) (d : nat) (f : TFile) :
  Forall quiet seg -> pending st d f -> clock st + elapsed seg < d ->
  Forall task_ok (tasks st) ->
  pending (steps git st seg) d f
  /\ saves_started (steps git st seg) = saves_started st
  /\ settled st (steps git st seg).
Proof.
  revert st. induction seg as [|i seg IH]; intros st Hq Hp Hlt Hok.
  - repeat split; auto.
  - rewrite steps_cons. inversion Hq as [|? ? Hi Hseg]; subst.
    assert (Hel : elapsed (i :: seg) = elapsed [i] + elapsed seg)
      by (destruct i; cbn; lia).
    destruct (step_before st i d f Hi Hp ltac:(lia) Hok)
      as (Hp1 & Hc1 & Hs1 & Hset1 & Hok1).
    destruct (IH (step git st i) Hseg Hp1 ltac:(lia) Hok1) as (Hp2 & Hs2 & Hset2).
    split; [exact Hp2|]. split; [congruence|].
    exact (settled_trans _ _ _ Hok Hset1 Hset2).
Qed.

(** Time passes beyond the deadline: the callback of the pending timeout is
    started, and no timeout is left. *)
Lemma elapse_fires (st : state W) (ms d : nat) (f : TFile) :
  pending st d f -> d <= clock st + ms -> Forall task_ok (tasks st) ->
  timers (elapse git ms st) = []
  /\ saves_started (elapse git ms st) = (saves_started st ++ [OnSaveTimeout f])%list
  /\ settled st (elapse git ms st)
  /\ Forall task_ok (tasks (elapse git ms st)).
Proof.
  intros (id & Ht & Hd & Hc) Hle Hok.
  unfold elapse, fire. cbn [timers clock plugin repo seen tasks next_id started].
  rewrite Ht. cbn [filter]. unfold due. cbn [deadline].
  assert (Hdue : (d <=? clock st + ms)%nat = true) by (apply Nat.leb_le; lia).
  rewrite Hdue. cbn [negb fold_left timer_file].
  set (st0 := mkState (plugin st) (repo st) (seen st) (tasks st) []
                      (next_id st) (clock st + ms) (started st)).
  destruct (start_spec (OnSaveTimeout f) st0) as ((Hs & _ & Htm & _) & _ & Htask).
  rewrite saves_started_start. cbn [is_on_save].
  repeat split; auto.
Qed.

Lemma steps_after (seg : list input) (st : state W) (d : nat) (f : TFile) :
  Forall quiet seg -> pending st d f -> d <= clock st + elapsed seg ->
  Forall task_ok (tasks st) ->
  timers (steps git st seg) = []
  /\ saves_started (steps git st seg) = (saves_started st ++ [OnSaveTimeout f])%list
  /\ settled st (steps git st seg).
Proof.
  revert st. induction seg as [|i seg IH]; intros st Hq Hp Hle Hok.
  - destruct Hp as (id & _ & _ & Hc). cbn [elapsed] in Hle. lia.
  - rewrite steps_cons. inversion Hq as [|? ? Hi Hseg]; subst.
    assert (Hel : elapsed (i :: seg) = elapsed [i] + elapsed seg)
      by (destruct i; cbn; lia).
    destruct (Nat.lt_ge_cases (clock st + elapsed [i]) d) as [Hlt|Hge].
    + destruct (step_before st i d f Hi Hp Hlt Hok)
        as (Hp1 & Hc1 & Hs1 & Hset1 & Hok1).
      destruct (IH (step git st i) Hseg Hp1 ltac:(lia) Hok1) as (Ht2 & Hs2 & Hset2).
      split; [exact Ht2|]. split; [congruence|].
      exact (settled_trans _ _ _ Hok Hset1 Hset2).
    + destruct i as [t|file|ms|n]; cbn [quiet elapsed] in *;
        try (destruct Hp as (id & _ & _ & Hc); lia).
      cbn [step].
      destruct (elapse_fires st ms d f Hp ltac:(lia) Hok) as (Ht1 & Hs1 & Hset1 & Hok1).
      destruct (steps_idle seg _ Hseg Ht1 Hok1) as (Ht2 & Hs2 & Hset2).
      split; [exact Ht2|]. split; [congruence|].
      exact (settled_trans _ _ _ Hok Hset1 Hset2).
Qed.

(** A save while at most the timeout of the previous save is pending: that
    one is cleared and a new one is set. *)
Lemma onModify_sets (file : TFile) (st : state W) :
  autoSyncOnSave (settings (plugin st)) = true ->
  githubRepoUrl (settings (plugin st)) <> "" ->
  (timers st = [] \/ exists d f, pending st d f) ->
  pending (onModify file st) (clock st + debounce_ms) file
  /\ saves_started (onModify file st) = saves_started st
  /\ settled st (onModify file st).
Proof.
  intros Hon Hurl Hp. unfold onModify. rewrite Hon.
  apply String.eqb_neq in Hurl. rewrite Hurl. cbn [negb andb].
  assert (Hclear : match syncDebounceTimer (plugin st) with
                   | Some id => clearTimeout id (timers st)
                   | None => timers st
                   end = []).
  { destruct Hp as [Ht|(d & f & id & Ht & Hd & _)].
    - rewrite Ht. destruct (syncDebounceTimer (plugin st)); reflexivity.
    - rewrite Hd, Ht. cbn. rewrite Nat.eqb_refl. reflexivity. }
  rewrite Hclear. split; [|split].
  - exists (next_id st). cbn. repeat split. unfold debounce_ms. lia.
  - reflexivity.
  - split; [reflexivity | auto].
Qed.

(** ** What holds in every state the loop reaches *)

Lemma step_invariant (st : state W) (i : input) :
  invariant st ->
  invariant (step git st i) /\ settings (plugin (step git st i)) = settings (plugin st).
Proof.
  intros [Hok Ht].
  destruct i as [t|file|ms|n]; cbn [step].
  - destruct (start_spec (OnTrigger t) st) as ((Hs & Hdb & Htm & _ & Hck) & _ & Htask).
    split; [|exact Hs]. split; [auto|].
    destruct Ht as [Ht|(d & f & id & Ht & Hd & Hc)]; [left; congruence|].
    right. exists d, f, id. split; [congruence | split; [congruence | lia]].
  - unfold onModify.
    destruct (autoSyncOnSave (settings (plugin st))
              && negb (githubRepoUrl (settings (plugin st)) =? "")%string) eqn:E;
      [|split; [split; assumption | reflexivity]].
    apply andb_prop in E. destruct E as [Hon Hurl].
    apply negb_true_iff, String.eqb_neq in Hurl.
    destruct (onModify_sets file st Hon Hurl Ht) as (Hp & _ & Hs & Htask).
    unfold onModify in Hp, Hs, Htask. rewrite Hon in Hp, Hs, Htask.
    apply String.eqb_neq in Hurl. rewrite Hurl in Hp, Hs, Htask.
    cbn [negb andb] in Hp, Hs, Htask.
    split; [|exact Hs]. split; [auto|]. right. eauto.
  - destruct Ht as [Ht|(d & f & Hp)].
    + destruct (step_idle st (Elapse ms) I Ht Hok) as (Ht1 & _ & (Hs & _) & Hok1).
      split; [|exact Hs]. split; [exact Hok1 | left; exact Ht1].
    + destruct (Nat.lt_ge_cases (clock st + ms) d) as [Hlt|Hge].
      * destruct (step_before st (Elapse ms) d f I Hp
                    ltac:(cbn [elapsed]; lia) Hok) as (Hp1 & _ & _ & (Hs & _) & Hok1).
        split; [|exact Hs]. split; [exact Hok1 | right; eauto].
      * destruct (elapse_fires st ms d f Hp Hge Hok) as (Ht1 & _ & (Hs & _) & Hok1).
        split; [|exact Hs]. split; [exact Hok1 | left; exact Ht1].
  - destruct (complete_spec n st Hok) as ((Hs & Hdb & Htm & _ & Hck) & _ & Htask).
    split; [|exact Hs]. split; [auto|].
    destruct Ht as [Ht|(d & f & id & Ht & Hd & Hc)]; [left; congruence|].
    right. exists d, f, id. split; [congruence | split; [congruence | lia]].
Qed.

Lemma steps_invariant (ins : list input) (st : state W) :
  invariant st ->
  invariant (steps git st ins)
  /\ settings (plugin (steps git st ins)) = settings (plugin st).
Proof.
  revert st. induction ins as [|i ins IH]; intros st Hinv.
  - split; [exact Hinv | reflexivity].
  - rewrite steps_cons. destruct (step_invariant st i Hinv) as [H1 Hs1].
    destruct (IH _ H1) as [H2 Hs2]. split; [exact H2 | congruence].
Qed.

Lemma boot_invariant (s : MyPluginSettings) (vault : string) (w : W) :
  invariant (boot s vault w).
Proof. split; [constructor | left; reflexivity]. Qed.

(** The saves of a burst but the last: each one sets the timeout anew before
    the previous one is due. *)
Lemma burst_pending (saves : list (TFile * list input)) (st : state W) :
  invariant st ->
  autoSyncOnSave (settings (plugin st)) = true ->
  githubRepoUrl (settings (plugin st)) <> "" ->
  Forall (fun p => Forall quiet (snd p) /\ elapsed (snd p) < debounce_ms) saves ->
  invariant (steps git st (burst saves))
  /\ settings (plugin (steps git st (burst saves))) = settings (plugin st)
  /\ saves_started (steps git st (burst saves)) = saves_started st.
Proof.
  revert st. induction saves as [|[file seg] saves IH]; intros st Hinv Hon Hurl Hall.
  - split; [exact Hinv | split; reflexivity].
  - inversion Hall as [|? ? [Hq Hel] Hrest]; subst. cbn [fst snd] in *.
    cbn [burst flat_map fst snd]. rewrite <- app_comm_cons, steps_cons, steps_app.
    cbn [step]. destruct Hinv as [Hok Ht].
    destruct (onModify_sets file st Hon Hurl Ht) as (Hp & Hst & Hs & Htask).
    destruct (steps_before seg (onModify file st) _ file Hq Hp
                ltac:(destruct Hp as (id & _ & _ & _); unfold onModify;
                      rewrite Hon; apply String.eqb_neq in Hurl; rewrite Hurl;
                      cbn; lia)
                (Htask Hok))
      as (Hp2 & Hst2 & Hs2 & Htask2).
    destruct (IH (steps git (onModify file st) seg)) as (Hinv3 & Hs3 & Hst3).
    + split; [apply Htask2, Htask, Hok | right; eauto].
    + congruence.
    + congruence.
    + exact Hrest.
    + fold (burst saves).
      split; [exact Hinv3|]. split; congruence.
Qed.

(** Saving is enabled and a repository URL is set.  In a burst of saves in
    which every save but the last is followed by another one less than
    2000 ms later, and the last one by 2000 ms or more without a save, the
    timeout callback is started exactly once whatever else happens meanwhile
    (commands, awaited calls that return), and it is that of the last file
    saved. *)
Lemma debounce_starts_last_callback
    (s : MyPluginSettings) (vault : string) (w : W) (before : list input)
    (saves : list (TFile * list input)) (last_file : TFile) (last_seg : list input) :
  autoSyncOnSave s = true ->
  githubRepoUrl s <> "" ->
  Forall (fun p => Forall quiet (snd p) /\ elapsed (snd p) < debounce_ms) saves ->
  Forall quiet last_seg ->
  debounce_ms <= elapsed last_seg ->
  let st := steps git (boot s vault w) before in
  let st' := steps git st (burst saves ++ Saved last_file :: last_seg) in
  saves_started st' = (saves_started st ++ [OnSaveTimeout last_file])%list
  /\ timers st' = [].
Proof.
  intros Hon Hurl Hall Hq Hel st st'. subst st'.
  destruct (steps_invariant before _ (boot_invariant s vault w)) as [Hinv Hs].
  fold st in Hinv, Hs. cbn [boot plugin settings] in Hs.
  rewrite steps_app, steps_cons. cbn [step].
  destruct (burst_pending saves st Hinv ltac:(congruence) ltac:(congruence) Hall)
    as ([Hok1 Ht1] & Hs1 & Hst1).
  set (st1 := steps git st (burst saves)) in *.
  destruct (onModify_sets last_file st1 ltac:(congruence) ltac:(congruence) Ht1)
    as (Hp & Hst2 & Hs2 & Htask2).
  assert (Hck : clock (onModify last_file st1) = clock st1).
  { unfold onModify. destruct (_ && _); reflexivity. }
  destruct (steps_after last_seg (onModify last_file st1) _ last_file Hq Hp
              ltac:(rewrite Hck; lia) (Htask2 Hok1))
    as (Ht3 & Hst3 & _).
  split; [congruence | exact Ht3].
Qed.

End WithAdapter.

End LoopFacts.

Section Overlap.

Import Loop.

Context {W : Type} (git : adapter W).

(** With a [GitManager] at hand, [performSync('Manual sync')] runs without a
    pause up to its first awaited call, the status query of line 326, and
    changes nothing on the way. *)
Lemma advance_manual (this : MyPlugin) (w : W) :
  gitManager this <> None ->
  exists k, advance git MyPluginMethods.manualSync this w
            = (this, w, [], Some (existT _ GitStatus k)).
Proof.
  intros Hg. destruct this as [s v [g|] t d]; [|cbn in Hg; congruence].
  eexists. reflexivity.
Qed.

Lemma start_manual (st : state W) :
  gitManager (plugin st) <> None ->
  exists k,
    start git (OnTrigger Manual) st
    = mkState (plugin st) (repo st) (seen st ++ [])
              (tasks st ++ [Waiting (OnTrigger Manual) GitStatus k])
              (timers st) (next_id st) (clock st) (started st ++ [OnTrigger Manual]).
Proof.
  intros Hg. destruct (advance_manual (plugin st) (repo st) Hg) as [k Hk].
  exists k. unfold start. cbn [body]. rewrite Hk. reflexivity.
Qed.

(** C2, as the code has it.  The plugin has no token for a cycle in
    flight: once it holds a [GitManager], each manual request starts a cycle
    of its own, which stops at its first awaited call; after [n] requests in
    a row, [n] more cycles are under way at once. *)
Theorem manual_syncs_overlap (st : state W) (n : nat) :
  gitManager (plugin st) <> None ->
  let st' := steps git st (repeat (Trigger Manual) n) in
  List.length (active_cycles st') = List.length (active_cycles st) + n
  /\ gitManager (plugin st') = gitManager (plugin st).
Proof.
  revert st. induction n as [|n IH]; intros st Hg; cbn [repeat].
  - cbn. split; [lia | reflexivity].
  - cbv zeta. rewrite LoopFacts.steps_cons. cbn [step].
    destruct (start_manual st Hg) as [k Hk]. rewrite Hk.
    set (st1 := mkState _ _ _ _ _ _ _ _).
    destruct (IH st1 Hg) as [Hlen Hsame]. cbv zeta in Hlen, Hsame.
    rewrite Hlen, Hsame. split; [|reflexivity].
    unfold active_cycles, st1. cbn [tasks]. rewrite filter_app, length_app. cbn. lia.
Qed.

End Overlap.

(** Two clicks on the ribbon icon, one after the other, before any call
    returns: two cycles are under way. *)
Lemma two_manual_syncs_overlap :
  let st := Loop.mkState Sample.plugin Sample.clean [] [] [] 1 0 [] in
  let st' := Loop.steps Sample.git st
               [Loop.Trigger Loop.Manual; Loop.Trigger Loop.Manual] in
  map Loop.task_handler (Loop.active_cycles st')
  = [Loop.OnTrigger Loop.Manual; Loop.OnTrigger Loop.Manual]
  /\ List.length (Loop.active_cycles st') = 2.
Proof. split; reflexivity. Qed.

Lemma manual_syncs_overlap_witness :
  let st := Loop.mkState Sample.plugin Sample.clean [] [] [] 1 0 [] in
  let st' := Loop.steps Sample.git st (repeat (Loop.Trigger Loop.Manual) 3) in
  gitManager (Loop.plugin st) <> None
  /\ List.length (Loop.active_cycles st') = 3.
Proof.
  intros st st'.
  assert (Hg : gitManager (Loop.plugin st) <> None) by discriminate.
  split; [exact Hg|].
  exact (proj1 (manual_syncs_overlap Sample.git st 3 Hg)).
Defined.

(* ================================================================== *)
(** * Facts about searching and replacing *)
(* ================================================================== *)

Section SearchFacts.

Lemma prefix_refl_app (pat t : string) : String.prefix pat (pat ++ t) = true.
Proof.
  induction pat as [|c pat IH]; cbn; [destruct t; reflexivity|].
  destruct (ascii_dec c c); [exact IH | congruence].
Qed.

Lemma slice_from_app (pat t : string) : slice_from (String.length pat) (pat ++ t) = t.
Proof. induction pat as [|c pat IH]; cbn; [destruct t; reflexivity | exact IH]. Qed.

(** A prefix test looks at no more code units than the pattern has. *)
Lemma prefix_app_long (pat s t : string) :
  String.length pat <= String.length s ->
  String.prefix pat (s ++ t) = String.prefix pat s.
Proof.
  revert s. induction pat as [|c pat IH]; intros s Hlen.
  - destruct s; destruct t; reflexivity.
  - destruct s as [|a s]; cbn in Hlen; [lia|]. cbn.
    destruct (ascii_dec c a); [apply IH; lia | reflexivity].
Qed.

(** If the pattern does not start [x ++ t], and [c] is not in the pattern,
    it does not start [x ++ c...] either. *)
Lemma prefix_app_other (pat x t : string) (c : ascii) (y : string) :
  includes pat (String c "") = false ->
  String.prefix pat (x ++ t) = false ->
  String.prefix pat (x ++ String c y) = false.
Proof.
  revert x. induction pat as [|p pat IH]; intros x Hc Hp.
  - destruct (x ++ t); discriminate.
  - cbn in Hc. apply orb_false_elim in Hc. destruct Hc as [Hpc Hc].
    destruct x as [|a x]; cbn.
    + destruct (ascii_dec p c) as [->|]; [|reflexivity].
      destruct (ascii_dec c c); [|congruence]. destruct pat; discriminate.
    + cbn in Hp. destruct (ascii_dec p a); [|reflexivity].
      apply IH; assumption.
Qed.

(** A string without the first code unit of the pattern can be skipped. *)
Lemma includes_skip (d t : string) (c : ascii) (pat : string) :
  includes d (String c "") = false ->
  includes (d ++ t) (String c pat) = includes t (String c pat).
Proof.
  induction d as [|a d IH]; intros Hd; [reflexivity|].
  cbn in Hd. apply orb_false_elim in Hd. destruct Hd as [Ha Hd].
  cbn [append includes String.prefix].
  destruct (ascii_dec c a) as [->|].
  - destruct (ascii_dec a a); [|congruence]. destruct d; discriminate.
  - cbn [orb]. apply IH. exact Hd.
Qed.

(** What is before the first occurrence, followed by a code unit that is
    not in the pattern, holds no occurrence. *)
Lemma includes_before (pat before t : string) (c : ascii) (y : string) :
  includes pat (String c "") = false ->
  includes (before ++ t) pat = false ->
  includes (before ++ String c y) pat = includes (String c y) pat.
Proof.
  intros Hc. induction before as [|a b IH]; intros H; [reflexivity|].
  cbn [append includes] in *. apply orb_false_elim in H. destruct H as [Hp Hi].
  change (String a (b ++ t)) with (String a b ++ t) in Hp.
  change (String a (b ++ String c y)) with (String a b ++ String c y).
  rewrite (prefix_app_other pat (String a b) t c y Hc Hp). cbn [orb].
  apply IH. exact Hi.
Qed.

(** The first occurrence of [pat] is where no earlier one is. *)
Lemma find_first_at (pi : string) (l : ascii) (before after : string) :
  includes (before ++ pi) (pi ++ String l "") = false ->
  find_first (pi ++ String l "") (before ++ (pi ++ String l "") ++ after)
  = Some (before, after).
Proof.
  set (pat := pi ++ String l "").
  induction before as [|a b IH]; intros H.
  - cbn [append]. destruct (pat ++ after) eqn:E.
    + destruct pi; discriminate.
    + rewrite <- E. cbn [find_first].
      assert (Hf : forall s, find_first pat s =
                     if String.prefix pat s
                     then Some ("", slice_from (String.length pat) s)
                     else match s with
                          | "" => None
                          | String c s' =>
                              match find_first pat s' with
                              | Some (b0, a0) => Some (String c b0, a0)
                              | None => None
                              end
                          end) by (intros []; reflexivity).
      rewrite Hf, prefix_refl_app, slice_from_app. reflexivity.
  - cbn [append includes] in H. apply orb_false_elim in H. destruct H as [Hp Hi].
    cbn [append find_first].
    assert (Hp' : String.prefix pat (String a (b ++ pat ++ after)) = false).
    { change (String a (b ++ pat ++ after)) with (String a b ++ pat ++ after).
      unfold pat at 2. rewrite append_assoc, <- (append_assoc (String a b)).
      rewrite prefix_app_long; [exact Hp|].
      unfold pat. cbn [append String.length]. rewrite !length_append. cbn. lia. }
    rewrite Hp'. rewrite (IH Hi). reflexivity.
Qed.

(** A replacement text without a dollar is put in as it is. *)
Lemma getSubstitution_plain (matched before after rep : string) :
  includes rep "$" = false -> getSubstitution matched before after rep = rep.
Proof.
  induction rep as [|c rep IH]; intros H; [reflexivity|].
  cbn [includes String.prefix] in H.
  destruct (ascii_dec "$" c) as [<-|Hne].
  - destruct rep; discriminate.
  - cbn [orb] in H. specialize (IH H).
    destruct c as [[] [] [] [] [] [] [] []]; try (cbn; rewrite IH; reflexivity).
    congruence.
Qed.

Lemma replace_at (pi : string) (l : ascii) (rep before after : string) :
  includes (before ++ pi) (pi ++ String l "") = false ->
  includes rep "$" = false ->
  replace (pi ++ String l "") rep (before ++ (pi ++ String l "") ++ after)
  = before ++ rep ++ after.
Proof.
  intros Hb Hr. unfold replace. rewrite (find_first_at pi l before after Hb).
  rewrite getSubstitution_plain by exact Hr. reflexivity.
Qed.

(** ** One code unit *)

Lemma includes_char_cons (a c : ascii) (s : string) :
  includes (String a s) (String c "") = Ascii.eqb c a || includes s (String c "").
Proof.
  cbn [includes String.prefix].
  destruct (ascii_dec c a) as [->|Hne].
  - rewrite Ascii.eqb_refl. destruct s; reflexivity.
  - apply Ascii.eqb_neq in Hne. rewrite Hne. reflexivity.
Qed.

Lemma includes_char_app (s t : string) (c : ascii) :
  includes (s ++ t) (String c "") = includes s (String c "") || includes t (String c "").
Proof.
  induction s as [|a s IH].
  - cbn [append]. destruct t; reflexivity.
  - cbn [append]. rewrite !includes_char_cons, IH. apply orb_assoc.
Qed.

(** ** Trimming gives a part of the string *)

Lemma includes_app_l (x y pat : string) :
  includes x pat = true -> includes (x ++ y) pat = true.
Proof.
  assert (Hp : forall p s, String.prefix p s = true -> String.prefix p (s ++ y) = true).
  { induction p as [|c p IHp]; intros s H; [destruct (s ++ y); reflexivity|].
    destruct s as [|a s]; [discriminate|]. cbn in *.
    destruct (ascii_dec c a); [apply IHp; exact H | discriminate]. }
  induction x as [|a x IH]; intros H.
  - destruct pat; [|discriminate]. destruct y; reflexivity.
  - cbn [append includes] in *. apply orb_prop in H. destruct H as [H|H].
    + apply (Hp pat (String a x)) in H. cbn [append] in H. rewrite H. reflexivity.
    + rewrite (IH H). apply orb_true_r.
Qed.

Lemma trimEnd_prefix (s : string) : exists r, s = trimEnd s ++ r.
Proof.
  induction s as [|c s [r IH]]; [exists ""; reflexivity|].
  cbn [trimEnd]. destruct (trimEnd s) as [|a u] eqn:E.
  - destruct (is_ws c).
    + exists (String c s). reflexivity.
    + exists s. reflexivity.
  - exists r. rewrite IH at 1. reflexivity.
Qed.

Lemma includes_trimStart (s pat : string) :
  includes s pat = false -> includes (trimStart s) pat = false.
Proof.
  induction s as [|c s IH]; intros H; [exact H|].
  cbn [trimStart]. destruct (is_ws c); [|exact H].
  cbn [includes] in H. apply orb_false_elim in H. apply IH. tauto.
Qed.

Lemma includes_trim (s pat : string) :
  includes s pat = false -> includes (trim s) pat = false.
Proof.
  intros H. unfold trim. apply includes_trimStart in H.
  destruct (trimEnd_prefix (trimStart s)) as [r Hr].
  destruct (includes (trimEnd (trimStart s)) pat) eqn:E; [|reflexivity].
  apply (includes_app_l _ r) in E. rewrite <- Hr in E. congruence.
Qed.

End SearchFacts.

(* ================================================================== *)
(** * The commit message *)
(* ================================================================== *)

Section CommitMessage.

Lemma of_nat_digits (n : nat) (c : ascii) :
  is_digit c = false -> includes (of_nat n) (String c "") = false.
Proof.
  intros Hc. unfold of_nat.
  assert (H : forall d, includes (NilEmpty.string_of_uint d) (String c "") = false).
  { induction d; cbn [NilEmpty.string_of_uint]; [reflexivity|..];
      rewrite includes_char_cons, IHd, orb_false_r;
      unfold is_digit in Hc; cbn [existsb] in Hc;
      repeat (apply orb_false_elim in Hc; destruct Hc as [? Hc]); assumption. }
  destruct (Nat.to_uint n) eqn:E; cbn [NilZero.string_of_uint];
    try (rewrite <- E; apply H).
  rewrite includes_char_cons, orb_false_r.
  unfold is_digit in Hc. cbn [existsb] in Hc.
  apply orb_false_elim in Hc. tauto.
Qed.

Lemma join_without (c : ascii) (sep : string) (l : list string) :
  includes sep (String c "") = false ->
  Forall (fun s => includes s (String c "") = false) l ->
  includes (join sep l) (String c "") = false.
Proof.
  intros Hsep. unfold join. induction 1 as [|x l Hx Hl IH]; [reflexivity|].
  cbn [String.concat]. destruct l as [|y l]; [exact Hx|].
  rewrite !includes_char_app, Hx, Hsep. exact IH.
Qed.

Lemma Forall_firstn {A} (P : A -> Prop) (n : nat) (l : list A) :
  Forall P l -> Forall P (firstn n l).
Proof.
  revert n. induction l as [|x l IH]; intros [|n] H; cbn; try constructor.
  - inversion H; assumption.
  - apply IH. inversion H; assumption.
Qed.

(** The block of the changed files has the code units of its paths and no
    dollar or brace of its own. *)
Lemma filesText_without (c : ascii) (fs : list string) :
  c = "$"%char \/ c = "{"%char ->
  Forall (fun s => includes s (String c "") = false) fs ->
  includes (filesText fs) (String c "") = false.
Proof.
  intros Hc Hfs. unfold filesText.
  assert (Hd : is_digit c = false) by (destruct Hc; subst; reflexivity).
  assert (Hlist : includes (join nl (map (fun f => "  - " ++ f) (firstn 10 fs)))
                           (String c "") = false).
  { apply join_without; [destruct Hc; subst; reflexivity|].
    apply Forall_map. apply Forall_firstn. revert Hfs. apply Forall_impl.
    intros s Hs. rewrite includes_char_app, Hs.
    destruct Hc; subst; reflexivity. }
  rewrite !includes_char_app, Hlist.
  destruct (10 <? Datatypes.length fs)%nat.
  - rewrite !includes_char_app, (of_nat_digits _ c Hd).
    destruct Hc; subst; reflexivity.
  - destruct Hc; subst; reflexivity.
Qed.

Lemma plain_paths (fs : list string) :
  Forall plain fs ->
  includes (filesText fs) "$" = false /\ includes (filesText fs) "{" = false.
Proof.
  intros H. split; apply filesText_without; auto;
    revert H; apply Forall_impl; intros s [H1 H2]; assumption.
Qed.

(** The message when the placeholder occurs once and the paths are plain. *)
Lemma getCommitMessage_files
    (template dateStr : string) (fs : list string) (before after : string) :
  fs <> [] ->
  replace "{date}" dateStr template = before ++ "{files}" ++ after ->
  includes (before ++ "{files") "{files}" = false ->
  includes after "{files}" = false ->
  Forall plain fs ->
  getCommitMessage template dateStr (Some fs) = trim (before ++ filesText fs ++ after)
  /\ includes (getCommitMessage template dateStr (Some fs)) "{files}" = false.
Proof.
  intros Hne Hdate Hbefore Hafter Hplain.
  destruct (plain_paths fs Hplain) as [Hdollar Hbrace].
  assert (Hmsg : getCommitMessage template dateStr (Some fs)
                 = trim (before ++ filesText fs ++ after)).
  { unfold getCommitMessage. destruct fs as [|f fs]; [congruence|].
    rewrite Hdate.
    change "{files}" with ("{files" ++ String "}" "").
    rewrite (replace_at "{files" "}" _ before after Hbefore Hdollar). reflexivity. }
  split; [exact Hmsg|].
  rewrite Hmsg. apply includes_trim.
  change (filesText fs ++ after)
    with (String (ascii_of_nat 10) (("Arquivos alterados:" ++ nl
            ++ join nl (map (fun f => "  - " ++ f) (firstn 10 fs))
            ++ (if (10 <? Datatypes.length fs)%nat
                then nl ++ "  ... e mais " ++ of_nat (Datatypes.length fs - 10)
                        ++ " arquivo(s)"
                else "")) ++ after)).
  rewrite (includes_before "{files}" before "{files" (ascii_of_nat 10) _ eq_refl Hbefore).
  change (String (ascii_of_nat 10) ?x) with (filesText fs ++ after).
  rewrite (includes_skip (filesText fs) after "{" "files}" Hbrace).
  exact Hafter.
Qed.

Lemma firstn_min {A} (n : nat) (l : list A) :
  firstn (Nat.min (Datatypes.length l) n) l = firstn n l.
Proof.
  destruct (Nat.le_gt_cases (Datatypes.length l) n) as [H|H].
  - rewrite Nat.min_l by exact H. rewrite firstn_all, firstn_all2 by exact H. reflexivity.
  - rewrite Nat.min_r by lia. reflexivity.
Qed.

(** A string that starts and ends with code units that are not white space
    is left as it is by [trim]. *)
Lemma trim_id (a z : ascii) (u t : string) :
  is_ws a = false -> is_ws z = false -> String a u = t ++ String z "" ->
  trim (String a u) = String a u.
Proof.
  intros Ha Hz Heq. unfold trim. cbn [trimStart]. rewrite Ha, Heq.
  apply trimEnd_app_char. exact Hz.
Qed.

Lemma ends_with (pre mid full tail : string) (z : ascii) :
  full = tail ++ String z "" ->
  pre ++ mid ++ full = (pre ++ mid ++ tail) ++ String z "".
Proof. intros ->. rewrite !append_assoc. reflexivity. Qed.

(** The template of the claim, with a plain date. *)
Lemma sync_template (dateStr : string) (fs : list string) :
  plain dateStr -> fs <> [] -> Forall plain fs ->
  getCommitMessage "[Sync] {date}{files}" dateStr (Some fs)
  = trim ("[Sync] " ++ dateStr ++ filesText fs).
Proof.
  intros [Hd1 Hd2] Hne Hplain.
  destruct (getCommitMessage_files "[Sync] {date}{files}" dateStr fs
              ("[Sync] " ++ dateStr) "" Hne) as [Hmsg _].
  - transitivity ("[Sync] " ++ dateStr ++ "{files}").
    + exact (replace_at "{date" "}" dateStr "[Sync] " "{files}" eq_refl Hd1).
    + rewrite append_assoc. reflexivity.
  - rewrite append_assoc.
    rewrite (includes_skip "[Sync] " _ "{" "files}" eq_refl).
    rewrite (includes_skip dateStr _ "{" "files}" Hd2). reflexivity.
  - reflexivity.
  - exact Hplain.
  - rewrite Hmsg, append_nil_r, append_assoc. reflexivity.
Qed.

(** C6, as the code has it.  Let the template, once the date is put in,
    hold [{files}] exactly once, and let no path hold a dollar or an opening
    brace.  For [N > 0] paths the message is the template with the
    placeholder replaced by a block: a heading, the first [min N 10] paths,
    each on a line of its own after ["  - "], and, exactly when [N > 10], a
    last line that tells how many more there are ([N - 10]); the result is
    trimmed and holds no [{files}].  With the template
    ["[Sync] {date}{files}"] and the files [a.md] and [b.md] the message
    ends with the lines ["  - a.md"] and ["  - b.md"]; with twelve files it
    lists ten of them and ends with the line of the two more. *)
Theorem commit_message_lists_files :
  (forall (template dateStr : string) (fs : list string) (before after : string),
      fs <> [] ->
      replace "{date}" dateStr template = before ++ "{files}" ++ after ->
      includes (before ++ "{files") "{files}" = false ->
      includes after "{files}" = false ->
      Forall plain fs ->
      let n := Datatypes.length fs in
      getCommitMessage template dateStr (Some fs)
      = trim (before
              ++ (nl ++ "Arquivos alterados:" ++ nl
                  ++ join nl (map (fun f => "  - " ++ f) (firstn (Nat.min n 10) fs))
                  ++ (if (10 <? n)%nat
                      then nl ++ "  ... e mais " ++ of_nat (n - 10) ++ " arquivo(s)"
                      else ""))
              ++ after)
      /\ includes (getCommitMessage template dateStr (Some fs)) "{files}" = false)
  /\ (forall dateStr : string,
        plain dateStr ->
        getCommitMessage "[Sync] {date}{files}" dateStr (Some ["a.md"; "b.md"])
        = "[Sync] " ++ dateStr ++ nl ++ "Arquivos alterados:" ++ nl
          ++ "  - a.md" ++ nl ++ "  - b.md")
  /\ (forall (dateStr : string) (fs : list string),
        plain dateStr -> Datatypes.length fs = 12 -> Forall plain fs ->
        getCommitMessage "[Sync] {date}{files}" dateStr (Some fs)
        = "[Sync] " ++ dateStr ++ nl ++ "Arquivos alterados:" ++ nl
          ++ join nl (map (fun f => "  - " ++ f) (firstn 10 fs))
          ++ nl ++ "  ... e mais 2 arquivo(s)").
Proof.
  split; [|split].
  - intros template dateStr fs before after Hne Hdate Hb Ha Hplain n. subst n.
    rewrite firstn_min.
    exact (getCommitMessage_files template dateStr fs before after Hne Hdate Hb Ha Hplain).
  - intros dateStr Hd.
    rewrite (sync_template dateStr ["a.md"; "b.md"] Hd ltac:(discriminate)
               ltac:(repeat constructor)).
    apply (trim_id "[" "d" _
             ("[Sync] " ++ dateStr ++ nl ++ "Arquivos alterados:" ++ nl
              ++ "  - a.md" ++ nl ++ "  - b.m")); try reflexivity.
    apply (ends_with "[Sync] " dateStr (filesText ["a.md"; "b.md"])). reflexivity.
  - intros dateStr fs Hd Hlen Hplain.
    assert (Hne : fs <> []) by (destruct fs; [discriminate | congruence]).
    rewrite (sync_template dateStr fs Hd Hne Hplain).
    unfold filesText. rewrite Hlen. cbn [Nat.ltb Nat.leb Nat.sub].
    change (of_nat 2) with "2".
    set (listing := join nl (map (fun f => "  - " ++ f) (firstn 10 fs))).
    apply (trim_id "[" ")" _
             ("[Sync] " ++ dateStr ++ nl ++ "Arquivos alterados:" ++ nl ++ listing
              ++ nl ++ "  ... e mais 2 arquivo(s")); try reflexivity.
    apply (ends_with "[Sync] " dateStr
             (nl ++ "Arquivos alterados:" ++ nl ++ listing
              ++ nl ++ "  ... e mais 2 arquivo(s)")).
    rewrite !append_assoc. reflexivity.
Qed.

End CommitMessage.

(** The day of the claim, and the two notes. *)
Lemma commit_message_lists_files_witness :
  plain "02/11/2026, 19:52:03"
  /\ getCommitMessage "[Sync] {date}{files}" "02/11/2026, 19:52:03"
                      (Some ["a.md"; "b.md"])
     = "[Sync] 02/11/2026, 19:52:03" ++ nl ++ "Arquivos alterados:" ++ nl
       ++ "  - a.md" ++ nl ++ "  - b.md".
Proof.
  assert (H : plain "02/11/2026, 19:52:03") by (split; reflexivity).
  split; [exact H|].
  exact (proj1 (proj2 commit_message_lists_files) "02/11/2026, 19:52:03" H).
Defined.

(** Two templates and paths for which the claim fails: a second [{files}]
    stays in the message, and so does the one that the pattern [$&] of a
    path brings back. *)
Lemma commit_message_keeps_placeholder :
  includes (getCommitMessage "[Sync] {files} {files}" "02/11/2026, 19:52:03"
                             (Some ["a.md"])) "{files}" = true
  /\ getCommitMessage "[Sync] {date}{files}" "02/11/2026, 19:52:03" (Some ["a$&b.md"])
     = "[Sync] 02/11/2026, 19:52:03" ++ nl ++ "Arquivos alterados:" ++ nl
       ++ "  - a{files}b.md".
Proof. split; reflexivity. Qed.

(* ================================================================== *)
(** * Further properties: what the methods show, call and leave *)
(* ================================================================== *)

Section ShowsFacts.

Context {S : Type} (N : notice -> Prop).

Lemma shows_bind {A B} (p : prog S A) (f : A -> prog S B) :
  shows N p -> (forall a, shows N (f a)) -> shows N (bind p f).
Proof. intros Hp Hf. induction Hp; simpl; try constructor; auto. Qed.

Lemma shows_try_catch {A} (p : prog S A) (h : JsError -> prog S A) :
  shows N p -> (forall e, shows N (h e)) -> shows N (try_catch p h).
Proof. intros Hp Hh. induction Hp; simpl; try constructor; auto. Qed.

Lemma shows_after {A R} (p : prog S (completion A R)) (rest : A -> prog S R) :
  shows N p -> (forall a, shows N (rest a)) -> shows N (after p rest).
Proof.
  intros Hp Hr. unfold after. apply shows_bind; [exact Hp|].
  intros [a|r]; [apply Hr | constructor].
Qed.

Lemma shows_call (o : op) : shows N (@call S o).
Proof. unfold call. constructor. intros r. destruct r; constructor. Qed.

Lemma shows_notify (n : notice) : N n -> shows N (@notify S n).
Proof. intros H. unfold notify. constructor; [exact H | constructor]. Qed.

Lemma shows_get : shows N (@get S).
Proof. unfold get. constructor. intros s. constructor. Qed.

Lemma shows_modify (f : S -> S) : shows N (modify f).
Proof. unfold modify. constructor. constructor. Qed.

Lemma shows_forEach {A} (l : list A) (body : A -> prog S unit) :
  (forall x, shows N (body x)) -> shows N (forEach l body).
Proof.
  intros H. induction l as [|x l IH]; cbn [forEach]; [constructor|].
  apply shows_bind; [apply H | intros _; exact IH].
Qed.

End ShowsFacts.

Lemma shows_weaken {S A} (N N' : notice -> Prop) (p : prog S A) :
  (forall n, N n -> N' n) -> shows N p -> shows N' p.
Proof. intros H. induction 1; constructor; auto. Qed.

Ltac shows_step :=
  match goal with
  | |- shows _ (bind _ _) => apply shows_bind; [|intros ?]
  | |- shows _ (try_catch _ _) => apply shows_try_catch; [|intros ?]
  | |- shows _ (after _ _) => apply shows_after; [|intros ?]
  | |- shows _ (forEach _ _) => apply shows_forEach; intros ?
  | |- shows _ (call _) => apply shows_call
  | |- shows _ (notify _) => apply shows_notify
  | |- shows _ get => apply shows_get
  | |- shows _ (modify _) => apply shows_modify
  | |- shows _ (Ret _) => constructor
  | |- shows _ (Throw _) => constructor
  | |- shows _ (match ?x with _ => _ end) => destruct x
  | |- shows _ (if ?b then _ else _) => destruct b
  end.

Section ShowsRuns.

Context {W : Type} (git : adapter W).

(** The notices of a run are among those that the program can show. *)
Lemma shows_notices {S A} (N : notice -> Prop) (p : prog S A) :
  shows N p -> forall this w, Forall N (notices (events (run git p this w))).
Proof.
  induction 1 as [a|e|o k _ IH|n k HN _ IH|k _ IH|g k _ IH]; intros this w; simpl.
  - constructor.
  - constructor.
  - destruct (git o w) as [w' r]. simpl. apply IH.
  - constructor; [exact HN | apply IH].
  - apply IH.
  - apply IH.
Qed.

Lemma silent_notices {S A} (p : prog S A) :
  shows no_notice p -> forall this w, notices (events (run git p this w)) = [].
Proof.
  intros H this w. pose proof (shows_notices _ _ H this w) as HF.
  destruct (notices (events (run git p this w))) as [|n l]; [reflexivity|].
  inversion HF as [|? ? Hn _]. destruct Hn.
Qed.

(** A program without assignment ends with the fields it started with. *)
Lemma only_keeps_fields {S A} (P : op -> Prop) (p : prog S A) :
  only P no_assignment p -> forall this w, fields (run git p this w) = this.
Proof.
  induction 1 as [a|e|o k _ _ IH|n k _ IH|k _ IH|g k Hg _ IH]; intros this w; simpl.
  - reflexivity.
  - reflexivity.
  - destruct (git o w) as [w' r]. apply IH.
  - apply IH.
  - apply IH.
  - destruct Hg.
Qed.

(** A [try] whose [catch] returns always returns. *)
Lemma try_catch_returns {S A} (p : prog S A) (h : JsError -> prog S A) (this : S) (w : W) :
  (forall e s w', exists a, value (run git (h e) s w') = Ok a) ->
  exists a, value (run git (try_catch p h) this w) = Ok a.
Proof.
  intros Hh. rewrite run_try_catch. unfold or_else, prepend.
  destruct (run git p this w) as [s1 w1 e1 [a|e]]; cbn [value fields world events].
  - eexists; reflexivity.
  - apply Hh.
Qed.

End ShowsRuns.


(* ================================================================== *)
(** * Authentication and initialisation *)
(* ================================================================== *)

Lemma validateSSHKey_auth :
  only (fun o => is_auth_op o = true) no_assignment validateSSHKey.
Proof. unfold validateSSHKey. repeat only_step; reflexivity. Qed.

Lemma setupAuthentication_auth :
  only (fun o => is_auth_op o = true) no_assignment setupAuthentication.
Proof.
  unfold setupAuthentication.
  repeat first [ apply validateSSHKey_auth | only_step ]; reflexivity.
Qed.

Lemma setupAuthentication_silent : shows no_notice setupAuthentication.
Proof. unfold setupAuthentication, validateSSHKey. repeat shows_step. Qed.

Section Initialize.

Context {W : Type} (git : adapter W).

(** [setupAuthentication] returns, shows nothing and assigns nothing. *)
Lemma setupAuthentication_run (this : GitManager) (w : W) :
  exists b evs w',
    run git setupAuthentication this w = mkRan this w' evs (Ok b)
    /\ notices evs = []
    /\ Forall (fun o => is_auth_op o = true) (calls evs).
Proof.
  pose proof (only_keeps_fields git _ _ setupAuthentication_auth this w) as Hf.
  pose proof (only_calls git _ _ _ setupAuthentication_auth this w) as Hc.
  pose proof (silent_notices git _ setupAuthentication_silent this w) as Hn.
  assert (Hv : exists b, value (run git setupAuthentication this w) = Ok b).
  { unfold setupAuthentication. apply try_catch_returns.
    intros e s w'. eexists. reflexivity. }
  destruct Hv as [b Hv].
  destruct (run git setupAuthentication this w) as [s1 w1 e1 v1].
  cbn [fields events value] in *. subst. exists b, e1, w1. auto.
Qed.

End Initialize.

Lemma auth_calls_exclude (o : op) (evs : list event) :
  is_auth_op o = false ->
  Forall (fun o => is_auth_op o = true) (calls evs) -> ~ In o (calls evs).
Proof.
  intros Ho HF Hin. rewrite Forall_forall in HF. apply HF in Hin. congruence.
Qed.

Lemma auth_rejected_exclude (o : op) (e : JsError) (evs : list event) :
  is_auth_op o = false ->
  Forall (fun o => is_auth_op o = true) (calls evs) -> ~ In (o, e) (rejected evs).
Proof.
  intros Ho HF Hin. apply (rejected_calls _ _ HF) in Hin. congruence.
Qed.

(** A run is followed call by call: the program is evaluated up to its
    next call, and each of that call's answers is taken in turn. *)
Ltac walk_step :=
  first
    [ progress cbn [run bind try_catch after forEach observe negb
                    or_else and_then prepend answered fst snd List.app
                    fields world events value]
    | match goal with
      | |- context [run ?g setupAuthentication ?s ?w] =>
          let b := fresh "b" in let evs := fresh "evs" in let w' := fresh "w" in
          let Hn := fresh "Hn" in let Hc := fresh "Hc" in let Hr := fresh "Hr" in
          destruct (setupAuthentication_run g s w) as (b & evs & w' & Hr & Hn & Hc);
          rewrite Hr; clear Hr
      | |- context [run ?g (bind ?p ?f) ?s ?w] => rewrite (run_bind g p f s w)
      | |- context [run ?g (after ?p ?f) ?s ?w] => rewrite (run_after g p f s w)
      | |- context [run ?g (try_catch ?p ?h) ?s ?w] => rewrite (run_try_catch g p h s w)
      | |- context [match ?g ?o ?w with pair _ _ => _ end] =>
          let w' := fresh "w" in destruct (g o w) as [w' [?|?]] eqn:?
      | |- context [if ?b then _ else _] => destruct b eqn:?
      | |- context [match nonempty ?x with _ => _ end] => destruct (nonempty x) eqn:?
      end ].

Ltac walk := unfold call, notify, get, modify; repeat walk_step.

Ltac in_cases H :=
  cbn [calls rejected notices flat_map List.app] in H;
  repeat match type of H with
         | False => destruct H
         | _ \/ _ => destruct H as [H|H]
         | context [flat_map ?f (?a ++ ?b)] => rewrite (flat_map_app f a b) in H
         | context [flat_map _ (_ :: _)] => cbn [flat_map List.app] in H
         | context [flat_map _ []] => cbn [flat_map List.app] in H
         | In _ (_ ++ _) => apply in_app_or in H
         | In _ (_ :: _) => cbn [In] in H
         | In _ [] => destruct H
         | _ = _ => first [ discriminate H | inversion H; subst; clear H ]
         | In _ (flat_map _ ?evs) =>
             exfalso; revert H;
             first [ apply (auth_calls_exclude _ evs); [reflexivity | assumption]
                   | apply (auth_rejected_exclude _ _ evs); [reflexivity | assumption] ]
         end.

Section InitializeOutcome.

Context {W : Type} (git : adapter W).

Lemma initialize_outcome (this : GitManager) (w : W) :
  let r := run git initialize this w in
  (value r = Ok true /\ notices (events r) = [] /\ fields r = set_isInitialized true this)
  \/ (value r = Ok false /\ (exists n, notices (events r) = [n]) /\ fields r = this).
Proof.
  intros r. subst r. unfold initialize. walk.
  all: cbn [notices flat_map List.app]; rewrite ?notices_app, ?Hn;
    cbn [notices flat_map List.app].
  all: first [ left; repeat split; reflexivity
             | right; repeat split; eexists; reflexivity ].
Qed.

(** X1.  [initialize()] returns [true] without showing any notice, and then
    the manager is marked as initialised; or it returns [false] after
    exactly one notice, and then the manager is left as it was. *)
Theorem initialize_fails_with_notice (this : GitManager) (w : W) :
  let r := run git initialize this w in
  (value r = Ok true /\ notices (events r) = [] /\ fields r = set_isInitialized true this)
  \/ (value r = Ok false /\ (exists n, notices (events r) = [n]) /\ fields r = this).
Proof. exact (initialize_outcome this w). Qed.

(** X2.  [initialize()] calls [git init] exactly when [rev-parse --git-dir]
    was rejected with a message that says that the directory is not a
    repository: a repository that is there is never initialised anew, and
    another failure of [rev-parse] does not lead to [init]. *)
Theorem initialize_keeps_existing_repository (this : GitManager) (w : W) :
  let r := run git initialize this w in
  In GitInit (calls (events r))
  <-> exists e, In (GitRevparse ["--git-dir"], e) (rejected (events r))
                /\ not_a_repository e = true.
Proof.
  intros r. subst r. unfold initialize, not_a_repository. walk.
  all: split; [intros Hin | intros (e' & Hin & Hrep)]; in_cases Hin.
  all: try congruence.
  all: try (eexists; split; [left; reflexivity | assumption]).
  all: try (cbn [calls flat_map List.app]; right; left; reflexivity).
Qed.

Lemma commitAndPush_total (m : string) (fs : option (list string))
    (this : GitManager) (w : W) :
  exists b, value (run git (commitAndPush m fs) this w) = Ok b.
Proof.
  unfold commitAndPush. apply try_catch_returns. intros e s' w'. eexists. reflexivity.
Qed.

Lemma fullSync_total (m : string) (fs : option (list string))
    (this : GitManager) (w : W) :
  exists b, value (run git (fullSync m fs) this w) = Ok b.
Proof.
  unfold fullSync. apply try_catch_returns. intros e s' w'. run_go.
  eexists. reflexivity.
Qed.

Lemma resolveConflicts_total (s : strategy) (this : GitManager) (w : W) :
  exists b, value (run git (resolveConflicts s) this w) = Ok b.
Proof.
  unfold resolveConflicts. apply try_catch_returns. intros e s' w'.
  eexists. reflexivity.
Qed.

(** X3.  No method of the [GitManager] that the plugin awaits rejects,
    whatever the repository answers: [initialize], [pull], [commitAndPush],
    [fullSync], [getStatus], [resolveConflicts] and [abortMerge] all
    return. *)
Theorem gitManager_never_rejects (this : GitManager) (w : W) :
  (exists b, value (run git initialize this w) = Ok b)
  /\ (exists b, value (run git pull this w) = Ok b)
  /\ (forall m fs, exists b, value (run git (commitAndPush m fs) this w) = Ok b)
  /\ (forall m fs, exists b, value (run git (fullSync m fs) this w) = Ok b)
  /\ (exists s, value (run git getStatus this w) = Ok s)
  /\ (forall s, exists b, value (run git (resolveConflicts s) this w) = Ok b)
  /\ (exists b, value (run git abortMerge this w) = Ok b).
Proof.
  split; [apply initialize_total|]. split; [apply pull_total|].
  split; [intros; apply commitAndPush_total|].
  split; [intros; apply fullSync_total|].
  split; [|split; [intros; apply resolveConflicts_total|]];
    unfold getStatus, abortMerge; apply try_catch_returns; intros e s' w';
    eexists; reflexivity.
Qed.

End InitializeOutcome.

(* ================================================================== *)
(** * What a pull shows and what it leaves *)
(* ================================================================== *)

Lemma pull_check_remote_silent cfg : shows no_notice (pull_check_remote cfg).
Proof.
  unfold pull_check_remote.
  repeat first [ apply setupAuthentication_silent | shows_step ].
Qed.

Section PullOutcome.

Context {W : Type} (git : adapter W).

(** What precedes the fetch either goes on without a notice, or returns
    [false] after one. *)
Lemma pull_before_fetch_outcome (this : GitManager) (w : W) :
  let r := pull_before_fetch git this w in
  match value r with
  | Ok (Normal _) => notices (events r) = []
  | Ok (Return b) => b = false /\ exists pre n, events r = (pre ++ [Noticed n])%list
  | Err _ => True
  end.
Proof.
  intros r. subst r. unfold pull_before_fetch.
  assert (H1 : let r := run git pull_initialize this w in
               match value r with
               | Ok (Normal _) => notices (events r) = []
               | Ok (Return b) =>
                   b = false /\ exists pre n, events r = (pre ++ [Noticed n])%list
               | Err _ => True
               end).
  { unfold pull_initialize. run_go. destruct (isInitialized this); cbn [negb].
    - run_go. reflexivity.
    - rewrite run_bind.
      destruct (initialize_outcome git this w) as [(Hv & Hn & _)|(Hv & _ & _)];
        destruct (run git initialize this w) as [s1 w1 e1 v1];
        cbn [value events] in *; subst v1; run_go; cbn [negb]; run_go.
      + rewrite app_nil_r. exact Hn.
      + split; [reflexivity|]. exists e1, N_InitBeforePullFailed. reflexivity. }
  cbv zeta in H1.
  destruct (run git pull_initialize this w) as [s1 w1 e1 [[[]|b]|e]];
    cbn [value events] in H1; run_red; try exact I.
  2: { rewrite app_nil_r. exact H1. }
  assert (H2 : let r := run git (pull_check_merge (config s1)) s1 w1 in
               match value r with
               | Ok (Normal _) => notices (events r) = []
               | Ok (Return b) =>
                   b = false /\ exists pre n, events r = (pre ++ [Noticed n])%list
               | Err _ => True
               end).
  { unfold pull_check_merge. walk; cbn [value events]; try exact I; try reflexivity.
    split; [reflexivity|]. eexists [_; _], _. reflexivity. }
  cbv zeta in H2.
  destruct (run git (pull_check_merge (config s1)) s1 w1) as [s2 w2 e2 [[[]|b]|e]];
    cbn [value events] in H2; run_red; try exact I.
  2: { destruct H2 as (-> & pre & n & ->). split; [reflexivity|].
       exists (e1 ++ pre)%list, n. rewrite app_nil_r, app_assoc. reflexivity. }
  pose proof (silent_notices git _ (pull_check_remote_silent (config s1)) s2 w2) as H3.
  destruct (run git (pull_check_remote (config s1)) s2 w2) as [s3 w3 e3 [[]|e]];
    cbn [events] in H3; run_red; try exact I.
  rewrite app_nil_r, !notices_app, H1, H2, H3. reflexivity.
Qed.

(** The merge of lines 296-306, when it returns. *)
Lemma pull_merge_outcome (cfg : GitSyncConfig) (this : GitManager) (w : W) :
  let r := run git (pull_merge cfg) this w in
  match value r with
  | Ok b =>
      b = true
      /\ exists st,
           events r
           = (Called (GitPull "origin" (branch cfg) ["--no-rebase"]) (Ok tt)
              :: Called GitStatus (Ok st)
              :: (if (0 <? List.length (conflicted st))%nat
                  then [Noticed (N_PullConflicts (List.length (conflicted st)))]
                  else []))%list
  | Err _ => True
  end.
Proof.
  intros r. subst r. unfold pull_merge. walk; cbn [value events]; try exact I.
  all: split; [reflexivity|];
    match goal with
    | st : resp GitStatus, H : (0 <? _)%nat = _ |- _ => exists st; rewrite H
    end;
    cbn [resp] in *;
    repeat match goal with u : unit |- _ => destruct u end; reflexivity.
Qed.

(** A pull that returns [false] has shown a notice last.  A pull that
    returns [true] has ended with a [git pull --no-rebase] and a status query
    that both resolved, and has shown nothing but the notice of the
    conflicts that the status reports. *)
Lemma pull_outcome (this : GitManager) (w : W) :
  let r := run git pull this w in
  (value r = Ok false /\ exists pre n, events r = (pre ++ [Noticed n])%list)
  \/ (value r = Ok true
      /\ exists pre st,
           events r
           = (pre ++ Called (GitPull "origin" (branch (config this)) ["--no-rebase"]) (Ok tt)
                  :: Called GitStatus (Ok st)
                  :: (if (0 <? List.length (conflicted st))%nat
                      then [Noticed (N_PullConflicts (List.length (conflicted st)))]
                      else []))%list
           /\ notices pre = []).
Proof.
  intros r. subst r. rewrite pull_run.
  pose proof (pull_before_fetch_outcome this w) as HB. cbv zeta in HB.
  destruct (pull_before_fetch git this w) as [s1 w1 e1 [[[]|b0]|e0]];
    cbn [value events] in HB.
  - run_red. rewrite pull_fetch_run.
    assert (Hmerge :
      forall w2 a, notices [Called (GitFetch "origin" (branch (config this))) a] = [] ->
        let r := or_else (prepend e1 (prepend [Called (GitFetch "origin" (branch (config this))) a]
                            (run git (pull_merge (config this)) s1 w2)))
                   (fun e this' w' => run git (pull_failed e) this' w') in
        (value r = Ok false /\ exists pre n, events r = (pre ++ [Noticed n])%list)
        \/ (value r = Ok true
            /\ exists pre st,
                 events r
                 = (pre ++ Called (GitPull "origin" (branch (config this)) ["--no-rebase"])
                              (Ok tt)
                        :: Called GitStatus (Ok st)
                        :: (if (0 <? List.length (conflicted st))%nat
                            then [Noticed (N_PullConflicts (List.length (conflicted st)))]
                            else []))%list
                 /\ notices pre = [])).
    { intros w2 a _ r. subst r.
      pose proof (pull_merge_outcome (config this) s1 w2) as Hm. cbv zeta in Hm.
      destruct (run git (pull_merge (config this)) s1 w2) as [s3 w3 e3 [b3|e3']];
        cbn [value events] in Hm; unfold prepend; run_red.
      - destruct Hm as (-> & st & ->). right. split; [reflexivity|].
        exists (e1 ++ [Called (GitFetch "origin" (branch (config this))) a])%list, st.
        split; [rewrite <- app_assoc; reflexivity|].
        rewrite notices_app, HB. reflexivity.
      - destruct (pull_failed_run git e3' s3 w3) as [n Hn]. rewrite Hn. run_red.
        left. split; [reflexivity|].
        exists (e1 ++ Called (GitFetch "origin" (branch (config this))) a :: e3)%list, n.
        rewrite <- !app_assoc. reflexivity. }
    destruct (git (GitFetch "origin" (branch (config this))) w1) as [w2 [[]|ef]];
      cbn [fst snd].
    + apply Hmerge. reflexivity.
    + destruct (ref_not_found (errorMsgOf ef)); [|apply Hmerge; reflexivity].
      unfold prepend. run_red. left. split; [reflexivity|].
      exists (e1 ++ [Called (GitFetch "origin" (branch (config this))) (Err ef)])%list,
             (N_RemoteBranchNotFound (branch (config this))).
      rewrite <- app_assoc. reflexivity.
  - run_red. destruct HB as (-> & pre & n & ->). left. split; [reflexivity|].
    exists pre, n. rewrite app_nil_r. reflexivity.
  - run_red. destruct (pull_failed_run git e0 s1 w1) as [n Hn]. rewrite Hn. run_red.
    left. split; [reflexivity|]. exists e1, n. reflexivity.
Qed.

(** X4.  A pull that returns [false] has shown a notice last.  A pull
    that returns [true] has ended with a [git pull --no-rebase] and a status
    query that both resolved, and has shown nothing but the notice of the
    conflicts that this status reports. *)
Theorem pull_ends_with_notice_or_merge (this : GitManager) (w : W) :
  let r := run git pull this w in
  (value r = Ok false /\ exists pre n, events r = (pre ++ [Noticed n])%list)
  \/ (value r = Ok true
      /\ exists pre st,
           events r
           = (pre ++ Called (GitPull "origin" (branch (config this)) ["--no-rebase"]) (Ok tt)
                  :: Called GitStatus (Ok st)
                  :: (if (0 <? List.length (conflicted st))%nat
                      then [Noticed (N_PullConflicts (List.length (conflicted st)))]
                      else []))%list
           /\ notices pre = []).
Proof. exact (pull_outcome this w). Qed.

End PullOutcome.

(* ================================================================== *)
(** * What a commit and a cycle are made of *)
(* ================================================================== *)

Section CycleOutcome.

Context {W : Type} (git : adapter W).

Lemma commitAndPush_outcome
    (message : string) (files_ : option (list string)) (this : GitManager) (w : W) :
  let r := run git (commitAndPush message files_) this w in
  exists pre,
    Forall (fun o => is_setup_op o = true) (calls pre)
    /\ (isInitialized this = true -> pre = [])
    /\ ((exists e, events r = (pre ++ [Called GitStatus (Err e)])%list
                   /\ value r = Ok false)
        \/ exists st,
             let m := [trim (finalMessageOf message (listed files_ st))] in
             let b := branch (config this) in
             (files st = []
              /\ events r = (pre ++ [Called GitStatus (Ok st)])%list
              /\ value r = Ok true)
             \/ (files st <> []
                 /\ ((exists e,
                        events r = (pre ++ [Called GitStatus (Ok st);
                                            Called (GitAdd ["."]) (Err e)])%list
                        /\ value r = Ok false)
                     \/ (exists e,
                           events r = (pre ++ [Called GitStatus (Ok st);
                                               Called (GitAdd ["."]) (Ok tt);
                                               Called (GitCommit m) (Err e)])%list
                           /\ value r = Ok false)
                     \/ (exists a,
                           events r = (pre ++ [Called GitStatus (Ok st);
                                               Called (GitAdd ["."]) (Ok tt);
                                               Called (GitCommit m) (Ok tt);
                                               Called (GitPush "origin" b) a])%list
                           /\ value r = Ok (match a with Ok _ => true | Err _ => false end))))).
Proof.
  intros r. subst r. rewrite commitAndPush_run.
  destruct (commit_initialize_run git this w) as (Hv & Hc & Hk).
  assert (Hi : isInitialized this = true ->
               events (run git (if negb (isInitialized this)
                                then (initialize ;; Ret tt) else Ret tt) this w) = [])
    by (intros ->; reflexivity).
  destruct (run git (if negb (isInitialized this) then _ else _) this w)
    as [s1 w1 e1 v1]. cbn [value events fields] in Hv, Hc, Hk, Hi. subst v1. run_red.
  exists e1. split; [exact Hc|]. split; [exact Hi|].
  destruct (git GitStatus w1) as [w2 [st|e]] eqn:Hst; run_red.
  2: { left. exists e. rewrite app_nil_r. split; reflexivity. }
  right. exists st. cbv zeta. rewrite <- Hk.
  unfold commit_after_status.
  destruct (files st) as [|f fs] eqn:Hf; cbn [List.length Nat.eqb].
  - left. run_go. rewrite ?app_nil_r. repeat split; reflexivity.
  - right. split; [discriminate|]. cbv zeta.
    walk; cbn [resp] in *; repeat match goal with u : unit |- _ => destruct u end;
      rewrite ?app_nil_r.
    + right. right. eexists. split; reflexivity.
    + right. right. eexists. split; reflexivity.
    + right. left. eexists. split; reflexivity.
    + left. eexists. split; reflexivity.
Qed.

(** X5.  The steps of [commitAndPush], after the calls of [initialize()]
    if the manager was not initialised: a status query; when it is rejected
    the method returns [false]; when it reports no changed path the method
    returns [true] and calls nothing more; otherwise [add('.')], then the
    commit, then the push to [origin] and the branch of the configuration,
    each one only when the one before resolved, and the method returns
    [true] exactly when the push resolved. *)
Theorem commitAndPush_steps
    (message : string) (files_ : option (list string)) (this : GitManager) (w : W) :
  let r := run git (commitAndPush message files_) this w in
  exists pre,
    Forall (fun o => is_setup_op o = true) (calls pre)
    /\ (isInitialized this = true -> pre = [])
    /\ ((exists e, events r = (pre ++ [Called GitStatus (Err e)])%list
                   /\ value r = Ok false)
        \/ exists st,
             let m := [trim (finalMessageOf message (listed files_ st))] in
             let b := branch (config this) in
             (files st = []
              /\ events r = (pre ++ [Called GitStatus (Ok st)])%list
              /\ value r = Ok true)
             \/ (files st <> []
                 /\ ((exists e,
                        events r = (pre ++ [Called GitStatus (Ok st);
                                            Called (GitAdd ["."]) (Err e)])%list
                        /\ value r = Ok false)
                     \/ (exists e,
                           events r = (pre ++ [Called GitStatus (Ok st);
                                               Called (GitAdd ["."]) (Ok tt);
                                               Called (GitCommit m) (Err e)])%list
                           /\ value r = Ok false)
                     \/ (exists a,
                           events r = (pre ++ [Called GitStatus (Ok st);
                                               Called (GitAdd ["."]) (Ok tt);
                                               Called (GitCommit m) (Ok tt);
                                               Called (GitPush "origin" b) a])%list
                           /\ value r = Ok (match a with Ok _ => true | Err _ => false end))))).
Proof. exact (commitAndPush_outcome message files_ this w). Qed.

(** A cycle is a pull, then, when the pull returned [true], at most one
    status query, [commitAndPush] and a closing notice. *)
Lemma fullSync_run
    (commitMessage : string) (files_ : option (list string))
    (this : GitManager) (w : W) :
  let rp := run git pull this w in
  let r := run git (fullSync commitMessage files_) this w in
  (value rp = Ok false
   /\ events r = (events rp ++ [Noticed N_SyncPullFailed])%list
   /\ value r = Ok false)
  \/ (value rp = Ok true
      /\ exists mid cf w' b,
           let rc := run git (commitAndPush commitMessage cf) (fields rp) w' in
           Forall (fun o => o = GitStatus) (calls mid)
           /\ notices mid = []
           /\ value rc = Ok b
           /\ events r
              = (events rp ++ mid ++ events rc
                 ++ [Noticed (if b then N_SyncComplete else N_SyncPushFailed)])%list
           /\ value r = Ok b).
Proof.
  intros rp r. subst rp r. unfold fullSync.
  rewrite run_try_catch, run_bind.
  destruct (pull_total git this w) as [bp Hp].
  destruct (run git pull this w) as [s1 w1 e1 v1]. cbn [value events fields] in *.
  subst v1. run_red. destruct bp; cbn [negb].
  2: { left. run_go. rewrite ?app_nil_r. repeat split; reflexivity. }
  right. split; [reflexivity|].
  assert (Hcp : forall cf w', exists b,
               value (run git (commitAndPush commitMessage cf) s1 w') = Ok b)
    by (intros cf w'; apply commitAndPush_total).
  rewrite run_bind.
  destruct files_ as [fs|].
  - rewrite run_Ret. run_red. rewrite run_bind.
    destruct (Hcp (Some fs) w1) as [b Hb].
    exists [], (Some fs), w1, b. cbv zeta.
    destruct (run git (commitAndPush commitMessage (Some fs)) s1 w1) as [s2 w2 e2 v2].
    cbn [value events] in *. subst v2. run_red.
    destruct b; cbn [negb]; run_go; rewrite ?app_nil_r;
      repeat split; try reflexivity; constructor.
  - rewrite run_try_catch, run_bind, run_call.
    destruct (git GitStatus w1) as [w2 [st|e]]; run_go.
    + destruct (Hcp (Some (map path (files st))) w2) as [b Hb].
      exists [Called GitStatus (Ok st)], (Some (map path (files st))), w2, b. cbv zeta.
      destruct (run git (commitAndPush commitMessage _) s1 w2) as [s3 w3 e3 v3].
      cbn [value events] in *. subst v3. run_red.
      destruct b; cbn [negb]; run_go; rewrite ?app_nil_r;
        repeat split; try reflexivity; repeat constructor.
    + destruct (Hcp None w2) as [b Hb].
      exists [Called GitStatus (Err e)], None, w2, b. cbv zeta.
      destruct (run git (commitAndPush commitMessage None) s1 w2) as [s3 w3 e3 v3].
      cbn [value events] in *. subst v3. run_red.
      destruct b; cbn [negb]; run_go; rewrite ?app_nil_r;
        repeat split; try reflexivity; repeat constructor.
Qed.


(** X7.  Whatever a cycle stages, commits or pushes comes after a
    [git pull --no-rebase] that resolved. *)
Theorem fullSync_records_after_pull
    (commitMessage : string) (files_ : option (list string))
    (this : GitManager) (w : W) (o : op) :
  let r := run git (fullSync commitMessage files_) this w in
  In o (calls (events r)) -> records o = true ->
  exists pre post,
    events r
    = (pre ++ Called (GitPull "origin" (branch (config this)) ["--no-rebase"]) (Ok tt)
           :: post)%list
    /\ Forall (fun o => records o = false) (calls pre).
Proof.
  intros r Hin Hrec. subst r.
  pose proof (only_calls git _ _ _ pull_only this w) as Hpc.
  destruct (fullSync_run commitMessage files_ this w)
    as [(_ & Hev & _)|(Hp & mid & cf & w' & b & _ & _ & _ & Hev & _)];
    rewrite Hev in Hin |- *.
  - exfalso. rewrite calls_app in Hin. apply in_app_or in Hin.
    destruct Hin as [Hin|[]].
    rewrite Forall_forall in Hpc. apply Hpc in Hin. congruence.
  - destruct (pull_outcome git this w) as [(Hf & _)|(_ & pre & st & Hpe & _)];
      [congruence|].
    rewrite Hpe in Hpc. rewrite Hpe. rewrite <- app_assoc. cbn [List.app].
    exists pre. eexists. split; [reflexivity|].
    rewrite calls_app in Hpc. apply Forall_app in Hpc. tauto.
Qed.

End CycleOutcome.

(** A cycle on a repository with a changed note: the push comes after the
    pull. *)
Lemma fullSync_records_after_pull_witness :
  let w := Sample.mkRepo true (Some "main") [mkFile "notes.md"] [] [] None None [] 0 in
  let r := run Sample.git (fullSync "[Sync]" None) Sample.manager w in
  In (GitPush "origin" "main") (calls (events r))
  /\ exists pre post,
       events r
       = (pre ++ Called (GitPull "origin" "main" ["--no-rebase"]) (Ok tt) :: post)%list
       /\ Forall (fun o => records o = false) (calls pre).
Proof.
  intros w r.
  assert (Hin : In (GitPush "origin" "main") (calls (events r)))
    by (vm_compute; tauto).
  split; [exact Hin|].
  exact (fullSync_records_after_pull Sample.git "[Sync]" None Sample.manager w
           (GitPush "origin" "main") Hin eq_refl).
Defined.

(* ================================================================== *)
(** * A resolution that fails *)
(* ================================================================== *)

Section ResolutionOutcome.

Context {W : Type} (git : adapter W).



End ResolutionOutcome.

(* ================================================================== *)
(** * The plugin and its [GitManager] *)
(* ================================================================== *)

Lemma set_gitManager_same (this : MyPlugin) (g : GitManager) :
  gitManager this = Some g -> set_gitManager (Some g) this = this.
Proof. destruct this; cbn; intros ->; reflexivity. Qed.

Section PluginRuns.

Context {W : Type} (git : adapter W).

(** A method run on [this.gitManager] does what it does on the
    [GitManager], and the plugin keeps the object. *)
Lemma run_on_gitManager {A} (p : prog GitManager A) (this : MyPlugin)
    (g : GitManager) (w : W) :
  gitManager this = Some g ->
  run git (on_gitManager p) this w
  = mkRan (set_gitManager (Some (fields (run git p g w))) this)
          (world (run git p g w)) (events (run git p g w)) (value (run git p g w)).
Proof.
  revert this g w.
  induction p as [a|e|o k IH|n k IH|k IH|f k IH]; intros this g w Hg;
    cbn [on_gitManager run].
  - cbn. rewrite (set_gitManager_same _ _ Hg). reflexivity.
  - cbn. rewrite (set_gitManager_same _ _ Hg). reflexivity.
  - destruct (git o w) as [w' r]. rewrite (IH r this g w' Hg). reflexivity.
  - rewrite (IH this g w Hg). reflexivity.
  - rewrite Hg. apply IH. exact Hg.
  - rewrite (IH (set_gitManager (option_map f (gitManager this)) this) (f g) w).
    + destruct this. reflexivity.
    + rewrite Hg. reflexivity.
Qed.

Lemma run_gitManager_call {A} (p : prog GitManager A) (this : MyPlugin)
    (g : GitManager) (w : W) :
  gitManager this = Some g ->
  run git (gitManager_call p) this w
  = mkRan (set_gitManager (Some (fields (run git p g w))) this)
          (world (run git p g w)) (events (run git p g w)) (value (run git p g w)).
Proof.
  intros Hg. unfold gitManager_call. cbn [run]. rewrite Hg.
  apply run_on_gitManager. exact Hg.
Qed.

(** [initializeGit] on a plugin that holds a [GitManager] and whose URL
    passes the test: nothing is called. *)
Lemma initializeGit_with_manager (this : MyPlugin) (g : GitManager) (w : W) :
  gitManager this = Some g ->
  githubRepoUrl (settings this) <> "" ->
  MyPluginMethods.url_incomplete (trim (githubRepoUrl (settings this))) = false ->
  run git MyPluginMethods.initializeGit this w = mkRan this w [] (Ok true).
Proof.
  intros Hg Hne Hurl. unfold MyPluginMethods.initializeGit.
  rewrite run_try_catch, run_bind, run_get. run_red.
  apply String.eqb_neq in Hne. rewrite Hne, Hurl, Hg. reflexivity.
Qed.

(** [initializeGit] on a plugin without [GitManager] and whose URL passes
    the test: [simpleGit] is called on the vault.  When it throws, the
    [catch] of line 302 shows its notice and no object is kept; when it
    returns, the object is created, kept, and initialised. *)
Lemma initializeGit_creates (this : MyPlugin) (w : W) :
  gitManager this = None ->
  githubRepoUrl (settings this) <> "" ->
  MyPluginMethods.url_incomplete (trim (githubRepoUrl (settings this))) = false ->
  let cfg := MyPluginMethods.config_of (settings this) (vaultPath this) in
  let o := SimpleGit (repoPath cfg) (gitOptions cfg) in
  run git MyPluginMethods.initializeGit this w
  = match git o w with
    | (w0, Err e) =>
        mkRan this w0 [Called o (Err e); Noticed (N_InitFailedMain (errorMsgOf e))]
              (Ok false)
    | (w0, Ok u) =>
        let ri := run git initialize (mkGitManager cfg false) w0 in
        mkRan (set_gitManager (Some (fields ri)) this) (world ri)
              (Called o (Ok u) :: events ri) (value ri)
    end.
Proof.
  intros Hg Hne Hurl cfg o. subst o. unfold MyPluginMethods.initializeGit.
  rewrite run_try_catch, run_bind, run_get. run_red.
  apply String.eqb_neq in Hne. rewrite Hne, Hurl, Hg. fold cfg.
  unfold newGitManager. rewrite !run_bind, run_call.
  destruct (git (SimpleGit (repoPath cfg) (gitOptions cfg)) w) as [w0 [u|e]]; run_red.
  2: { run_go. reflexivity. }
  rewrite run_Ret. run_red. rewrite run_bind, run_modify. run_red. rewrite run_bind.
  rewrite (run_gitManager_call initialize
             (set_gitManager (Some (mkGitManager cfg false)) this)
             (mkGitManager cfg false) w0 eq_refl).
  destruct (initialize_total git (mkGitManager cfg false) w0) as [b Hb].
  destruct (run git initialize (mkGitManager cfg false) w0) as [s1 w1 e1 v1].
  cbn [value fields world events] in *. subst v1. run_red.
  destruct u.
  destruct b; cbn [negb]; rewrite run_Ret; unfold prepend; run_red;
    rewrite ?app_nil_r; destruct this; reflexivity.
Qed.

(** X9.  On a plugin without [GitManager] and with a complete URL,
    [initializeGit] first calls [simpleGit] on the path of the vault.  When
    that call throws (the directory is missing), the [catch] of
    [initializeGit] shows its notice with the message of the error, [false]
    is returned, nothing else is called and the plugin holds no
    [GitManager].  When it returns, the plugin keeps the [GitManager] it
    creates, also when [initialize()] returns [false]: the object then is not
    initialised. *)
Theorem initializeGit_keeps_manager (this : MyPlugin) (w : W) :
  gitManager this = None ->
  githubRepoUrl (settings this) <> "" ->
  MyPluginMethods.url_incomplete (trim (githubRepoUrl (settings this))) = false ->
  let cfg := MyPluginMethods.config_of (settings this) (vaultPath this) in
  let o := SimpleGit (repoPath cfg) (gitOptions cfg) in
  let r := run git MyPluginMethods.initializeGit this w in
  match snd (git o w) with
  | Err e =>
      events r = [Called o (Err e); Noticed (N_InitFailedMain (errorMsgOf e))]
      /\ value r = Ok false
      /\ gitManager (fields r) = None
  | Ok u =>
      exists gm b rest,
        events r = Called o (Ok u) :: rest
        /\ gitManager (fields r) = Some gm
        /\ config gm = cfg
        /\ value r = Ok b
        /\ isInitialized gm = b
  end.
Proof.
  intros Hg Hne Hurl cfg o r. subst r.
  rewrite (initializeGit_creates this w Hg Hne Hurl). fold cfg. fold o.
  destruct (git o w) as [w0 [u|e]]; cbn [snd fields value events].
  2: { repeat split. exact Hg. }
  pose proof (only_keeps_config git _ _ initialize_only (mkGitManager cfg false) w0) as Hk.
  destruct (initialize_outcome git (mkGitManager cfg false) w0)
    as [(Hv & _ & Hf)|(Hv & _ & Hf)]; rewrite Hv.
  - eexists _, true, _. repeat split; [exact Hk | rewrite Hf; reflexivity].
  - eexists _, false, _. repeat split; [exact Hk | rewrite Hf; reflexivity].
Qed.

End PluginRuns.

(** A plugin that has just been loaded, first in a directory that is a
    repository, then with a vault path that is not a directory. *)
Lemma initializeGit_keeps_manager_witness :
  let this := Sample.fresh Sample.settings in
  let o := SimpleGit "/vault" [] in
  (let r := run Sample.git MyPluginMethods.initializeGit this Sample.clean in
   exists gm b rest,
     events r = Called o (Ok tt) :: rest
     /\ gitManager (fields r) = Some gm
     /\ config gm = MyPluginMethods.config_of (settings this) (vaultPath this)
     /\ value r = Ok b
     /\ isInitialized gm = b)
  /\
  (let r := run Sample.git_without_directory MyPluginMethods.initializeGit this
                Sample.clean in
   events r = [Called o (Err Sample.missing_directory);
               Noticed (N_InitFailedMain
                          "Cannot use simple-git on a directory that does not exist")]
   /\ value r = Ok false
   /\ gitManager (fields r) = None).
Proof.
  intros this o. split.
  - refine (initializeGit_keeps_manager Sample.git this Sample.clean eq_refl _ eq_refl).
    discriminate.
  - refine (initializeGit_keeps_manager Sample.git_without_directory this Sample.clean
              eq_refl _ eq_refl).
    discriminate.
Defined.

Lemma setup_not_clock o : is_setup_op o = true -> is_clock o = false.
Proof. destruct o; cbn; congruence. Qed.

Lemma fullSync_no_clock (m : string) (fs : option (list string)) :
  only (fun o => is_clock o = false) keeps_config (fullSync m fs).
Proof.
  assert (Hs : forall A (p : prog GitManager A),
             only (fun o => is_setup_op o = true) keeps_config p ->
             only (fun o => is_clock o = false) keeps_config p).
  { intros A p. apply only_weaken; [exact setup_not_clock | auto]. }
  unfold fullSync, pull, pull_check_merge, pull_fetch, pull_merge, pull_failed,
         commitAndPush, commit_after_status.
  repeat first [ apply Hs; apply pull_initialize_only
               | apply Hs; apply pull_check_remote_only
               | apply Hs; apply initialize_only
               | only_step ]; reflexivity.
Qed.

Lemma now_answers_app (e1 e2 : list event) :
  now_answers (e1 ++ e2) = (now_answers e1 ++ now_answers e2)%list.
Proof. apply flat_map_app. Qed.

Lemma now_answers_cons (e : event) (evs : list event) :
  now_answers (e :: evs) = (now_answer e ++ now_answers evs)%list.
Proof. reflexivity. Qed.

Lemma now_answers_calls (evs : list event) :
  Forall (fun o => is_clock o = false) (calls evs) -> now_answers evs = [].
Proof.
  unfold now_answers.
  induction evs as [|[o r|n] evs IH]; cbn [calls flat_map List.app]; intros HF.
  - reflexivity.
  - inversion HF as [|? ? HP HF']; subst.
    rewrite (IH HF'). destruct o; try reflexivity. discriminate.
  - apply (IH HF).
Qed.

Section PerformSync.
Context {W : Type} (git : adapter W).

Lemma getStatus_run (g : GitManager) (w : W) :
  run git getStatus g w
  = mkRan g (fst (git GitStatus w)) [Called GitStatus (snd (git GitStatus w))]
          (Ok (match snd (git GitStatus w) with Ok st => Some st | Err _ => None end)).
Proof. unfold getStatus. walk; reflexivity. Qed.

(** Lines 323-333 of [performSync] on a plugin that holds a [GitManager]. *)
Lemma performSync_files (cf : option (list string)) (this : MyPlugin)
    (g : GitManager) (w : W) :
  gitManager this = Some g ->
  run git
    match cf with
    | Some _ => Ret cf
    | None =>
        try_catch
          (status <- gitManager_call getStatus ;;
           match status with
           | Some st => Ret (Some (map path (files st)))
           | None => Ret None
           end)
          (fun _ => Ret None)
    end this w
  = match cf with
    | Some _ => mkRan this w [] (Ok cf)
    | None =>
        mkRan this (fst (git GitStatus w)) [Called GitStatus (snd (git GitStatus w))]
              (Ok (paths_of (snd (git GitStatus w))))
    end.
Proof.
  intros Hg. destruct cf as [fs|]; [reflexivity|].
  rewrite run_try_catch, run_bind, (run_gitManager_call git getStatus this g w Hg).
  rewrite getStatus_run. cbn [fields world events value].
  rewrite (set_gitManager_same _ _ Hg).
  destruct (git GitStatus w) as [w1 [st|e]]; reflexivity.
Qed.

(** Lines 335-339 of [performSync]. *)
Lemma performSync_cycle (files_ : option (list string)) (this : MyPlugin)
    (g : GitManager) (w : W) :
  gitManager this = Some g ->
  run git
    (dateStr <- call DateLocaleString ;;
     this0 <- get ;;
     gitManager_call
       (fullSync (getCommitMessage (commitMessageTemplate (settings this0)) dateStr files_)
                 files_) ;;
     now <- call DateNow ;;
     modify (set_lastSyncTime now) ;; Ret tt) this w
  = match git DateLocaleString w with
    | (w1, Err e) => mkRan this w1 [Called DateLocaleString (Err e)] (Err e)
    | (w1, Ok dateStr) =>
        let rf := run git (fullSync (getCommitMessage
                                       (commitMessageTemplate (settings this))
                                       dateStr files_) files_) g w1 in
        let this1 := set_gitManager (Some (fields rf)) this in
        match git DateNow (world rf) with
        | (w2, Ok now) =>
            mkRan (set_lastSyncTime now this1) w2
                  (Called DateLocaleString (Ok dateStr) :: events rf
                   ++ [Called DateNow (Ok now)]) (Ok tt)
        | (w2, Err e) =>
            mkRan this1 w2
                  (Called DateLocaleString (Ok dateStr) :: events rf
                   ++ [Called DateNow (Err e)]) (Err e)
        end
    end.
Proof.
  intros Hg. rewrite run_bind, run_call.
  destruct (git DateLocaleString w) as [w1 [dateStr|e]]; run_red; [|reflexivity].
  rewrite run_bind, run_get. run_red. rewrite run_bind.
  rewrite (run_gitManager_call git _ this g w1 Hg). cbv zeta.
  set (m := getCommitMessage _ _ _).
  destruct (fullSync_total git m files_ g w1) as [b Hb].
  destruct (run git (fullSync m files_) g w1) as [s2 w2 e2 v2].
  cbn [value fields world events] in *. subst v2. run_red.
  rewrite run_bind, run_call.
  destruct (git DateNow w2) as [w3 [now|e]]; run_go; reflexivity.
Qed.

(** [performSync] on a plugin that holds a [GitManager]. *)
Lemma performSync_with_manager (source : string) (cf : option (list string))
    (this : MyPlugin) (g : GitManager) (w : W) :
  gitManager this = Some g ->
  run git (MyPluginMethods.performSync source cf) this w
  = let w0 := match cf with Some _ => w | None => fst (git GitStatus w) end in
    let evs0 := match cf with
                | Some _ => []
                | None => [Called GitStatus (snd (git GitStatus w))]
                end in
    let files_ := match cf with
                  | Some _ => cf
                  | None => paths_of (snd (git GitStatus w))
                  end in
    match git DateLocaleString w0 with
    | (w1, Err e) =>
        mkRan this w1
              (evs0 ++ [Called DateLocaleString (Err e); Noticed N_SyncFailedMain])
              (Ok tt)
    | (w1, Ok dateStr) =>
        let rf := run git (fullSync (getCommitMessage
                                       (commitMessageTemplate (settings this))
                                       dateStr files_) files_) g w1 in
        let this1 := set_gitManager (Some (fields rf)) this in
        match git DateNow (world rf) with
        | (w2, Ok now) =>
            mkRan (set_lastSyncTime now this1) w2
                  (evs0 ++ Called DateLocaleString (Ok dateStr) :: events rf
                   ++ [Called DateNow (Ok now)]) (Ok tt)
        | (w2, Err e) =>
            mkRan this1 w2
                  (evs0 ++ Called DateLocaleString (Ok dateStr) :: events rf
                   ++ [Called DateNow (Err e); Noticed N_SyncFailedMain]) (Ok tt)
        end
    end.
Proof.
  intros Hg. unfold MyPluginMethods.performSync.
  rewrite run_try_catch, run_after, run_bind, run_get. run_red. rewrite Hg.
  rewrite run_Ret. run_red. rewrite run_bind, run_get. run_red. rewrite Hg.
  rewrite run_bind, (performSync_files cf this g w Hg). cbv zeta.
  destruct cf as [fs|]; run_red; rewrite (performSync_cycle _ this g _ Hg); cbv zeta.
  - destruct (git DateLocaleString w) as [w1 [d|e]]; [|run_go; reflexivity].
    destruct (git DateNow _) as [w2 [now|e]]; run_go; unfold prepend; run_red;
      rewrite <- ?app_assoc, ?app_nil_r; reflexivity.
  - destruct (git GitStatus w) as [w0 a]. cbn [fst snd].
    destruct (git DateLocaleString w0) as [w1 [d|e]]; [|run_go; reflexivity].
    destruct (git DateNow _) as [w2 [now|e]]; run_go; unfold prepend; run_red;
      rewrite <- ?app_assoc, ?app_nil_r; reflexivity.
Qed.

(** X10.  Once the plugin holds a [GitManager], a cycle depends on the settings
    through the template of the commit message only: two plugins with the
    same [GitManager] and the same template make the same calls, whatever
    their other settings. *)
Theorem performSync_uses_config_of_manager
    (source : string) (cf : option (list string))
    (this this' : MyPlugin) (g : GitManager) (w : W) :
  gitManager this = Some g ->
  gitManager this' = Some g ->
  commitMessageTemplate (settings this) = commitMessageTemplate (settings this') ->
  let r := run git (MyPluginMethods.performSync source cf) this w in
  let r' := run git (MyPluginMethods.performSync source cf) this' w in
  events r = events r' /\ world r = world r' /\ value r = value r'
  /\ gitManager (fields r) = gitManager (fields r').
Proof.
  intros Hg Hg' Ht r r'. subst r r'.
  rewrite (performSync_with_manager source cf this g w Hg).
  rewrite (performSync_with_manager source cf this' g w Hg').
  cbv zeta. rewrite Ht.
  destruct (git DateLocaleString _) as [w1 [d|e]].
  - destruct (git DateNow _) as [w2 [now|e]]; cbn; repeat split; reflexivity.
  - cbn. rewrite Hg, Hg'. repeat split; reflexivity.
Qed.

(** X11.  A cycle that reaches [fullSync] records the time at which it ended,
    whether [fullSync] returned [true] or [false]; [Date.now()] is read once
    at most. *)
Theorem performSync_records_time
    (source : string) (cf : option (list string))
    (this : MyPlugin) (g : GitManager) (w : W) :
  gitManager this = Some g ->
  let r := run git (MyPluginMethods.performSync source cf) this w in
  match now_answers (events r) with
  | [] | [Err _] => lastSyncTime (fields r) = lastSyncTime this
  | [Ok now] => lastSyncTime (fields r) = now
  | _ => False
  end.
Proof.
  intros Hg r. subst r.
  rewrite (performSync_with_manager source cf this g w Hg). cbv zeta.
  assert (H0 : now_answers match cf with
                           | Some _ => []
                           | None => [Called GitStatus (snd (git GitStatus w))]
                           end = []) by (destruct cf; reflexivity).
  destruct (git DateLocaleString _) as [w1 [d|e]].
  - set (m := getCommitMessage _ _ _). set (fs := match cf with Some _ => cf | None => _ end).
    pose proof (now_answers_calls _ (only_calls git _ _ _ (fullSync_no_clock m fs) g w1))
      as Hf.
    destruct (git DateNow _) as [w2 [now|e]]; cbn [events fields];
      rewrite now_answers_app, H0; cbn [List.app];
      rewrite now_answers_cons, now_answers_app, Hf; reflexivity.
  - cbn [events fields]. rewrite now_answers_app, H0. reflexivity.
Qed.

End PerformSync.

(** The URL is emptied in the settings after the [GitManager] was created:
    the cycle is the same. *)
Lemma performSync_uses_config_of_manager_witness :
  let this' := mkPlugin (Sample.with_url "") "/vault" (Some Sample.manager) 0 None in
  let r := run Sample.git (MyPluginMethods.performSync "Manual sync" None)
               Sample.plugin Sample.clean in
  let r' := run Sample.git (MyPluginMethods.performSync "Manual sync" None)
                this' Sample.clean in
  events r = events r' /\ world r = world r' /\ value r = value r'
  /\ gitManager (fields r) = gitManager (fields r').
Proof.
  intros this'.
  exact (performSync_uses_config_of_manager Sample.git "Manual sync" None
           Sample.plugin this' Sample.manager Sample.clean eq_refl eq_refl eq_refl).
Defined.

(** A cycle on the sample repository. *)
Lemma performSync_records_time_witness :
  let r := run Sample.git (MyPluginMethods.performSync "Manual sync" None)
               Sample.plugin Sample.clean in
  match now_answers (events r) with
  | [] | [Err _] => lastSyncTime (fields r) = lastSyncTime Sample.plugin
  | [Ok now] => lastSyncTime (fields r) = now
  | _ => False
  end.
Proof.
  exact (performSync_records_time Sample.git "Manual sync" None
           Sample.plugin Sample.manager Sample.clean eq_refl).
Defined.

Lemma on_gitManager_calls {A} (P : op -> Prop) (Q : (GitManager -> GitManager) -> Prop)
    (p : prog GitManager A) :
  only P Q p -> only P any_assignment (on_gitManager p).
Proof.
  induction 1 as [a|e|o k HP _ IH|n k _ IH|k _ IH|f k _ _ IH]; cbn [on_gitManager].
  - constructor.
  - constructor.
  - constructor; [exact HP | exact IH].
  - constructor; exact IH.
  - constructor. intros this. destruct (gitManager this); [apply IH | constructor].
  - constructor; [exact I | exact IH].
Qed.

Lemma gitManager_call_calls {A} (P : op -> Prop) (Q : (GitManager -> GitManager) -> Prop)
    (p : prog GitManager A) :
  only P Q p -> only P any_assignment (gitManager_call p).
Proof.
  intros H. unfold gitManager_call. constructor. intros this.
  destruct (gitManager this); [eapply on_gitManager_calls; exact H | constructor].
Qed.

Lemma setup_not_integrates o : is_setup_op o = true -> integrates o = false.
Proof. destruct o; cbn; congruence. Qed.

Lemma setup_opening o : is_setup_op o = true -> is_opening_op o = true.
Proof. destruct o; cbn; congruence. Qed.

Lemma opening_records o : is_opening_op o = true -> records o = false.
Proof. destruct o; cbn; congruence. Qed.

Lemma opening_not_integrates o : is_opening_op o = true -> integrates o = false.
Proof. destruct o; cbn; congruence. Qed.

Lemma opening_not_push o : is_opening_op o = true -> is_push o = false.
Proof. destruct o; cbn; congruence. Qed.

Lemma initializeGit_setup :
  only (fun o => is_opening_op o = true) any_assignment MyPluginMethods.initializeGit.
Proof.
  unfold MyPluginMethods.initializeGit.
  repeat first [ eapply gitManager_call_calls;
                   refine (only_weaken _ _ _ _ _ _ _ initialize_only);
                   [exact setup_opening | intros f Hf; exact Hf]
               | only_step ]; first [exact I | reflexivity].
Qed.

Lemma commandPull_calls :
  only (fun o => records o = false) any_assignment MyPluginMethods.commandPull.
Proof.
  unfold MyPluginMethods.commandPull.
  repeat first
    [ refine (only_weaken _ _ _ _ _ _ _ initializeGit_setup);
        [exact opening_records | auto]
    | eapply gitManager_call_calls; apply pull_only
    | eapply gitManager_call_calls; unfold hasConflicts
    | only_step ]; try reflexivity; try exact I.
  Unshelve. all: exact keeps_config.
Qed.

Lemma commandPush_calls :
  only (fun o => integrates o = false) any_assignment MyPluginMethods.commandPush.
Proof.
  assert (Hi : only (fun o => integrates o = false) keeps_config initialize)
    by (refine (only_weaken _ _ _ _ _ _ _ initialize_only);
        [exact setup_not_integrates | auto]).
  unfold MyPluginMethods.commandPush.
  repeat first
    [ refine (only_weaken _ _ _ _ _ _ _ initializeGit_setup);
        [exact opening_not_integrates | auto]
    | eapply gitManager_call_calls; unfold getStatus, commitAndPush, commit_after_status
    | apply Hi
    | only_step ]; try reflexivity; try exact I.
  Unshelve. all: exact keeps_config.
Qed.

Lemma commandResolveConflicts_calls :
  only (fun o => integrates o = false /\ is_push o = false) any_assignment
       MyPluginMethods.commandResolveConflicts.
Proof.
  unfold MyPluginMethods.commandResolveConflicts.
  repeat first
    [ refine (only_weaken _ _ _ _ _ _ _ initializeGit_setup);
        [intros o Ho; split; [apply opening_not_integrates | apply opening_not_push];
         exact Ho
        | auto]
    | eapply gitManager_call_calls;
        unfold hasConflicts, resolveConflicts, getConflictedFiles
    | only_step ]; try (split; reflexivity); try exact I.
  Unshelve. all: exact keeps_config.
Qed.

Section Commands.

Context {W : Type} (git : adapter W).

(** X12.  What the three commands never do: the pull command stages, commits and
    pushes nothing; the push command neither fetches nor pulls; the command
    that resolves the conflicts neither fetches, pulls nor pushes. *)
Theorem commands_keep_to_their_part (this : MyPlugin) (w : W) :
  Forall (fun o => records o = false)
         (calls (events (run git MyPluginMethods.commandPull this w)))
  /\ Forall (fun o => integrates o = false)
            (calls (events (run git MyPluginMethods.commandPush this w)))
  /\ Forall (fun o => integrates o = false /\ is_push o = false)
            (calls (events (run git MyPluginMethods.commandResolveConflicts this w))).
Proof.
  split; [|split].
  - exact (only_calls git _ _ _ commandPull_calls this w).
  - exact (only_calls git _ _ _ commandPush_calls this w).
  - exact (only_calls git _ _ _ commandResolveConflicts_calls this w).
Qed.

(** X13.  When the status query is rejected, the command that resolves the
    conflicts reports that there is none. *)
Theorem resolve_command_after_failed_status
    (this : MyPlugin) (g : GitManager) (w w' : W) (e : JsError) :
  gitManager this = Some g ->
  git GitStatus w = (w', Err e) ->
  run git MyPluginMethods.commandResolveConflicts this w
  = mkRan this w' [Called GitStatus (Err e); Noticed N_NoConflicts] (Ok tt).
Proof.
  intros Hg Hst. unfold MyPluginMethods.commandResolveConflicts.
  rewrite run_bind, run_get. run_red. rewrite Hg, run_bind, run_Ret. run_red.
  rewrite run_bind, run_get. run_red. rewrite Hg, run_bind.
  rewrite (run_gitManager_call git hasConflicts this g w Hg).
  rewrite hasConflicts_run, Hst. cbn [fst snd fields world events value].
  rewrite (set_gitManager_same _ _ Hg). run_red. cbn [negb]. rewrite run_notify.
  reflexivity.
Qed.

End Commands.

(** The index is locked, and the status query is rejected. *)
Lemma resolve_command_after_failed_status_witness :
  let err := mkError "GitError" "fatal: Unable to create index.lock" in
  let w := Sample.mkRepo true (Some "main") [] ["notes.md"] [] None (Some err) [] 0 in
  run Sample.git MyPluginMethods.commandResolveConflicts Sample.plugin w
  = mkRan Sample.plugin w [Called GitStatus (Err err); Noticed N_NoConflicts] (Ok tt).
Proof.
  intros err w.
  exact (resolve_command_after_failed_status Sample.git Sample.plugin Sample.manager
           w w err eq_refl eq_refl).
Defined.

Section HandlersReturn.

Context {W : Type} (git : adapter W).

Lemma initializeGit_total (this : MyPlugin) (w : W) :
  exists b, value (run git MyPluginMethods.initializeGit this w) = Ok b.
Proof.
  unfold MyPluginMethods.initializeGit. apply try_catch_returns.
  intros e s w'. run_go. eexists. reflexivity.
Qed.

Lemma performSync_total (source : string) (cf : option (list string))
    (this : MyPlugin) (w : W) :
  exists u, value (run git (MyPluginMethods.performSync source cf) this w) = Ok u.
Proof.
  unfold MyPluginMethods.performSync. apply try_catch_returns.
  intros e s w'. run_go. eexists. reflexivity.
Qed.

(** A program that returns, followed by one that returns, returns. *)
Lemma bind_returns {S A B} (p : prog S A) (f : A -> prog S B) (this : S) (w : W) :
  (exists a, value (run git p this w) = Ok a) ->
  (forall a s w', exists b, value (run git (f a) s w') = Ok b) ->
  exists b, value (run git (bind p f) this w) = Ok b.
Proof.
  intros [a Ha] Hf. rewrite run_bind. unfold and_then, prepend. rewrite Ha.
  cbn [value]. apply Hf.
Qed.

Lemma gitManager_call_value {A} (p : prog GitManager A) (this : MyPlugin)
    (g : GitManager) (w : W) :
  gitManager this = Some g ->
  value (run git (gitManager_call p) this w) = value (run git p g w).
Proof. intros Hg. rewrite (run_gitManager_call git p this g w Hg). reflexivity. Qed.

Lemma gitManager_call_manager {A} (p : prog GitManager A) (this : MyPlugin)
    (g : GitManager) (w : W) :
  gitManager this = Some g ->
  gitManager (fields (run git (gitManager_call p) this w))
  = Some (fields (run git p g w)).
Proof. intros Hg. rewrite (run_gitManager_call git p this g w Hg). reflexivity. Qed.

Hypothesis now_answers_ok : forall w0, exists w1 t, git DateNow w0 = (w1, Ok t).
Hypothesis date_answers_ok : forall w0, exists w1 d, git DateLocaleString w0 = (w1, Ok d).

(** X14.  No handler of the plugin rejects, whatever the repository
    answers, as long as the clock answers: an error of the repository never
    leaves a handler as an unhandled rejection. *)
Theorem handlers_never_reject (h : Loop.handler) (this : MyPlugin) (w : W) :
  exists u, value (run git (Loop.body h) this w) = Ok u.
Proof.
  destruct h as [[| | | | |]|file]; cbn [Loop.body].
  - apply performSync_total.
  - unfold MyPluginMethods.onCreate. rewrite run_bind, run_get. run_red.
    destruct (_ && _); [|eexists; reflexivity].
    apply bind_returns; [apply initializeGit_total|].
    intros _ s w'. apply performSync_total.
  - unfold MyPluginMethods.onInterval. rewrite run_bind, run_get. run_red.
    destruct (_ && _); [|eexists; reflexivity].
    rewrite run_bind, run_call.
    destruct (now_answers_ok w) as (w1 & t & Ht). rewrite Ht. run_red.
    rewrite run_bind, run_get. run_red.
    destruct (_ <=? _)%Z; [|eexists; reflexivity].
    apply bind_returns; [apply initializeGit_total|].
    intros _ s w'. apply performSync_total.
  - unfold MyPluginMethods.commandPull. rewrite run_after.
    assert (H1 : exists c, value (run git
                 (this0 <- get;;
                  match gitManager this0 with
                  | Some _ => Ret (Normal tt)
                  | None =>
                      initialized <- MyPluginMethods.initializeGit;;
                      (if negb initialized
                       then notify N_NotConfigured;; Ret (Return tt)
                       else Ret (Normal tt))
                  end) this w) = Ok c).
    { rewrite run_bind, run_get. run_red.
      destruct (gitManager this); [eexists; reflexivity|].
      apply bind_returns; [apply initializeGit_total|].
      intros [|] s w'; cbn [negb]; run_go; eexists; reflexivity. }
    destruct H1 as [c H1]. unfold and_then, prepend. rewrite H1.
    destruct c as [[]|[]]; cbn [value]; [|eexists; reflexivity].
    set (s1 := fields _). set (w1 := world _).
    rewrite run_bind, run_get. run_red.
    destruct (gitManager s1) as [g|] eqn:Hg; [|rewrite run_notify; eexists; reflexivity].
    rewrite run_bind. unfold and_then, prepend.
    rewrite (gitManager_call_value pull s1 g w1 Hg).
    destruct (pull_total git g w1) as [b Hb]. rewrite Hb. cbn [value].
    destruct b; [|eexists; reflexivity].
    rewrite run_bind. unfold and_then, prepend.
    erewrite gitManager_call_value by (apply gitManager_call_manager; exact Hg).
    destruct (conflict_queries_total git (fields (run git pull g w1))
                (world (run git (gitManager_call pull) s1 w1))) as [[b Hb2] _].
    rewrite Hb2. cbn [value]. destruct b; cbn [negb]; run_go; eexists; reflexivity.
  - unfold MyPluginMethods.commandPush. rewrite run_bind, run_get. run_red.
    rewrite run_bind.
    assert (H1 : exists u, value (run git
                 match gitManager this with
                 | Some _ => Ret tt
                 | None => MyPluginMethods.initializeGit;; Ret tt
                 end this w) = Ok u).
    { destruct (gitManager this); [eexists; reflexivity|].
      apply bind_returns; [apply initializeGit_total|].
      intros _ s w'. eexists; reflexivity. }
    destruct H1 as [[] H1]. unfold and_then, prepend. rewrite H1. cbn [value].
    set (s1 := fields _). set (w1 := world _).
    rewrite run_bind, run_get. run_red.
    destruct (gitManager s1) as [g|] eqn:Hg; [|rewrite run_notify; eexists; reflexivity].
    rewrite run_bind.
    rewrite (performSync_files git None s1 g w1 Hg). run_red.
    rewrite run_bind, run_call.
    destruct (date_answers_ok (fst (git GitStatus w1))) as (w2 & d & Hd). rewrite Hd.
    run_red. rewrite run_bind, run_get. run_red. rewrite run_bind.
    unfold and_then, prepend. rewrite (gitManager_call_value _ s1 g w2 Hg).
    destruct (commitAndPush_total git
                (getCommitMessage (commitMessageTemplate (settings s1)) d
                   (paths_of (snd (git GitStatus w1))))
                (paths_of (snd (git GitStatus w1))) g w2) as [b Hb].
    rewrite Hb. cbn [value]. destruct b; run_go; eexists; reflexivity.
  - unfold MyPluginMethods.commandResolveConflicts. rewrite run_bind, run_get. run_red.
    rewrite run_bind.
    assert (H1 : exists u, value (run git
                 match gitManager this with
                 | Some _ => Ret tt
                 | None => MyPluginMethods.initializeGit;; Ret tt
                 end this w) = Ok u).
    { destruct (gitManager this); [eexists; reflexivity|].
      apply bind_returns; [apply initializeGit_total|].
      intros _ s w'. eexists; reflexivity. }
    destruct H1 as [[] H1]. unfold and_then, prepend. rewrite H1. cbn [value].
    set (s1 := fields _). set (w1 := world _).
    rewrite run_bind, run_get. run_red.
    destruct (gitManager s1) as [g|] eqn:Hg; [|rewrite run_notify; eexists; reflexivity].
    rewrite run_bind. unfold and_then, prepend.
    rewrite (gitManager_call_value hasConflicts s1 g w1 Hg).
    destruct (conflict_queries_total git g w1) as [[b Hb] _]. rewrite Hb. cbn [value].
    destruct b; cbn [negb]; [|rewrite run_notify; eexists; reflexivity].
    rewrite run_bind. unfold and_then, prepend.
    erewrite gitManager_call_value by (apply gitManager_call_manager; exact Hg).
    destruct (resolveConflicts_total git ours (fields (run git hasConflicts g w1))
                (world (run git (gitManager_call hasConflicts) s1 w1))) as [b Hb2].
    rewrite Hb2. cbn [value]. destruct b; rewrite run_notify; eexists; reflexivity.
  - unfold MyPluginMethods.onSaveTimeout.
    apply bind_returns; [apply initializeGit_total|].
    intros _ s w'. apply performSync_total.
Qed.

End HandlersReturn.

(** The push command on the sample repository. *)
Lemma handlers_never_reject_witness :
  exists u,
    value (run Sample.git (Loop.body (Loop.OnTrigger Loop.PushCommand))
               Sample.plugin Sample.clean) = Ok u.
Proof.
  refine (handlers_never_reject Sample.git _ _ (Loop.OnTrigger Loop.PushCommand)
            Sample.plugin Sample.clean);
    intros w0; eexists; eexists; reflexivity.
Defined.

(* ================================================================== *)
(** * The cycle that a burst of saves starts *)
(* ================================================================== *)

Section SaveCycle.

Import Loop Timing.

Context {W : Type} (git : adapter W).

(** The callback of the timeout is [initializeGit], whose result is not
    looked at, and then [performSync] with the one path of the file. *)
Lemma onSaveTimeout_run (file : TFile) (this : MyPlugin) (w : W) :
  let ri := run git MyPluginMethods.initializeGit this w in
  run git (MyPluginMethods.onSaveTimeout file) this w
  = prepend (events ri)
      (run git (MyPluginMethods.performSync (save_source file) (Some [filePath_of file]))
           (fields ri) (world ri)).
Proof.
  intros ri. subst ri. unfold MyPluginMethods.onSaveTimeout. rewrite run_bind.
  destruct (initializeGit_total git this w) as [b Hb].
  unfold and_then. rewrite Hb. reflexivity.
Qed.

(** [performSync] with the paths [fs] on a plugin that holds a
    [GitManager]: the date is read, [fullSync] runs with these paths and
    with the message built from them, and the time is read. *)
Lemma performSync_paths_cycle (source : string) (fs : list string)
    (this : MyPlugin) (g : GitManager) (w w1 : W) (d : string) :
  gitManager this = Some g ->
  git DateLocaleString w = (w1, Ok d) ->
  let rf := run git (fullSync (getCommitMessage (commitMessageTemplate (settings this))
                                                d (Some fs)) (Some fs)) g w1 in
  exists post,
    events (run git (MyPluginMethods.performSync source (Some fs)) this w)
    = (Called DateLocaleString (Ok d) :: events rf ++ post)%list
    /\ calls post = [DateNow]
    /\ gitManager (fields (run git (MyPluginMethods.performSync source (Some fs)) this w))
       = Some (fields rf).
Proof.
  intros Hg Hd rf. subst rf.
  rewrite (performSync_with_manager git source (Some fs) this g w Hg). cbv zeta.
  rewrite Hd.
  destruct (git DateNow _) as [w2 [now|e]]; cbn [events fields List.app];
    eexists; (split; [reflexivity|]); split; reflexivity.
Qed.

(** [performSync] on a plugin without [GitManager] ends when its
    [initializeGit] returns [false]: nothing else is called or shown. *)
Lemma performSync_not_initialized (source : string) (cf : option (list string))
    (this : MyPlugin) (w : W) :
  gitManager this = None ->
  let ri := run git MyPluginMethods.initializeGit this w in
  value ri = Ok false ->
  run git (MyPluginMethods.performSync source cf) this w
  = mkRan (fields ri) (world ri) (events ri) (Ok tt).
Proof.
  intros Hnone ri Hv. subst ri. unfold MyPluginMethods.performSync.
  rewrite run_try_catch, run_after, run_bind, run_get. run_red.
  rewrite Hnone. rewrite run_bind.
  destruct (run git MyPluginMethods.initializeGit this w) as [s1 w1 e1 v1].
  cbn [value] in Hv. subst v1. run_red. cbn [negb]. rewrite run_Ret.
  cbv [or_else and_then prepend value fields world events].
  cbn [List.app]. rewrite !app_nil_r. reflexivity.
Qed.

(** A handler leaves the settings as they are. *)
Lemma run_keeps_settings {A} (P : op -> Prop) (p : prog MyPlugin A) :
  only P keeps_debounce p ->
  forall this w, settings (fields (run git p this w)) = settings this.
Proof.
  induction 1 as [a|e|o k _ _ IH|n k _ IH|k _ IH|f k Hf _ IH]; intros this w; simpl.
  - reflexivity.
  - reflexivity.
  - destruct (git o w) as [w' r]. apply IH.
  - apply IH.
  - apply IH.
  - rewrite IH. apply Hf.
Qed.

(** C8, as the code has it.  Saving is enabled and a repository URL is set.
    In a burst of saves in which every save but the last is followed by
    another one less than 2000 ms later, and the last one by 2000 ms or more
    without a save, the timeout callback is started exactly once whatever
    else happens meanwhile, and it is that of the last file saved.

    That callback runs [initializeGit] and then [performSync] with the one
    path of that file.  When the plugin holds a [GitManager] once
    [initializeGit] has run, one cycle follows: the date is read, [fullSync]
    runs with that path and with the message built from it, and the time is
    read.  When the plugin then holds none and the [initializeGit] of
    [performSync] returns [false] too, the callback ends there: what was
    called and shown is what the two [initializeGit] called and showed, and
    no cycle is run. *)
Theorem debounce_runs_last_save
    (s : MyPluginSettings) (vault : string) (w : W) (before : list input)
    (saves : list (TFile * list input)) (last_file : TFile) (last_seg : list input) :
  autoSyncOnSave s = true ->
  githubRepoUrl s <> "" ->
  Forall (fun p => Forall quiet (snd p) /\ elapsed (snd p) < debounce_ms) saves ->
  Forall quiet last_seg ->
  debounce_ms <= elapsed last_seg ->
  let st := steps git (boot s vault w) before in
  let st' := steps git st (burst saves ++ Saved last_file :: last_seg) in
  let fs := [filePath_of last_file] in
  (saves_started st' = (saves_started st ++ [OnSaveTimeout last_file])%list
   /\ timers st' = [])
  /\ forall this w0,
       let ri := run git MyPluginMethods.initializeGit this w0 in
       let r := run git (body (OnSaveTimeout last_file)) this w0 in
       (forall g w1 d,
          gitManager (fields ri) = Some g ->
          git DateLocaleString (world ri) = (w1, Ok d) ->
          let rf := run git (fullSync (getCommitMessage
                                         (commitMessageTemplate (settings this))
                                         d (Some fs)) (Some fs)) g w1 in
          exists post,
            events r
            = (events ri ++ Called DateLocaleString (Ok d) :: events rf ++ post)%list
            /\ calls post = [DateNow]
            /\ gitManager (fields r) = Some (fields rf))
       /\ (gitManager (fields ri) = None ->
           let ri2 := run git MyPluginMethods.initializeGit (fields ri) (world ri) in
           value ri2 = Ok false ->
           r = mkRan (fields ri2) (world ri2) (events ri ++ events ri2)%list (Ok tt)).
Proof.
  intros Hon Hurl Hall Hq Hel st st' fs.
  split.
  { exact (LoopFacts.debounce_starts_last_callback git s vault w before saves
             last_file last_seg Hon Hurl Hall Hq Hel). }
  intros this w0 ri r. subst r. cbn [body].
  rewrite (onSaveTimeout_run last_file this w0). fold ri. fold fs.
  split.
  - intros g w1 d Hg Hd.
    destruct (performSync_paths_cycle (save_source last_file) fs (fields ri) g
                (world ri) w1 d Hg Hd) as (post & Hev & Hpost & Hgm).
    assert (Hs : settings (fields ri) = settings this)
      by exact (run_keeps_settings _ _ initializeGit_only this w0).
    rewrite Hs in Hev, Hgm.
    exists post. unfold prepend. cbn [events fields]. rewrite Hev.
    split; [reflexivity|]. split; [exact Hpost | exact Hgm].
  - intros Hnone Hv.
    rewrite (performSync_not_initialized (save_source last_file) (Some fs)
               (fields ri) (world ri) Hnone Hv).
    reflexivity.
Qed.

End SaveCycle.

(** Three saves in a row, and a manual sync in between; the callback of
    the last save on a plugin that holds its [GitManager]. *)
Lemma debounce_runs_last_save_witness :
  let a := mkTFile "a.md" "a.md" in
  let b := mkTFile "b.md" "b.md" in
  let c := mkTFile "notes/c.md" "c.md" in
  let st' :=
    Loop.steps Sample.git (Loop.boot Sample.settings "/vault" Sample.clean)
      (Loop.burst [(a, [Loop.Elapse 500]);
                   (b, [Loop.Trigger Loop.Manual; Loop.Elapse 1999])]
       ++ Loop.Saved c :: [Loop.Elapse 2000]) in
  let d := "02/11/2026, 19:52:03" in
  let r := run Sample.git (Loop.body (Loop.OnSaveTimeout c)) Sample.plugin Sample.clean in
  let rf := run Sample.git
                (fullSync (getCommitMessage "[Sync] {date}{files}" d (Some ["notes/c.md"]))
                          (Some ["notes/c.md"]))
                Sample.manager Sample.clean in
  (Timing.saves_started st' = [Loop.OnSaveTimeout c] /\ Loop.timers st' = [])
  /\ exists post,
       events r = (Called DateLocaleString (Ok d) :: events rf ++ post)%list
       /\ calls post = [DateNow]
       /\ gitManager (fields r) = Some (fields rf).
Proof.
  intros a b c st' d r rf.
  assert (H : Forall (fun p => Forall Loop.quiet (snd p)
                               /\ Loop.elapsed (snd p) < Loop.debounce_ms)
                     [(a, [Loop.Elapse 500]);
                      (b, [Loop.Trigger Loop.Manual; Loop.Elapse 1999])])
    by (repeat constructor; cbn; unfold Loop.debounce_ms; lia).
  destruct (debounce_runs_last_save Sample.git Sample.settings "/vault"
              Sample.clean []
              [(a, [Loop.Elapse 500]); (b, [Loop.Trigger Loop.Manual; Loop.Elapse 1999])]
              c [Loop.Elapse 2000] eq_refl ltac:(discriminate) H
              ltac:(repeat constructor)
              ltac:(cbn; unfold Loop.debounce_ms; lia))
    as (Hone & Hcallback).
  split; [exact Hone|].
  exact (proj1 (Hcallback Sample.plugin Sample.clean)
           Sample.manager Sample.clean d eq_refl eq_refl).
Defined.

(** The claim as it is written fails when the plugin cannot get a
    [GitManager].  The URL of the settings stops at the user's name, with a
    slash at its end, and saving is enabled: after three saves the callback
    of the last one has run to its end, [initializeGit] has shown its notice
    twice (once for the callback, once for [performSync]), and nothing was
    called on the repository: no cycle was executed. *)
Lemma saves_without_cycle :
  let a := mkTFile "a.md" "a.md" in
  let b := mkTFile "b.md" "b.md" in
  let c := mkTFile "notes/c.md" "c.md" in
  let s := Sample.with_url "https://github.com/user/" in
  let st' :=
    Loop.steps Sample.git (Loop.boot s "/vault" Sample.clean)
      (Loop.burst [(a, [Loop.Elapse 500]); (b, [Loop.Elapse 1999])]
       ++ Loop.Saved c :: [Loop.Elapse 2000]) in
  autoSyncOnSave s = true
  /\ Loop.started st' = [Loop.OnSaveTimeout c]
  /\ Loop.tasks st' = []
  /\ Loop.seen st' = [Noticed N_UrlIncompleteMain; Noticed N_UrlIncompleteMain]
  /\ gitManager (Loop.plugin st') = None
  /\ Loop.repo st' = Sample.clean.
Proof. vm_compute. repeat split. Qed.

Module UnloadFacts.

Import Loop Timing LoopFacts.

Section WithAdapter.

Context {W : Type} (git : adapter W).

(** X15.  At most one timeout is pending in any state the plugin reaches, and it
    is the one whose identifier the plugin holds. *)
Theorem one_timeout_pending (s : MyPluginSettings) (vault : string) (w : W)
    (ins : list input) :
  let st := steps git (boot s vault w) ins in
  timers st = []
  \/ exists id d f,
       timers st = [mkTimer id d f]
       /\ syncDebounceTimer (plugin st) = Some id
       /\ clock st < d.
Proof.
  intros st. subst st.
  destruct (steps_invariant git ins _ (boot_invariant s vault w)) as [[_ Ht] _].
  destruct Ht as [Ht|(d & f & id & H)]; [left; exact Ht | right; eauto].
Qed.

Lemma onunload_clears (st : state W) :
  invariant st ->
  timers (onunload st) = []
  /\ tasks (onunload st) = tasks st
  /\ started (onunload st) = started st
  /\ plugin (onunload st) = plugin st.
Proof.
  intros [_ Ht]. unfold onunload.
  destruct Ht as [Ht|(d & f & id & Ht & Hid & _)].
  - destruct (syncDebounceTimer (plugin st)); cbn; rewrite ?Ht; auto.
  - rewrite Hid, Ht. cbn. rewrite Nat.eqb_refl. auto.
Qed.

(** X16.  Unloading the plugin clears the timeout that a save has set: whatever
    time passes afterwards and whatever else happens, short of another save,
    no callback of a save starts.  The handlers that are under way are not
    stopped. *)
Theorem unload_cancels_pending_save (s : MyPluginSettings) (vault : string) (w : W)
    (before after : list input) :
  Forall quiet after ->
  let st := steps git (boot s vault w) before in
  let st' := steps git (onunload st) after in
  tasks (onunload st) = tasks st
  /\ timers st' = []
  /\ saves_started st' = saves_started st.
Proof.
  intros Hq st st'. subst st'.
  destruct (steps_invariant git before _ (boot_invariant s vault w)) as [Hinv _].
  fold st in Hinv.
  destruct (onunload_clears st Hinv) as (Ht & Htk & Hst & Hp).
  split; [exact Htk|].
  destruct (steps_idle git after (onunload st) Hq Ht) as (Ht' & Hs' & _).
  { rewrite Htk. exact (proj1 Hinv). }
  split; [exact Ht'|]. rewrite Hs'. unfold saves_started. rewrite Hst. reflexivity.
Qed.

(** X17.  With the synchronisation on save switched off, or without a repository
    URL, a save sets no timeout and no callback of a save ever starts. *)
Theorem saves_ignored_when_disabled (s : MyPluginSettings) (vault : string) (w : W)
    (ins : list input) :
  autoSyncOnSave s = false \/ githubRepoUrl s = "" ->
  let st := steps git (boot s vault w) ins in
  timers st = [] /\ saves_started st = [].
Proof.
  intros Hoff st. subst st.
  assert (H : forall ins st,
             settings (plugin st) = s -> timers st = [] ->
             Forall task_ok (tasks st) ->
             timers (steps git st ins) = []
             /\ saves_started (steps git st ins) = saves_started st).
  { clear ins. induction ins as [|i ins IH]; intros st Hs Ht Hok; [auto|].
    rewrite steps_cons.
    assert (Hi : timers (step git st i) = []
                 /\ saves_started (step git st i) = saves_started st
                 /\ settings (plugin (step git st i)) = s
                 /\ Forall task_ok (tasks (step git st i))).
    { destruct i as [t|file|ms|n].
      - destruct (step_idle git st (Trigger t) I Ht Hok) as (H1 & H2 & [H3 _] & H4).
        repeat split; auto. congruence.
      - cbn [step]. unfold onModify. rewrite Hs.
        assert (Hc : autoSyncOnSave s && negb (githubRepoUrl s =? "") = false).
        { destruct Hoff as [->| ->]; [reflexivity|]. apply andb_false_r. }
        rewrite Hc. auto.
      - destruct (step_idle git st (Elapse ms) I Ht Hok) as (H1 & H2 & [H3 _] & H4).
        repeat split; auto. congruence.
      - destruct (step_idle git st (Complete n) I Ht Hok) as (H1 & H2 & [H3 _] & H4).
        repeat split; auto. congruence. }
    destruct Hi as (H1 & H2 & H3 & H4).
    destruct (IH _ H3 H1 H4) as [H5 H6]. split; [exact H5 | congruence]. }
  apply (H ins (boot s vault w)); [reflexivity | reflexivity | constructor].
Qed.

End WithAdapter.

End UnloadFacts.

(** A note is saved, the plugin is unloaded, and five seconds pass. *)
Lemma unload_cancels_pending_save_witness :
  let a := mkTFile "a.md" "a.md" in
  let st := Loop.steps Sample.git (Loop.boot Sample.settings "/vault" Sample.clean)
                       [Loop.Saved a] in
  let st' := Loop.steps Sample.git (onunload st) [Loop.Elapse 5000] in
  Loop.tasks (onunload st) = Loop.tasks st
  /\ Loop.timers st' = []
  /\ Timing.saves_started st' = Timing.saves_started st.
Proof.
  intros a.
  refine (UnloadFacts.unload_cancels_pending_save Sample.git Sample.settings "/vault"
            Sample.clean [Loop.Saved a] [Loop.Elapse 5000] _).
  repeat constructor.
Defined.

(** The synchronisation on save is switched off, and a note is saved. *)
Lemma saves_ignored_when_disabled_witness :
  let s := mkSettings "https://github.com/user/notes.git" "main" "Obsidian User"
                      "user@example.com" "ghp_token" false "~/.ssh/id_rsa" "" true false
                      "[Sync] {date}{files}" 30 in
  let st := Loop.steps Sample.git (Loop.boot s "/vault" Sample.clean)
                       [Loop.Saved (mkTFile "a.md" "a.md"); Loop.Elapse 5000] in
  Loop.timers st = [] /\ Timing.saves_started st = [].
Proof.
  intros s.
  refine (UnloadFacts.saves_ignored_when_disabled Sample.git s "/vault" Sample.clean
            [Loop.Saved (mkTFile "a.md" "a.md"); Loop.Elapse 5000] _).
  left. reflexivity.
Defined.

Section UrlFacts.

Lemma find_first_absent (pat s : string) :
  includes s pat = false -> find_first pat s = None.
Proof.
  induction s as [|c s IH]; cbn [includes find_first]; intros H;
    apply orb_false_elim in H; destruct H as [Hp Hi]; rewrite Hp; [reflexivity|].
  rewrite (IH Hi). reflexivity.
Qed.

(** [replace] leaves a string without the pattern as it is. *)
Lemma replace_absent (pat rep s : string) :
  includes s pat = false -> replace pat rep s = s.
Proof. intros H. unfold replace. rewrite (find_first_absent _ _ H). reflexivity. Qed.

Lemma with_token_github (tok rest : string) :
  includes tok "$" = false ->
  with_token tok ("https://github.com/" ++ rest)
  = "https://x-access-token:" ++ tok ++ "@github.com/" ++ rest.
Proof.
  intros Htok. unfold with_token.
  assert (Hrep : includes ("https://x-access-token:" ++ tok ++ "@github.com/") "$" = false)
    by (rewrite !includes_char_app, Htok; reflexivity).
  etransitivity;
    [exact (replace_at "https://github.com" "/" _ "" rest eq_refl Hrep)|].
  cbn [append]. rewrite !append_assoc. reflexivity.
Qed.

(** A string without the separator is one part. *)
Lemma split_without (c : ascii) (s : string) :
  includes s (String c "") = false -> split c s = [s].
Proof.
  induction s as [|a s IH]; [reflexivity|].
  rewrite includes_char_cons. intros H. apply orb_false_elim in H.
  destruct H as [Hca Hs]. cbn [split]. rewrite Ascii.eqb_sym, Hca, (IH Hs). reflexivity.
Qed.

(** The parts of a string start with a part that is not empty when the
    string does not start with the separator. *)
Lemma split_head (c a : ascii) (s : string) :
  Ascii.eqb a c = false -> exists x xs, split c (String a s) = String a x :: xs.
Proof.
  intros H. cbn [split]. rewrite H. destruct (split c s) as [|x xs]; eauto.
Qed.

Lemma slice_from_length_app (p s : string) :
  slice_from (String.length p) (p ++ s) = s.
Proof. induction p as [|a p IH]; [reflexivity | exact IH]. Qed.

(** Whether a string that is not empty ends with [c] does not depend on
    what comes before it. *)
Lemma endsWith_app_char (p s : string) (c : ascii) :
  s <> "" -> endsWith (p ++ s) (String c "") = endsWith s (String c "").
Proof.
  intros Hs. unfold endsWith. rewrite length_append. cbn [String.length].
  destruct s as [|a s]; [congruence|]. cbn [String.length].
  replace (1 <=? String.length p + S (String.length s))%nat with true
    by (symmetry; apply Nat.leb_le; lia).
  cbn [Nat.leb andb].
  replace (String.length p + S (String.length s) - 1)
    with (String.length p + String.length s) by lia.
  replace (S (String.length s) - 1) with (String.length s) by lia.
  f_equal. clear. induction p as [|b p IH]; [reflexivity|].
  cbn [String.length Nat.add append slice_from]. exact IH.
Qed.

Lemma url_incomplete_slash (url : string) :
  GitManagerMethods.url_incomplete url = endsWith url "/" || negb (includes url "/").
Proof.
  unfold GitManagerMethods.url_incomplete.
  destruct (includes url "/") eqn:E; cbn [negb andb]; [reflexivity|].
  rewrite (split_without "/" url E). reflexivity.
Qed.

(** X18.  The test of [initialize()] on the URL rejects the URLs that end
    with a slash and those without any slash, and no other: a URL without
    slash is one part, fewer than three, and a URL with a slash is never
    counted. *)
Theorem initialize_url_test (url : string) :
  GitManagerMethods.url_incomplete url = endsWith url "/" || negb (includes url "/").
Proof. exact (url_incomplete_slash url). Qed.

(** X19.  Both tests on the URL accept [https://github.com/] followed by anything
    that neither starts nor ends with a slash: the name of an owner alone is
    enough, a repository need not be named. *)
Theorem url_tests_accept_owner_alone (a : ascii) (rest : string) :
  Ascii.eqb a "/" = false ->
  endsWith (String a rest) "/" = false ->
  let url := "https://github.com/" ++ String a rest in
  MyPluginMethods.url_incomplete url = false
  /\ GitManagerMethods.url_incomplete url = false.
Proof.
  intros Ha Hend url. subst url.
  assert (He : endsWith ("https://github.com/" ++ String a rest) "/" = false)
    by (rewrite endsWith_app_char by discriminate; exact Hend).
  split.
  - unfold MyPluginMethods.url_incomplete. rewrite He. cbn [orb].
    destruct (split_head "/" a rest Ha) as (x & xs & Hx).
    remember (String a rest) as tl eqn:Htl.
    cbn [append split Ascii.eqb Bool.eqb]. rewrite Hx.
    cbn [filter String.eqb negb List.length]. rewrite Htl in Hx.
    destruct (filter _ xs); cbn; apply andb_false_r.
  - rewrite url_incomplete_slash, He. cbn [orb].
    rewrite (includes_app_l "https://github.com/" _ "/" eq_refl). reflexivity.
Qed.

End UrlFacts.

(** The URL of an owner, without a repository. *)
Lemma url_tests_accept_owner_alone_witness :
  MyPluginMethods.url_incomplete "https://github.com/user" = false
  /\ GitManagerMethods.url_incomplete "https://github.com/user" = false.
Proof. exact (url_tests_accept_owner_alone "u" "ser" eq_refl eq_refl). Defined.

Section TokenRemote.

Context {W : Type} (git : adapter W).

(** X20.  With a token and without SSH, [setupAuthentication] writes the token
    into the URL of the remote [origin]: every remote it adds is [origin]
    with that URL, and the only remote it removes is [origin]. *)
Theorem token_goes_into_remote_url (this : GitManager) (w : W) (tok rest : string) :
  flag (useSSH (config this)) = false ->
  nonempty (token (config this)) = Some tok ->
  includes tok "$" = false ->
  nonempty (remoteUrl (config this)) = Some ("https://github.com/" ++ rest) ->
  let r := run git setupAuthentication this w in
  Forall (fun o =>
            match o with
            | GitAddRemote n u =>
                n = "origin"
                /\ u = "https://x-access-token:" ++ tok ++ "@github.com/" ++ rest
            | GitRemoveRemote n => n = "origin"
            | GitGetRemotes _ => True
            | _ => False
            end) (calls (events r)).
Proof.
  intros Hssh Htok Hplain Hurl r. subst r. unfold setupAuthentication.
  rewrite run_try_catch, run_bind, run_get. run_red.
  rewrite Hurl, Hssh, Htok.
  rewrite (includes_app_l "https://github.com/" rest "github.com" eq_refl).
  rewrite (with_token_github tok rest Hplain).
  walk; cbn [events]; seen; repeat constructor; auto.
Qed.

End TokenRemote.

(** The configuration of the sample plugin. *)
Lemma token_goes_into_remote_url_witness :
  let r := run Sample.git setupAuthentication Sample.manager Sample.clean in
  Forall (fun o =>
            match o with
            | GitAddRemote n u =>
                n = "origin"
                /\ u = "https://x-access-token:" ++ "ghp_token" ++ "@github.com/"
                       ++ "user/notes.git"
            | GitRemoveRemote n => n = "origin"
            | GitGetRemotes _ => True
            | _ => False
            end) (calls (events r)).
Proof.
  exact (token_goes_into_remote_url Sample.git Sample.manager Sample.clean
           "ghp_token" "user/notes.git" eq_refl eq_refl eq_refl eq_refl).
Defined.

Section TrimFacts.






End TrimFacts.

Section CycleMessage.

Context {W : Type} (git : adapter W).




(** X22.  After a cycle that recorded its time, also one that failed, the
    callback of the interval calls nothing on the repository and shows
    nothing until [syncInterval] minutes have passed. *)
Theorem interval_waits_after_cycle
    (source : string) (cf : option (list string))
    (this : MyPlugin) (g : GitManager) (w w' : W) (t : Z) :
  gitManager this = Some g ->
  let r := run git (MyPluginMethods.performSync source cf) this w in
  now_answers (events r) = [Ok t] ->
  (forall w'' t', git DateNow w' = (w'', Ok t') ->
                  (t' - t < syncInterval (settings this) * 60 * 1000)%Z) ->
  let ri := run git MyPluginMethods.onInterval (fields r) w' in
  fields ri = fields r
  /\ notices (events ri) = []
  /\ Forall (fun o => o = DateNow) (calls (events ri)).
Proof.
  intros Hg r Hnow Hclock ri. subst ri.
  assert (Hr : lastSyncTime (fields r) = t /\ settings (fields r) = settings this).
  { subst r. rewrite (performSync_with_manager git source cf this g w Hg) in *.
    cbv zeta in *.
    assert (H0 : now_answers match cf with
                             | Some _ => []
                             | None => [Called GitStatus (snd (git GitStatus w))]
                             end = []) by (destruct cf; reflexivity).
    destruct (git DateLocaleString _) as [w1 [d|e]].
    - set (m := getCommitMessage _ _ _) in *.
      set (fs := match cf with Some _ => cf | None => _ end) in *.
      pose proof (now_answers_calls _ (only_calls git _ _ _ (fullSync_no_clock m fs) g w1))
        as Hf.
      destruct (git DateNow _) as [w2 [now|e]]; cbn [events fields] in *;
        rewrite now_answers_app, H0 in Hnow; cbn [List.app] in Hnow;
        rewrite now_answers_cons, now_answers_app, Hf in Hnow;
        cbn in Hnow; inversion Hnow; subst; split; reflexivity.
    - cbn [events] in Hnow. rewrite now_answers_app, H0 in Hnow. discriminate. }
  destruct Hr as [Ht Hs].
  unfold MyPluginMethods.onInterval. rewrite run_bind, run_get. run_red. rewrite Hs.
  destruct (_ && _); [|rewrite run_Ret; cbn; repeat split; constructor].
  rewrite run_bind, run_call.
  destruct (git DateNow w') as [w'' [t'|e]] eqn:Hd; run_red.
  - rewrite run_bind, run_get. run_red. rewrite Ht, Hs.
    specialize (Hclock w'' t' eq_refl).
    replace (_ <=? _)%Z with false by (symmetry; apply Z.leb_gt; lia).
    rewrite run_Ret. cbn. repeat split; repeat constructor.
  - cbn. repeat split; repeat constructor.
Qed.

End CycleMessage.


(** The interval is checked at the very time at which a cycle ended. *)
Lemma interval_waits_after_cycle_witness :
  let r := run Sample.git (MyPluginMethods.performSync "Manual sync" None)
               Sample.plugin Sample.clean in
  let ri := run Sample.git MyPluginMethods.onInterval (fields r) (world r) in
  now_answers (events r) = [Ok 1793649123000%Z]
  /\ fields ri = fields r
  /\ notices (events ri) = []
  /\ Forall (fun o => o = DateNow) (calls (events ri)).
Proof.
  intros r.
  assert (Hnow : now_answers (events r) = [Ok 1793649123000%Z]) by reflexivity.
  split; [exact Hnow|].
  refine (interval_waits_after_cycle Sample.git "Manual sync" None Sample.plugin
            Sample.manager Sample.clean (world r) 1793649123000%Z eq_refl Hnow _).
  intros w'' t' H. inversion H. reflexivity.
Defined.

Section SshRemote.

Context {W : Type} (git : adapter W).

(** The HTTPS URL that stands in for an SSH URL when the key cannot be
    used: the first [.git] is taken out, wherever it is, and [.git] is put
    at the end. *)
Lemma ssh_fallback_url (tok b a : string) :
  includes tok "$" = false ->
  includes ("https://github.com/" ++ b ++ ".gi") ".git" = false ->
  with_token tok
    (replace ".git" ""
       (replace "git@github.com:" "https://github.com/"
          ("git@github.com:" ++ b ++ ".git" ++ a)) ++ ".git")
  = "https://x-access-token:" ++ tok ++ "@github.com/" ++ b ++ a ++ ".git".
Proof.
  intros Htok Hb.
  assert (H1 : replace "git@github.com:" "https://github.com/"
                 ("git@github.com:" ++ b ++ ".git" ++ a)
               = "https://github.com/" ++ b ++ ".git" ++ a)
    by exact (replace_at "git@github.com" ":" "https://github.com/" ""
                (b ++ ".git" ++ a) eq_refl eq_refl).
  rewrite H1.
  assert (H2 : replace ".git" "" ("https://github.com/" ++ b ++ ".git" ++ a)
               = "https://github.com/" ++ b ++ a)
    by exact (replace_at ".gi" "t" "" ("https://github.com/" ++ b) a Hb eq_refl).
  rewrite H2.
  change (("https://github.com/" ++ b ++ a) ++ ".git")
    with ("https://github.com/" ++ ((b ++ a) ++ ".git")).
  rewrite (with_token_github tok _ Htok), append_assoc. reflexivity.
Qed.

(** [validateSSHKey] returns, assigns nothing, and looks at the key file
    only. *)
Lemma validateSSHKey_run (P : op -> Prop) (this : GitManager) (w : W) :
  (forall p, P (FsExistsSync p)) -> (forall p, P (FsAccessSync p)) ->
  (forall p, P (PathJoinHome p)) ->
  exists b evs w',
    run git validateSSHKey this w = mkRan this w' evs (Ok b)
    /\ Forall P (calls evs).
Proof.
  intros H1 H2 H3.
  assert (Ho : only P no_assignment validateSSHKey)
    by (unfold validateSSHKey; repeat only_step; auto).
  pose proof (only_keeps_fields git _ _ Ho this w) as Hf.
  pose proof (only_calls git _ _ _ Ho this w) as Hc.
  assert (Hv : exists b, value (run git validateSSHKey this w) = Ok b).
  { unfold validateSSHKey. rewrite run_bind, run_get. run_red.
    destruct (nonempty _); [|eexists; reflexivity].
    apply try_catch_returns. intros e s0 w'. eexists. reflexivity. }
  destruct Hv as [b Hv].
  destruct (run git validateSSHKey this w) as [s1 w1 e1 v1].
  cbn [fields events value] in *. subst. exists b, e1, w1. auto.
Qed.

(** X23.  With SSH switched on, an SSH URL and a token,
    [setupAuthentication] sets [origin] either to the SSH URL as it is, or,
    when the key cannot be used, to the HTTPS URL with the token, built from
    the SSH URL by taking out its first [.git] and putting [.git] at the
    end. *)
Theorem ssh_remote_url (this : GitManager) (w : W) (tok b a : string) :
  flag (useSSH (config this)) = true ->
  nonempty (token (config this)) = Some tok ->
  includes tok "$" = false ->
  nonempty (remoteUrl (config this)) = Some ("git@github.com:" ++ b ++ ".git" ++ a) ->
  includes ("https://github.com/" ++ b ++ ".gi") ".git" = false ->
  let r := run git setupAuthentication this w in
  Forall (fun o =>
            match o with
            | GitAddRemote n u =>
                n = "origin"
                /\ (u = "git@github.com:" ++ b ++ ".git" ++ a
                    \/ u = "https://x-access-token:" ++ tok ++ "@github.com/"
                           ++ b ++ a ++ ".git")
            | GitRemoveRemote n => n = "origin"
            | GitGetRemotes _ | FsExistsSync _ | FsAccessSync _ | PathJoinHome _ => True
            | _ => False
            end) (calls (events r)).
Proof.
  intros Hssh Htok Hplain Hurl Hb r. subst r. unfold setupAuthentication.
  rewrite run_try_catch, run_bind, run_get. run_red.
  rewrite Hurl, Hssh, Htok. rewrite (ssh_fallback_url tok b a Hplain Hb).
  change (startsWith ("git@github.com:" ++ b ++ ".git" ++ a) "git@") with true.
  cbn [negb]. unfold call, notify, get, modify.
  repeat first
    [ match goal with
      | |- context [run git validateSSHKey ?s ?w0] =>
          let Hr := fresh "Hr" in let Hk := fresh "Hk" in
          destruct (validateSSHKey_run
                      (fun o =>
                         match o with
                         | GitAddRemote n u =>
                             n = "origin"
                             /\ (u = "git@github.com:" ++ b ++ ".git" ++ a
                                 \/ u = "https://x-access-token:" ++ tok
                                        ++ "@github.com/" ++ b ++ a ++ ".git")
                         | GitRemoveRemote n => n = "origin"
                         | GitGetRemotes _ | FsExistsSync _ | FsAccessSync _
                         | PathJoinHome _ => True
                         | _ => False
                         end) s w0 (fun _ => I) (fun _ => I) (fun _ => I))
            as (? & ? & ? & Hr & Hk);
          rewrite Hr; clear Hr
      end
    | walk_step ].
  all: cbn [calls flat_map List.app]; rewrite ?app_nil_r, ?flat_map_app;
    cbn [flat_map List.app];
    repeat first [ apply Forall_nil
                 | apply Forall_cons
                 | apply Forall_app; split
                 | assumption ];
    try exact I; try reflexivity;
    try (split; [reflexivity | first [left; reflexivity | right; reflexivity]]).
Qed.

End SshRemote.

(** The sample repository with SSH switched on. *)
Lemma ssh_remote_url_witness :
  let cfg := mkConfig "/vault" (Some "git@github.com:user/notes.git") "main"
                      "Obsidian User" "user@example.com" (Some "ghp_token")
                      (Some "~/.ssh/id_rsa") (Some "") (Some true) in
  let r := run Sample.git setupAuthentication (mkGitManager cfg true) Sample.clean in
  Forall (fun o =>
            match o with
            | GitAddRemote n u =>
                n = "origin"
                /\ (u = "git@github.com:" ++ "user/notes" ++ ".git" ++ ""
                    \/ u = "https://x-access-token:" ++ "ghp_token" ++ "@github.com/"
                           ++ "user/notes" ++ "" ++ ".git")
            | GitRemoveRemote n => n = "origin"
            | GitGetRemotes _ | FsExistsSync _ | FsAccessSync _ | PathJoinHome _ => True
            | _ => False
            end) (calls (events r)).
Proof.
  intros cfg.
  exact (ssh_remote_url Sample.git (mkGitManager cfg true) Sample.clean
           "ghp_token" "user/notes" "" eq_refl eq_refl eq_refl eq_refl eq_refl).
Defined.
